(** * TrailMate: the trail-and-weather retrieval tools

    A shallow embedding of [tools/trails_api.py], [tools/weather_data.py],
    [tools/geocode.py] and [tools/pipeline.py], and the properties of the
    retrieval pipeline proved on it.

    Conventions of the embedding.
    - The services answer with the documents of their interfaces: an
      Overpass element is [{type, id, tags: {str: str}, center: {lat, lon}}],
      an Open-Meteo answer is [{hourly: {time: [...], ...}}], a Nominatim
      answer is a list of hits with string-encoded [lat] and [lon].  A
      dictionary is a record of [option] fields.  For a field read with
      [.get(key)], [None] is a missing key or a JSON [null]; for a field
      read with a default or tested with [in] ([elements], [hourly] and
      the four hourly series) [None] is a missing key.  The free-form
      [tags] dictionary is a [gmap string string].
    - A JSON number is the rational it denotes ([Q]); comparisons use the
      order of [Q], [round] rounds half to even on the exact value and
      [int] truncates it.  The runtime rounds and multiplies binary
      doubles, which can differ from the exact value in the last place;
      the properties use [round] as a function only and state nothing
      about its value.  NaN and the infinities are not JSON and are left
      out.  How the runtime prints and reads a float is a parameter of
      the development.
    - A [str] is a [string]; [lower] and [strip] act on the ASCII range.
    - A function that raises, calls a service or prints runs in a state
      and exception monad whose state is the log of outbound events and
      the three [lru_cache] tables.  A table is keyed on the arguments
      the function is called with; the properties hold for every table
      content that the functions can have produced. *)

From Stdlib Require Import ZArith QArith List Ascii String Lia Lqa Bool DecimalString.
From stdpp Require Import gmap strings list.

Set Default Proof Using "Type".
#[local] Set Warnings "-clear-no-such-hyp".

(** ** Python values *)

Module Py.

(** Truth value of an optional [str]: [None] and [''] are false. *)
Definition truthy (o : option string) : bool :=
  match o with
  | Some s => negb (String.eqb s "")
  | None => false
  end.

(** [a or b] on optional strings. *)
Definition or_ (a b : option string) : option string :=
  if truthy a then a else b.

(** [str(n)] for an [int]. *)
Definition str_int (n : Z) : string := NilZero.string_of_int (Z.to_int n).

(** [f"{x}"] for an [int] or [None]. *)
Definition fmt_opt_int (o : option Z) : string :=
  match o with
  | Some n => str_int n
  | None => "None"
  end.

(** [round(x, ndigits)]: nearest multiple of [10^-ndigits], ties to the
    even one. *)
Definition round (x : Q) (ndigits : nat) : Q :=
  let scale := (10 ^ Z.of_nat ndigits)%Z in
  let n := (Qnum x * scale)%Z in
  let d := Z.pos (Qden x) in
  let f := (n / d)%Z in
  let r := (n mod d)%Z in
  let m := if (2 * r <? d)%Z then f
           else if (d <? 2 * r)%Z then (f + 1)%Z
           else if Z.even f then f else (f + 1)%Z in
  (m # Z.to_pos scale)%Q.

(** [int(x)] for a float: truncation towards zero. *)
Definition int (x : Q) : Z := (Qnum x ÷ Z.pos (Qden x))%Z.

(** [x < y] and [x > y] on numbers. *)
Definition lt (x y : Q) : bool := negb (Qle_bool y x).
Definition gt (x y : Q) : bool := lt y x.

(** Two-argument [min] and [max]: the first argument wins a tie. *)
Definition min2 (x y : Q) : Q := if lt y x then y else x.
Definition max2 (x y : Q) : Q := if gt y x then y else x.

(** [s[:n]] for [n >= 0]. *)
Definition slice_to {A} (n : Z) (l : list A) : list A := take (Z.to_nat n) l.

(** ASCII view of [str.lower]. *)
Definition lower_char (c : ascii) : ascii :=
  let n := nat_of_ascii c in
  if (65 <=? n)%nat && (n <=? 90)%nat then ascii_of_nat (n + 32) else c.

Fixpoint lower (s : string) : string :=
  match s with
  | EmptyString => EmptyString
  | String c s' => String (lower_char c) (lower s')
  end.

(** ASCII view of [str.isspace]: TAB..CR, FS..US and the space. *)
Definition is_space (c : ascii) : bool :=
  let n := nat_of_ascii c in
  ((9 <=? n)%nat && (n <=? 13)%nat) || ((28 <=? n)%nat && (n <=? 32)%nat).

Fixpoint lstrip (s : string) : string :=
  match s with
  | EmptyString => EmptyString
  | String c s' => if is_space c then lstrip s' else s
  end.

(** [rstrip]: a character is dropped when it is white and everything
    after it was dropped. *)
Fixpoint rstrip (s : string) : string :=
  match s with
  | EmptyString => EmptyString
  | String c s' =>
      match rstrip s' with
      | EmptyString => if is_space c then EmptyString else String c EmptyString
      | r => String c r
      end
  end.

Definition strip (s : string) : string := rstrip (lstrip s).

(** [s1 < s2] on [str]: lexicographic on code points, a proper prefix is
    smaller. *)
Fixpoint str_lt (s1 s2 : string) : bool :=
  match s1, s2 with
  | _, EmptyString => false
  | EmptyString, String _ _ => true
  | String c1 r1, String c2 r2 =>
      if (nat_of_ascii c1 <? nat_of_ascii c2)%nat then true
      else if (nat_of_ascii c2 <? nat_of_ascii c1)%nat then false
      else str_lt r1 r2
  end.

End Py.

(** ** tools/trails_api.py: the data *)

(** The [center] object of an Overpass element. *)
Record center := mk_center {
  c_lat : option Q;
  c_lon : option Q
}.

(** A raw element of the Overpass response,
    [{type, id, tags: {...}, center: {lat, lon}}]. *)
Record element := mk_element {
  e_type : option string;
  e_id : option Z;
  e_tags : option (gmap string string);
  e_center : option center
}.

(** A trail dictionary as [_normalize] builds it and [_pick_by_name]
    reads it. *)
Record trail := mk_trail {
  tr_id : option Z;
  tr_osm_type : option string;
  tr_name : option string;
  tr_route_type : option string;
  tr_lat : option Q;
  tr_lon : option Q;
  tr_difficulty : option string;
  tr_surface : option string
}.

(** The deduplication key [(item["osm_type"], item["id"])]. *)
Definition trail_key (t : trail) : option string * option Z :=
  (tr_osm_type t, tr_id t).

(** ** tools/trails_api.py: [_normalize] *)

(** [f"{('Way' if etype=='way' else 'Route')} {eid}"] *)
Definition synthesized_name (etype : option string) (eid : option Z) : string :=
  (if decide (etype = Some "way") then "Way" else "Route")
    +:+ " " +:+ Py.fmt_opt_int eid.

(** [tags.get("name") or tags.get("name:en") or tags.get("ref") or
    tags.get("route")], replaced by the synthesized name when it is false. *)
Definition display_name (tags : gmap string string) (etype : option string)
    (eid : option Z) : string :=
  match Py.or_ (tags !! "name")
          (Py.or_ (tags !! "name:en")
             (Py.or_ (tags !! "ref") (tags !! "route"))) with
  | Some s => if String.eqb s "" then synthesized_name etype eid else s
  | None => synthesized_name etype eid
  end.

(** The body of the first loop for one element: [None] is [continue]. *)
Definition normalize_element (el : element) : option trail :=
  let tags := default ∅ (e_tags el) in
  let etype := e_type el in
  let eid := e_id el in
  let name := display_name tags etype eid in
  let center := default (mk_center None None) (e_center el) in
  match c_lat center, c_lon center with
  | Some lat, Some lon =>
      Some {| tr_id := eid;
              tr_osm_type := etype;
              tr_name := Some name;
              tr_route_type :=
                if decide (etype = Some "relation") then tags !! "route" else None;
              tr_lat := Some (Py.round lat 5);
              tr_lon := Some (Py.round lon 5);
              tr_difficulty := tags !! "sac_scale";
              tr_surface := tags !! "surface" |}
  | _, _ => None
  end.

(** [for el in elements: ... out.append({...})] *)
Definition normalize_loop (elements : list element) : list trail :=
  fold_left (fun out el =>
               match normalize_element el with
               | Some t => out ++ [t]
               | None => out
               end) elements [].

(** One turn of the deduplication loop on the pair [(seen, deduped)]. *)
Definition dedup_step (st : gset (option string * option Z) * list trail)
    (item : trail) : gset (option string * option Z) * list trail :=
  let key := trail_key item in
  if decide (key ∈ st.1) then st
  else ({[ key ]} ∪ st.1, st.2 ++ [item]).

Definition dedup_loop (out : list trail) : list trail :=
  (fold_left dedup_step out (∅, [])).2.

Definition _normalize (elements : list element) : list trail :=
  let out := normalize_loop elements in
  let deduped := dedup_loop out in
  take 20 deduped.

(** [_clamp_radius_km] *)
Definition _clamp_radius_km (r : Q) : Q :=
  Py.max2 (1 # 2) (Py.min2 r 60).

(** ** Exceptions *)

Inductive net_failure := Timeout | ConnectionError.

(** The exceptions the tools can raise. [ValueError] is the plain one the
    tools raise themselves, with its message; [JSONDecodeError] is the one
    of [r.json()], [HTTPError] the one of [r.raise_for_status()],
    [RequestException] a failed exchange.  In Python a [JSONDecodeError]
    is a [ValueError] too; the constructor [ValueError] stands for the
    ones the tools raise by name, which their messages tell apart. *)
Inductive exn :=
| ValueError (msg : string)
| TypeError (msg : string)
| HTTPError (status : Z)
| JSONDecodeError
| RequestException (f : net_failure).

Inductive result (A : Type) :=
| Ok (a : A)
| Raise (e : exn).
Arguments Ok {A} a.
Arguments Raise {A} e.

Definition rbind {A B} (r : result A) (k : A -> result B) : result B :=
  match r with
  | Ok a => k a
  | Raise e => Raise e
  end.

(** ** tools/weather_data.py: slimming a forecast *)

(** The [hourly] object of an Open-Meteo response: a series is [None]
    when its key is missing, and a sample may be [null]. *)
Record hourly := mk_hourly {
  h_time : option (list string);
  h_temperature_2m : option (list (option Q));
  h_precipitation_probability : option (list (option Q));
  h_precipitation : option (list (option Q))
}.

Record forecast_data := mk_forecast_data {
  fd_hourly : option hourly
}.

Record summary := mk_summary {
  min_temp : Q;
  max_temp : Q;
  any_precip : bool;
  max_precip_prob : option Q
}.

(** The dictionary [_slim_weather] returns: [summary] may be absent. *)
Record forecast_slice := mk_forecast_slice {
  fs_hourly : hourly;
  fs_summary : option summary
}.

Definition _clamp_hours (h : Z) : Z := Z.max 1 (Z.min h 24).

(** [min] and [max] of a non-empty list whose items may be [None]: the
    first item is taken as it is, every later one is compared with the
    current extremum, and comparing [None] raises. *)
Fixpoint extremum_loop (better : Q -> Q -> bool) (cur : option Q)
    (rest : list (option Q)) : result (option Q) :=
  match rest with
  | [] => Ok cur
  | item :: rest' =>
      match item, cur with
      | Some x, Some m =>
          extremum_loop better (if better x m then Some x else Some m) rest'
      | _, _ => Raise (TypeError "comparison not supported with NoneType")
      end
  end.

Definition py_extremum (better : Q -> Q -> bool) (l : list (option Q))
    : result (option Q) :=
  match l with
  | [] => Raise (ValueError "arg is an empty sequence")
  | x :: rest => extremum_loop better x rest
  end.

Definition py_min := py_extremum Py.lt.
Definition py_max := py_extremum Py.gt.

(** [round(x, 1)] where [x] may be [None]. *)
Definition round1 (x : option Q) : result Q :=
  match x with
  | Some q => Ok (Py.round q 1)
  | None => Raise (TypeError "type NoneType doesn't define __round__ method")
  end.

(** The body of the [try] block: the summary to store, if any. *)
Definition summary_block (temps precp pprob : list (option Q))
    : result (option summary) :=
  match temps with
  | [] => Ok None
  | _ :: _ =>
      rbind (rbind (py_min temps) round1) (fun mn =>
      rbind (rbind (py_max temps) round1) (fun mx =>
      let anyp :=
        negb (length (List.filter (fun v => Py.gt (default 0%Q v) 0%Q) precp) =? 0)%nat in
      rbind (match pprob with
             | [] => Ok (Some 0%Q)
             | _ :: _ => py_max pprob
             end) (fun mp =>
      Ok (Some {| min_temp := mn; max_temp := mx;
                  any_precip := anyp; max_precip_prob := mp |}))))
  end.

Definition empty_hourly : hourly := mk_hourly None None None None.

Definition _slim_weather (data : forecast_data) (hours : Z) : forecast_slice :=
  let hours := _clamp_hours hours in
  let hourly := default empty_hourly (fd_hourly data) in
  let out_hourly :=
    {| h_time := Py.slice_to hours <$> h_time hourly;
       h_temperature_2m := Py.slice_to hours <$> h_temperature_2m hourly;
       h_precipitation_probability :=
         Py.slice_to hours <$> h_precipitation_probability hourly;
       h_precipitation := Py.slice_to hours <$> h_precipitation hourly |} in
  let temps := default [] (h_temperature_2m out_hourly) in
  let precp := default [] (h_precipitation out_hourly) in
  let pprob := default [] (h_precipitation_probability out_hourly) in
  {| fs_hourly := out_hourly;
     fs_summary :=
       match summary_block temps precp pprob with
       | Ok s => s
       | Raise _ => None        (* except Exception: pass *)
       end |}.

(** ** difflib: [SequenceMatcher] and [get_close_matches]

    The part of the standard module that [_pick_by_name] runs:
    [SequenceMatcher(isjunk=None, autojunk=True)] on two strings.  Indices
    are Python integers.  No element is junk, so the two junk-extension
    loops of [find_longest_match] never turn and are left out.  A ratio
    is the exact rational [2*matches/length]; for strings shorter than
    [2^26] the floating-point quotients compare like the rationals. *)

Module difflib.

Definition block : Type := Z * Z * Z.

(** [__chain_b]: for each element of [b] the ascending list of its
    positions, without the popular elements when [b] has 200 or more. *)
Definition chain_b (b : list ascii) : gmap ascii (list Z) :=
  let b2j :=
    fold_left (fun (m : gmap ascii (list Z)) (p : Z * ascii) =>
                 <[p.2 := default [] (m !! p.2) ++ [p.1]]> m)
      (imap (fun i elt => (Z.of_nat i, elt)) b) ∅ in
  let n := length b in
  if (200 <=? n)%nat then
    let ntest := (n / 100 + 1)%nat in
    filter (fun p : ascii * list Z => ¬ (ntest < length p.2)%nat) b2j
  else b2j.

(** The loop [for j in b2j.get(a[i], nothing)] with its [continue] and
    [break]. *)
Fixpoint scan_js (js : list Z) (i blo bhi : Z) (j2len newj2len : gmap Z Z)
    (best : block) : gmap Z Z * block :=
  match js with
  | [] => (newj2len, best)
  | j :: js' =>
      if (j <? blo)%Z then scan_js js' i blo bhi j2len newj2len best
      else if (bhi <=? j)%Z then (newj2len, best)
      else
        let k := (default 0 (j2len !! (j - 1)) + 1)%Z in
        let best' := if (best.2 <? k)%Z then (i - k + 1, j - k + 1, k)%Z
                     else best in
        scan_js js' i blo bhi j2len (<[j := k]> newj2len) best'
  end.

(** One turn of [for i in range(alo, ahi)] on [(j2len, best)]. *)
Definition scan_i (a : list ascii) (b2j : gmap ascii (list Z)) (blo bhi : Z)
    (st : gmap Z Z * block) (i : Z) : gmap Z Z * block :=
  let js := match a !! Z.to_nat i with
            | Some c => default [] (b2j !! c)
            | None => []
            end in
  scan_js js i blo bhi st.1 ∅ st.2.

(** [a[i] == b[j]] *)
Definition same_at (a b : list ascii) (i j : Z) : bool :=
  match a !! Z.to_nat i, b !! Z.to_nat j with
  | Some x, Some y => Ascii.eqb x y
  | _, _ => false
  end.

(** [while besti > alo and bestj > blo and a[besti-1] == b[bestj-1]];
    [turns] bounds the number of turns and is given as [besti - alo]. *)
Fixpoint extend_left (turns : nat) (a b : list ascii) (alo blo : Z)
    (m : block) : block :=
  match turns with
  | O => m
  | S turns' =>
      let '(besti, bestj, bestsize) := m in
      if (alo <? besti)%Z && (blo <? bestj)%Z
         && same_at a b (besti - 1) (bestj - 1)
      then extend_left turns' a b alo blo (besti - 1, bestj - 1, bestsize + 1)%Z
      else m
  end.

(** [while besti+bestsize < ahi and bestj+bestsize < bhi and
    a[besti+bestsize] == b[bestj+bestsize]]; [turns] is given as
    [ahi - (besti+bestsize)]. *)
Fixpoint extend_right (turns : nat) (a b : list ascii) (ahi bhi : Z)
    (m : block) : block :=
  match turns with
  | O => m
  | S turns' =>
      let '(besti, bestj, bestsize) := m in
      if (besti + bestsize <? ahi)%Z && (bestj + bestsize <? bhi)%Z
         && same_at a b (besti + bestsize) (bestj + bestsize)
      then extend_right turns' a b ahi bhi (besti, bestj, bestsize + 1)%Z
      else m
  end.

Definition find_longest_match (a b : list ascii) (b2j : gmap ascii (list Z))
    (alo ahi blo bhi : Z) : block :=
  let m0 := (fold_left (scan_i a b2j blo bhi) (seqZ alo (ahi - alo))
               (∅, (alo, blo, 0%Z))).2 in
  let m1 := extend_left (Z.to_nat (m0.1.1 - alo)) a b alo blo m0 in
  extend_right (Z.to_nat (ahi - (m1.1.1 + m1.2))) a b ahi bhi m1.

(** The [while queue] loop of [get_matching_blocks]; the head of [queue]
    is the end of the Python list.  [None] when [fuel] turns were not
    enough. *)
Fixpoint blocks_loop (fuel : nat) (a b : list ascii)
    (b2j : gmap ascii (list Z)) (queue : list (Z * Z * Z * Z))
    (matching_blocks : list block) : option (list block) :=
  match queue with
  | [] => Some matching_blocks
  | (alo, ahi, blo, bhi) :: queue' =>
      match fuel with
      | O => None
      | S fuel' =>
          let x := find_longest_match a b b2j alo ahi blo bhi in
          let '(i, j, k) := x in
          if (k =? 0)%Z then blocks_loop fuel' a b b2j queue' matching_blocks
          else
            let q1 := if (alo <? i)%Z && (blo <? j)%Z
                      then (alo, i, blo, j) :: queue' else queue' in
            let q2 := if (i + k <? ahi)%Z && (j + k <? bhi)%Z
                      then ((i + k)%Z, ahi, (j + k)%Z, bhi) :: q1 else q1 in
            blocks_loop fuel' a b b2j q2 (matching_blocks ++ [x])
      end
  end.

(** The blocks found, before they are sorted and adjacent ones merged
    (neither changes the sum of their sizes). *)
Definition matching_blocks (a b : list ascii) : option (list block) :=
  blocks_loop (2 * length a + 1) a b (chain_b b)
    [(0%Z, Z.of_nat (length a), 0%Z, Z.of_nat (length b))] [].

Definition _calculate_ratio (matches : Z) (length : nat) : Q :=
  match length with
  | O => 1%Q
  | S _ => ((2 * matches)%Z # Pos.of_nat length)%Q
  end.

(** [ratio()] with [a] the first and [b] the second sequence. *)
Definition ratio (a b : string) : Q :=
  let la := list_ascii_of_string a in
  let lb := list_ascii_of_string b in
  let matches :=
    foldr Z.add 0%Z ((fun x : block => x.2) <$> default [] (matching_blocks la lb)) in
  _calculate_ratio matches (length la + length lb).

(** [quick_ratio()]: the elements counted with multiplicity. *)
Definition quick_ratio (a b : string) : Q :=
  let la := list_ascii_of_string a in
  let lb := list_ascii_of_string b in
  let fullbcount :=
    fold_left (fun (m : gmap ascii Z) elt => <[elt := (default 0 (m !! elt) + 1)%Z]> m)
      lb ∅ in
  let matches :=
    (fold_left (fun (st : gmap ascii Z * Z) elt =>
                  let numb := match st.1 !! elt with
                              | Some n => n
                              | None => default 0%Z (fullbcount !! elt)
                              end in
                  (<[elt := (numb - 1)%Z]> st.1,
                   if (0 <? numb)%Z then (st.2 + 1)%Z else st.2))
       la (∅, 0%Z)).2 in
  _calculate_ratio matches (length la + length lb).

Definition real_quick_ratio (a b : string) : Q :=
  let la := String.length a in
  let lb := String.length b in
  _calculate_ratio (Z.of_nat (Nat.min la lb)) (la + lb).

(** [(s1, x1) > (s2, x2)] on tuples of a score and a string. *)
Definition tuple_gt (x y : Q * string) : bool :=
  Py.gt x.1 y.1 || (Qeq_bool x.1 y.1 && Py.str_lt y.2 x.2).

(** [max(it)]: the current maximum is replaced by a greater item only. *)
Fixpoint max_loop (cur : Q * string) (rest : list (Q * string)) : Q * string :=
  match rest with
  | [] => cur
  | item :: rest' => max_loop (if tuple_gt item cur then item else cur) rest'
  end.

(** [heapq.nlargest(1, result)] *)
Definition nlargest1 (result : list (Q * string)) : list (Q * string) :=
  match result with
  | [] => []
  | x :: rest => [max_loop x rest]
  end.

(** Whether [x] is appended to [result]. *)
Definition close_enough (cutoff : Q) (word x : string) : bool :=
  Qle_bool cutoff (real_quick_ratio x word)
  && Qle_bool cutoff (quick_ratio x word)
  && Qle_bool cutoff (ratio x word).

(** [get_close_matches(word, possibilities, n=1, cutoff)] *)
Definition get_close_matches (word : string) (possibilities : list string)
    (cutoff : Q) : list string :=
  let result :=
    fold_left (fun (result : list (Q * string)) x =>
                 if close_enough cutoff word x
                 then result ++ [(ratio x word, x)] else result)
      possibilities [] in
  snd <$> nlargest1 result.

End difflib.

(** ** tools/weather_data.py: [_pick_by_name] *)

(** [(s or "").strip().lower()] *)
Definition _normalize_name (s : option string) : string :=
  Py.lower (Py.strip (default "" s)).

(** [t.get("lat") is not None and t.get("lon") is not None] *)
Definition has_coords (t : trail) : bool :=
  match tr_lat t, tr_lon t with
  | Some _, Some _ => true
  | _, _ => false
  end.

Definition is_named (t : trail) : bool :=
  negb (String.eqb (_normalize_name (tr_name t)) "").

Definition _pick_by_name (trails : list trail) (trail_name : string)
    : option trail :=
  match trails with
  | [] => None
  | _ :: _ =>
      let tname := _normalize_name (Some trail_name) in
      let named := List.filter is_named trails in
      (* 1) exact (case-insensitive) *)
      match List.find (fun t => String.eqb (_normalize_name (tr_name t)) tname) named with
      | Some t => Some t
      | None =>
          (* 2) fuzzy closest; every trail of [named] has a name *)
          let names := omap tr_name named in
          let best := difflib.get_close_matches trail_name names (6 # 10) in
          let fuzzy :=
            match best with
            | name :: _ =>
                List.find (fun t => bool_decide (tr_name t = Some name)) named
            | [] => None
            end in
          match fuzzy with
          | Some t => Some t
          | None =>
              (* 3) fall back: any item with coords *)
              head (List.filter has_coords trails)
          end
      end
  end.

(** ** Outbound calls, the log and the memoisation tables *)

Inductive pyval :=
| VStr (s : string)
| VInt (n : Z)
| VFloat (x : Q).

(** A call of [requests.get] or [requests.post]. *)
Record request := mk_request {
  rq_method : string;
  rq_url : string;
  rq_params : list (string * pyval);
  rq_data : list (string * string);
  rq_headers : list (string * string);
  rq_timeout : Z
}.

(** A response: [json] is [None] when the body does not decode. *)
Record response (A : Type) := mk_response {
  status_code : Z;
  text : string;
  json : option A
}.
Arguments mk_response {A} _ _ _.
Arguments status_code {A} _.
Arguments text {A} _.
Arguments json {A} _.

Inductive event :=
| Sent (rq : request)
| Printed (line : string).

(** One candidate of the geocoder's answer, with string-encoded numbers. *)
Record geo_hit := mk_geo_hit {
  g_lat : string;
  g_lon : string
}.

(** The Overpass answer, [{elements: [...]}]; [None] when the key is
    missing. *)
Record overpass_body := mk_overpass_body {
  ob_elements : option (list element)
}.

(** What the tools do not control: how the runtime prints and reads a
    float, and what each service answers to a request given everything
    that happened before. *)
Class Upstream := {
  float_str : Q -> string;
  parse_float : string -> option Q;
  nominatim : list event -> request -> net_failure + response (list geo_hit);
  overpass : list event -> request -> net_failure + response overpass_body;
  open_meteo : list event -> request -> net_failure + response forecast_data
}.

Definition near_key : Type := Q * Q * Q * bool * bool.
Definition bbox_key : Type := Q * Q * Q * Q * bool * bool.
Definition weather_key : Type := Q * Q * Z.

(** The state of the process: what was sent and printed so far, oldest
    first, and the three [lru_cache] tables, most recently used first. *)
Record state := mk_state {
  log : list event;
  near_table : list (near_key * list trail);
  bbox_table : list (bbox_key * list trail);
  weather_table : list (weather_key * forecast_slice)
}.

Definition initial_state : state := mk_state [] [] [] [].

Definition M (A : Type) : Type := state -> result A * state.

#[global] Instance M_ret : MRet M := fun A a s => (Ok a, s).
#[global] Instance M_bind : MBind M := fun A B k m s =>
  match m s with
  | (Ok a, s') => k a s'
  | (Raise e, s') => (Raise e, s')
  end.

Definition raise {A} (e : exn) : M A := fun s => (Raise e, s).

Definition emit (ev : event) : M unit := fun s =>
  (Ok tt, mk_state (log s ++ [ev]) (near_table s) (bbox_table s) (weather_table s)).

(** [print(label, body)] *)
Definition print (label body : string) : M unit :=
  emit (Printed (label +:+ " " +:+ body)).

(** An exchange with a service: the request is logged, then the answer
    or the failure comes back. *)
Definition exchange {A} (service : list event -> request -> net_failure + response A)
    (rq : request) : M (response A) := fun s =>
  let s' := mk_state (log s ++ [Sent rq]) (near_table s) (bbox_table s)
              (weather_table s) in
  match service (log s) rq with
  | inl f => (Raise (RequestException f), s')
  | inr r => (Ok r, s')
  end.

(** [r.raise_for_status()] *)
Definition raise_for_status {A} (r : response A) : M unit :=
  if (400 <=? status_code r)%Z && (status_code r <? 600)%Z
  then raise (HTTPError (status_code r))
  else mret tt.

(** [r.json()] *)
Definition json_of {A} (r : response A) : M A :=
  match json r with
  | Some v => mret v
  | None => raise JSONDecodeError
  end.

(** *** [functools.lru_cache]

    The table is keyed on the arguments; a hit returns the stored value
    and makes the entry the most recent one; a miss runs the function and,
    when it returns, stores the value and drops the least recent entries
    beyond [maxsize].  An exception stores nothing.  (The decorator also
    tells a positional from a keyword argument and an omitted default
    from a given one; keying on the values alone merges such entries and
    leaves every table content below possible.) *)

Fixpoint table_find {K V} (eqb : K -> K -> bool) (k : K) (t : list (K * V))
    : option (K * V) :=
  match t with
  | [] => None
  | (k', v) :: t' => if eqb k' k then Some (k', v) else table_find eqb k t'
  end.

Fixpoint table_remove {K V} (eqb : K -> K -> bool) (k : K) (t : list (K * V))
    : list (K * V) :=
  match t with
  | [] => []
  | (k', v) :: t' => if eqb k' k then t' else (k', v) :: table_remove eqb k t'
  end.

Definition lru_cache {K V} (maxsize : nat) (eqb : K -> K -> bool)
    (get : state -> list (K * V)) (set : list (K * V) -> state -> state)
    (f : K -> M V) (k : K) : M V := fun s =>
  match table_find eqb k (get s) with
  | Some (k', v) => (Ok v, set ((k', v) :: table_remove eqb k (get s)) s)
  | None =>
      match f k s with
      | (Ok v, s') => (Ok v, set (take maxsize ((k, v) :: get s')) s')
      | (Raise e, s') => (Raise e, s')
      end
  end.

Definition near_key_eqb (k1 k2 : near_key) : bool :=
  let '(lat1, lon1, r1, h1, n1) := k1 in
  let '(lat2, lon2, r2, h2, n2) := k2 in
  Qeq_bool lat1 lat2 && Qeq_bool lon1 lon2 && Qeq_bool r1 r2
  && Bool.eqb h1 h2 && Bool.eqb n1 n2.

Definition bbox_key_eqb (k1 k2 : bbox_key) : bool :=
  let '(a1, b1, c1, d1, h1, n1) := k1 in
  let '(a2, b2, c2, d2, h2, n2) := k2 in
  Qeq_bool a1 a2 && Qeq_bool b1 b2 && Qeq_bool c1 c2 && Qeq_bool d1 d2
  && Bool.eqb h1 h2 && Bool.eqb n1 n2.

Definition weather_key_eqb (k1 k2 : weather_key) : bool :=
  let '(lat1, lon1, h1) := k1 in
  let '(lat2, lon2, h2) := k2 in
  Qeq_bool lat1 lat2 && Qeq_bool lon1 lon2 && (h1 =? h2)%Z.

Definition set_near_table (t : list (near_key * list trail)) (s : state) : state :=
  mk_state (log s) t (bbox_table s) (weather_table s).
Definition set_bbox_table (t : list (bbox_key * list trail)) (s : state) : state :=
  mk_state (log s) (near_table s) t (weather_table s).
Definition set_weather_table (t : list (weather_key * forecast_slice)) (s : state)
    : state :=
  mk_state (log s) (near_table s) (bbox_table s) t.

(** ** The tools *)

Section Tools.
Context `{Upstream}.

(** *** tools/trails_api.py *)

Definition OVERPASS_URL : string := "https://overpass.kumi.systems/api/interpreter".
Definition TRAILS_HEADERS : list (string * string) :=
  [("User-Agent", "TrailMate/0.1 (academic, contact: you@example.com)")].
Definition URBAN_SURFACES : string := "asphalt|concrete|paving_stones|cement".

Definition nl : string := String "010"%char EmptyString.
Definition dq : string := String "034"%char EmptyString.

(** The text [["key"op"value"]] of a tag filter. *)
Definition tag_filter (key op value : string) : string :=
  "[" +:+ dq +:+ key +:+ dq +:+ op +:+ dq +:+ value +:+ dq +:+ "]".

(** The text [["key"]]. *)
Definition has_tag (key : string) : string := "[" +:+ dq +:+ key +:+ dq +:+ "]".

Definition sac_filter (hard_only : bool) : string :=
  if hard_only then tag_filter "sac_scale" "~" "T3|T4|T5|T6" else "".

Definition surface_filter (natural_only : bool) : string :=
  if natural_only then tag_filter "surface" "!~" URBAN_SURFACES else "".

Definition _overpass_query_near (lat lon : Q) (radius_m : Z)
    (hard_only natural_only : bool) : string :=
  let sac := sac_filter hard_only in
  let surf_excl := surface_filter natural_only in
  let around := "(around:" +:+ Py.str_int radius_m +:+ "," +:+ float_str lat
                  +:+ "," +:+ float_str lon +:+ ")" in
  nl +:+ "[out:json][timeout:25];" +:+ nl +:+ "(" +:+ nl
  +:+ "  relation" +:+ around +:+ tag_filter "route" "~" "hiking|running"
  +:+ has_tag "name" +:+ sac +:+ ";" +:+ nl
  +:+ "  way" +:+ around +:+ tag_filter "highway" "~" "path|footway"
  +:+ surf_excl +:+ sac +:+ ";" +:+ nl
  +:+ ");" +:+ nl +:+ "out center tags 2000;" +:+ nl.

Definition _overpass_query_bbox (min_lat min_lon max_lat max_lon : Q)
    (hard_only natural_only : bool) : string :=
  let sac := sac_filter hard_only in
  let surf_excl := surface_filter natural_only in
  let box := "(" +:+ float_str min_lat +:+ "," +:+ float_str min_lon +:+ ","
               +:+ float_str max_lat +:+ "," +:+ float_str max_lon +:+ ")" in
  nl +:+ "[out:json][timeout:25];" +:+ nl +:+ "(" +:+ nl
  +:+ "  relation" +:+ tag_filter "route" "~" "hiking|running"
  +:+ has_tag "name" +:+ sac +:+ box +:+ ";" +:+ nl
  +:+ "  way" +:+ tag_filter "highway" "~" "path|footway"
  +:+ surf_excl +:+ sac +:+ box +:+ ";" +:+ nl
  +:+ ");" +:+ nl +:+ "out center tags 3000;" +:+ nl.

(** [requests.post(OVERPASS_URL, data={"data": ql}, timeout, headers)] *)
Definition overpass_request (ql : string) (timeout : Z) : request :=
  {| rq_method := "POST"; rq_url := OVERPASS_URL; rq_params := [];
     rq_data := [("data", ql)]; rq_headers := TRAILS_HEADERS;
     rq_timeout := timeout |}.

(** The lines after the query is built, the same in both functions but
    for the label of the diagnostic and the timeout. *)
Definition overpass_fetch (ql : string) (timeout : Z) (label : string)
    : M (list trail) :=
  r ← exchange overpass (overpass_request ql timeout);
  _ ← (if bool_decide (status_code r ≠ 200%Z)
       then print label (substring 0 2000 (text r))
       else mret tt);
  _ ← raise_for_status r;
  body ← json_of r;
  mret (_normalize (default [] (ob_elements body))).

(** The function under [@lru_cache(maxsize=256)]. *)
Definition get_trails_near_body (k : near_key) : M (list trail) :=
  let '(lat, lon, radius_km, hard_only, natural_only) := k in
  let radius_m := Py.int (_clamp_radius_km radius_km * 1000) in
  let ql := _overpass_query_near lat lon radius_m hard_only natural_only in
  overpass_fetch ql 30 "Overpass error body (near):".

Definition get_trails_near (lat lon radius_km : Q) (hard_only natural_only : bool)
    : M (list trail) :=
  lru_cache 256 near_key_eqb near_table set_near_table get_trails_near_body
    (lat, lon, radius_km, hard_only, natural_only).

(** The function under [@lru_cache(maxsize=64)]. *)
Definition get_trails_in_bbox_body (k : bbox_key) : M (list trail) :=
  let '(min_lat, min_lon, max_lat, max_lon, hard_only, natural_only) := k in
  if Py.gt min_lat max_lat || Py.gt min_lon max_lon
  then raise (ValueError "Invalid bbox.")
  else
    let ql := _overpass_query_bbox min_lat min_lon max_lat max_lon
                hard_only natural_only in
    overpass_fetch ql 60 "Overpass error body (bbox):".

Definition get_trails_in_bbox (min_lat min_lon max_lat max_lon : Q)
    (hard_only natural_only : bool) : M (list trail) :=
  lru_cache 64 bbox_key_eqb bbox_table set_bbox_table get_trails_in_bbox_body
    (min_lat, min_lon, max_lat, max_lon, hard_only, natural_only).

(** *** tools/geocode.py *)

Definition NOMINATIM : string := "https://nominatim.openstreetmap.org/search".
Definition GEOCODE_HEADERS : list (string * string) :=
  [("User-Agent", "TrailMate/0.1 (academic contact: danielamanozcacruz@ucalgary.ca)")].

Record location := mk_location {
  loc_lat : Q;
  loc_lon : Q
}.

(** [float(s)] on a string. *)
Definition float_of_str (s : string) : M Q :=
  match parse_float s with
  | Some x => mret x
  | None => raise (ValueError ("could not convert string to float: '" +:+ s +:+ "'"))
  end.

Definition geocode_request (place : string) : request :=
  {| rq_method := "GET"; rq_url := NOMINATIM;
     rq_params := [("q", VStr (place +:+ ", Alberta, Canada"));
                   ("format", VStr "json"); ("limit", VInt 1)];
     rq_data := []; rq_headers := GEOCODE_HEADERS; rq_timeout := 10 |}.

Definition geocode_place (place : string) : M location :=
  r ← exchange nominatim (geocode_request place);
  _ ← raise_for_status r;
  results ← json_of r;
  match results with
  | [] => raise (ValueError ("Could not geocode '" +:+ place +:+ "' in Alberta."))
  | first :: _ =>
      lat ← float_of_str (g_lat first);
      lon ← float_of_str (g_lon first);
      mret {| loc_lat := lat; loc_lon := lon |}
  end.

(** *** tools/weather_data.py *)

Definition OPEN_METEO_URL : string := "https://api.open-meteo.com/v1/forecast".

(** Approx Alberta bbox (S, W, N, E) *)
Definition ALBERTA_BBOX : Q * Q * Q * Q := (49, -120, 60, -110)%Q.

Definition weather_request (lat lon : Q) (hours : Z) : request :=
  {| rq_method := "GET"; rq_url := OPEN_METEO_URL;
     rq_params :=
       [("latitude", VFloat lat); ("longitude", VFloat lon);
        ("hourly", VStr "temperature_2m,precipitation_probability,precipitation");
        ("forecast_hours", VInt hours);
        ("timezone", VStr "America/Edmonton")];
     rq_data := []; rq_headers := []; rq_timeout := 10 |}.

(** The function under [@lru_cache(maxsize=256)]. *)
Definition get_weather_body (k : weather_key) : M forecast_slice :=
  let '(lat, lon, hours) := k in
  let hours := _clamp_hours hours in
  r ← exchange open_meteo (weather_request lat lon hours);
  _ ← raise_for_status r;
  data ← json_of r;
  mret (_slim_weather data hours).

Definition get_weather (lat lon : Q) (hours : Z) : M forecast_slice :=
  lru_cache 256 weather_key_eqb weather_table set_weather_table get_weather_body
    (lat, lon, hours).

Record trail_weather := mk_trail_weather {
  tw_trail : trail;
  tw_forecast : forecast_slice
}.

(** Step 1 of [weather_for_trail]: the candidate trails. *)
Definition candidates_for (lat lon : option Q) (radius_km : Q) : M (list trail) :=
  match lat, lon with
  | Some lat, Some lon => get_trails_near lat lon radius_km false true
  | _, _ =>
      let '(s, w, n, e) := ALBERTA_BBOX in
      get_trails_in_bbox s w n e false true
  end.

(** Steps 2 and 3 of [weather_for_trail], from the candidates on. *)
Definition weather_for_candidates (candidates : list trail) (trail_name : string)
    (hours : Z) : M trail_weather :=
  match candidates with
  | [] => raise (ValueError "No trails found in the search area.")
  | _ :: _ =>
      match _pick_by_name candidates trail_name with
      | None =>
          raise (ValueError ("Trail '" +:+ trail_name
                             +:+ "' not found in Alberta (or lacks coordinates)."))
      | Some chosen =>
          match tr_lat chosen, tr_lon chosen with
          | Some tlat, Some tlon =>
              forecast ← get_weather tlat tlon hours;
              mret {| tw_trail := chosen; tw_forecast := forecast |}
          | _, _ =>
              raise (ValueError ("Trail '" +:+ default "Unnamed" (tr_name chosen)
                                 +:+ "' has no coordinates in OSM center data."))
          end
      end
  end.

Definition weather_for_trail (trail_name : string) (hours : Z)
    (lat lon : option Q) (radius_km : Q) : M trail_weather :=
  candidates ← candidates_for lat lon radius_km;
  weather_for_candidates candidates trail_name hours.

(** *** tools/pipeline.py *)

Record place_result := mk_place_result {
  pl_name : string;
  pl_lat : Q;
  pl_lon : Q
}.

Record recommendation := mk_recommendation {
  rec_place : place_result;
  rec_trails : list trail;
  rec_weather : forecast_slice
}.

Definition recommend_near_place (place : string) (radius_km : Q) (hours : Z)
    : M recommendation :=
  loc ← geocode_place place;
  trails ← get_trails_near (loc_lat loc) (loc_lon loc) radius_km false true;
  weather ← get_weather (loc_lat loc) (loc_lon loc) hours;
  mret {| rec_place := {| pl_name := place; pl_lat := loc_lat loc;
                          pl_lon := loc_lon loc |};
          rec_trails := trails;
          rec_weather := weather |}.

End Tools.

(** ** Specification vocabulary *)


(** The recursive reading of the deduplication loop. *)
Fixpoint unseen (seen : gset (option string * option Z)) (out : list trail)
    : list trail :=
  match out with
  | [] => []
  | item :: rest =>
      if decide (trail_key item ∈ seen) then unseen seen rest
      else item :: unseen ({[ trail_key item ]} ∪ seen) rest
  end.

(** [min_lat > max_lat or min_lon > max_lon] *)
Definition bbox_inverted (min_lat min_lon max_lat max_lon : Q) : bool :=
  Py.gt min_lat max_lat || Py.gt min_lon max_lon.

(** What the memoisation tables hold at any time: lists that [_normalize]
    built, under keys that passed the bounding-box check, and slices that
    [_slim_weather] built for the hours of their key. *)
Definition tables_ok (s : state) : Prop :=
  (∀ k v, (k, v) ∈ near_table s → ∃ elements, v = _normalize elements)
  ∧ (∀ a b c d h n v, ((a, b, c, d, h, n), v) ∈ bbox_table s →
       bbox_inverted a b c d = false ∧ ∃ elements, v = _normalize elements)
  ∧ (∀ lat lon hours v, ((lat, lon, hours), v) ∈ weather_table s →
       ∃ data, v = _slim_weather data (_clamp_hours hours)).

(** The tables of [s'] are those of [s]. *)
Definition same_tables (s s' : state) : Prop :=
  near_table s' = near_table s
  ∧ bbox_table s' = bbox_table s
  ∧ weather_table s' = weather_table s.

(** The requests sent between two states, oldest first. *)
Definition sent_between (s s' : state) (rqs : list request) : Prop :=
  ∃ evs, log s' = log s ++ evs
         ∧ rqs = omap (fun ev => match ev with
                                 | Sent rq => Some rq
                                 | Printed _ => None
                                 end) evs.

(** An upstream failure: the exchange failed, the status was an error, or
    the body did not decode. *)
Definition upstream_failure (e : exn) : Prop :=
  (∃ f, e = RequestException f) ∨ (∃ c, e = HTTPError c) ∨ e = JSONDecodeError.


(** ** A sample world *)

Definition sample_elements : list element :=
  [ mk_element (Some "way") (Some 11%Z) (Some {[ "name" := "Grotto Canyon" ]})
      (Some (mk_center (Some (5106 # 100)%Q) (Some (-11520 # 100)%Q)));
    mk_element (Some "relation") (Some 7%Z)
      (Some {[ "route" := "hiking"; "ref" := "" ]})
      (Some (mk_center (Some (51 # 1)%Q) (Some (-115 # 1)%Q)));
    mk_element (Some "way") (Some 11%Z) (Some {[ "name" := "Grotto (again)" ]})
      (Some (mk_center (Some (5107 # 100)%Q) (Some (-11521 # 100)%Q)));
    mk_element (Some "way") (Some 12%Z) None
      (Some (mk_center (Some (5108 # 100)%Q) (Some (-11522 # 100)%Q)));
    mk_element (Some "way") (Some 13%Z) (Some {[ "name" := "No centre" ]})
      (Some (mk_center (Some (5108 # 100)%Q) None)) ].

Definition sample_forecast : forecast_data :=
  mk_forecast_data
    (Some (mk_hourly (Some ["t0"; "t1"; "t2"])
             (Some [Some (45 # 10)%Q; Some (-125 # 100)%Q; Some (7 # 1)%Q])
             (Some [Some 10%Q; Some 40%Q; Some 0%Q])
             (Some [Some 0%Q; Some (2 # 10)%Q; Some 0%Q]))).

(** A world where every service answers 200 with the samples. *)
Definition sample_upstream : Upstream :=
  {| float_str := fun x =>
       Py.str_int (Qnum x) +:+ "/" +:+ Py.str_int (Z.pos (Qden x));
     parse_float := fun s =>
       if String.eqb s "51.09" then Some (5109 # 100)%Q
       else if String.eqb s "-115.35" then Some (-11535 # 100)%Q
       else None;
     nominatim := fun _ _ =>
       inr (mk_response 200 "[...]" (Some [mk_geo_hit "51.09" "-115.35"]));
     overpass := fun _ _ =>
       inr (mk_response 200 "{...}" (Some (mk_overpass_body (Some sample_elements))));
     open_meteo := fun _ _ =>
       inr (mk_response 200 "{...}" (Some sample_forecast)) |}.

(** What [_normalize] makes of the sample elements. *)
Definition sample_trails : list trail := Eval vm_compute in _normalize sample_elements.

(** A world where the trail service knows no element. *)
Definition empty_upstream : Upstream :=
  {| float_str := @float_str sample_upstream;
     parse_float := @parse_float sample_upstream;
     nominatim := @nominatim sample_upstream;
     overpass := fun _ _ =>
       inr (mk_response 200 "{...}" (Some (mk_overpass_body (Some []))));
     open_meteo := @open_meteo sample_upstream |}.

(** A trail dictionary without coordinates. *)
Definition ghost_trail : trail :=
  mk_trail (Some 1%Z) (Some "way") (Some "Ghost Lake") None None None None None.

(** The lengths of the hourly arrays that are present, in the order
    [time], [temperature_2m], [precipitation_probability],
    [precipitation]. *)
Definition hourly_lengths (h : hourly) : list nat :=
  omap id [length <$> h_time h; length <$> h_temperature_2m h;
           length <$> h_precipitation_probability h;
           length <$> h_precipitation h].




(** A forecast with a [null] temperature sample. *)
Definition gappy_forecast : forecast_data :=
  mk_forecast_data
    (Some (mk_hourly (Some ["t0"; "t1"])
             (Some [Some (45 # 10)%Q; None])
             (Some [Some 10%Q; Some 20%Q])
             (Some [Some 0%Q; Some 0%Q]))).

(** [x] is the first item of [l] that satisfies [P]. *)
Definition first_such {A} (P : A -> Prop) (l : list A) (x : A) : Prop :=
  ∃ i, l !! i = Some x ∧ P x
       ∧ ∀ j y, (j < i)%nat → l !! j = Some y → ¬ P y.

(** The name of [t], trimmed and lower-cased, is not empty and is the
    requested name, trimmed and lower-cased. *)
Definition exact_match (trail_name : string) (t : trail) : Prop :=
  _normalize_name (tr_name t) ≠ ""
  ∧ _normalize_name (tr_name t) = _normalize_name (Some trail_name).

(** [name] is the name of a named candidate. *)
Definition candidate_name (trails : list trail) (name : string) : Prop :=
  ∃ t, t ∈ trails ∧ is_named t = true ∧ tr_name t = Some name.

(** [get_close_matches] keeps [name] for [trail_name] at cutoff 0.6. *)
Definition close_to (trail_name name : string) : Prop :=
  difflib.close_enough (6 # 10) trail_name name = true.

(** The order of the tuples [(ratio, name)]: by ratio, then by name. *)
Definition scored_le (trail_name name1 name2 : string) : Prop :=
  (difflib.ratio name1 trail_name < difflib.ratio name2 trail_name)%Q
  ∨ ((difflib.ratio name1 trail_name == difflib.ratio name2 trail_name)%Q
     ∧ (name1 = name2 ∨ Py.str_lt name1 name2 = true)).

(** [name] is the kept candidate name with the greatest [(ratio, name)]. *)
Definition fuzzy_best (trails : list trail) (trail_name name : string) : Prop :=
  candidate_name trails name ∧ close_to trail_name name
  ∧ ∀ name', candidate_name trails name' → close_to trail_name name' →
      scored_le trail_name name' name.

(** The fuzzy step as the specification words it: [t] is the first
    candidate in list order among the kept ones whose ratio is the
    greatest. *)
Definition best_ratio_first_seen (trails : list trail) (trail_name : string)
    (t : trail) : Prop :=
  first_such
    (fun t => is_named t = true
              ∧ ∃ name, tr_name t = Some name ∧ close_to trail_name name
                  ∧ ∀ name', candidate_name trails name' → close_to trail_name name' →
                      (difflib.ratio name' trail_name <= difflib.ratio name trail_name)%Q)
    trails t.

(** Two trails whose names are equally close to ["abcd"]. *)
Definition trail_abcx : trail :=
  mk_trail (Some 1%Z) (Some "way") (Some "abcx") None (Some 51%Q) (Some (-115)%Q)
    None None.
Definition trail_abcy : trail :=
  mk_trail (Some 2%Z) (Some "way") (Some "abcy") None (Some 52%Q) (Some (-116)%Q)
    None None.

Definition trail_elbow : trail :=
  mk_trail (Some 3%Z) (Some "relation") (Some "Elbow Lake Loop") (Some "hiking")
    (Some (5063 # 100)%Q) (Some (-11501 # 100)%Q) None None.
Definition trail_grotto : trail :=
  mk_trail (Some 11%Z) (Some "way") (Some "Grotto Canyon") None
    (Some (5106 # 100)%Q) (Some (-11520 # 100)%Q) None None.

(** A block lies in the [a]-range [alo, ahi). *)
Definition block_in (alo ahi : Z) (m : difflib.block) : Prop :=
  (alo <= m.1.1)%Z ∧ (m.1.1 + m.2 <= ahi)%Z ∧ (0 <= m.2)%Z.

(** The turns the [while queue] loop needs for its queue at most. *)
Definition queue_weight (queue : list (Z * Z * Z * Z)) : nat :=
  sum_list_with (fun q : Z * Z * Z * Z => (2 * Z.to_nat (q.1.1.2 - q.1.1.1) + 1)%nat)
    queue.

(** The sizes the decorators allow their tables. *)
Definition tables_bounded (s : state) : Prop :=
  (length (near_table s) ≤ 256)%nat
  ∧ (length (bbox_table s) ≤ 64)%nat
  ∧ (length (weather_table s) ≤ 256)%nat.

(** A world where the trail service answers 503 and the forecast
    service does not answer in time. *)
Definition failing_upstream : Upstream :=
  {| float_str := @float_str sample_upstream;
     parse_float := @parse_float sample_upstream;
     nominatim := @nominatim sample_upstream;
     overpass := fun _ _ => inr (mk_response 503 "Service Unavailable" None);
     open_meteo := fun _ _ => inl Timeout |}.

(** The state [s] after the events [evs], with the tables as they are. *)
Definition logged (s : state) (evs : list event) : state :=
  mk_state (log s ++ evs) (near_table s) (bbox_table s) (weather_table s).

(** [400 <= status < 600], the statuses [raise_for_status] raises for. *)
Definition error_status (status : Z) : Prop := (400 <= status < 600)%Z.

(** Every character of [s] is white space. *)
Fixpoint all_space (s : string) : bool :=
  match s with
  | EmptyString => true
  | String c s' => Py.is_space c && all_space s'
  end.

(** The first of the sample trails, as [_normalize] builds it. *)
Definition trail_grotto_found : trail :=
  Eval vm_compute in default ghost_trail (head sample_trails).

(** * Properties *)

(** ** [_normalize] *)

Lemma normalize_loop_from (elements : list element) (acc : list trail) :
  fold_left (fun out el =>
               match normalize_element el with
               | Some t => out ++ [t]
               | None => out
               end) elements acc
  = acc ++ omap normalize_element elements.
Proof.
  revert acc. induction elements as [|el els IH]; intros acc; simpl.
  - by rewrite app_nil_r.
  - rewrite IH. destruct (normalize_element el); [|done].
    by rewrite <- app_assoc.
Qed.

Lemma normalize_loop_omap (elements : list element) :
  normalize_loop elements = omap normalize_element elements.
Proof. unfold normalize_loop. by rewrite normalize_loop_from. Qed.

Lemma dedup_fold (out : list trail) seen deduped :
  (fold_left dedup_step out (seen, deduped)).2 = deduped ++ unseen seen out.
Proof.
  revert seen deduped. induction out as [|item rest IH]; intros seen deduped; simpl.
  - by rewrite app_nil_r.
  - unfold dedup_step at 2. simpl. destruct (decide (trail_key item ∈ seen)).
    + apply IH.
    + rewrite IH. by rewrite <- app_assoc.
Qed.

Lemma dedup_loop_unseen (out : list trail) : dedup_loop out = unseen ∅ out.
Proof. unfold dedup_loop. by rewrite dedup_fold. Qed.

Lemma unseen_sublist seen out : unseen seen out `sublist_of` out.
Proof.
  revert seen. induction out as [|item rest IH]; intros seen; simpl; [done|].
  destruct (decide _); [by apply sublist_cons | by apply sublist_skip].
Qed.

Lemma unseen_fresh seen out t : t ∈ unseen seen out → trail_key t ∉ seen.
Proof.
  revert seen. induction out as [|item rest IH]; intros seen; simpl.
  - by intros ?%elem_of_nil.
  - destruct (decide _) as [Hin|Hout]; [apply IH|].
    intros [->|Ht]%elem_of_cons; [done|].
    apply IH in Ht. intros ?. apply Ht. by apply elem_of_union_r.
Qed.

Lemma unseen_NoDup seen out : NoDup (trail_key <$> unseen seen out).
Proof.
  revert seen. induction out as [|item rest IH]; intros seen; simpl.
  - constructor.
  - destruct (decide _); [apply IH|].
    rewrite fmap_cons. constructor; [|apply IH].
    intros (t & Hk & Ht)%list_elem_of_fmap.
    apply unseen_fresh in Ht. apply Ht. rewrite <- Hk.
    apply elem_of_union_l. by apply elem_of_singleton.
Qed.




Lemma normalize_length (elements : list element) :
  (length (_normalize elements) ≤ 20)%nat.
Proof. unfold _normalize. rewrite length_take. lia. Qed.

Lemma normalize_NoDup (elements : list element) :
  NoDup (trail_key <$> _normalize elements).
Proof.
  unfold _normalize. rewrite fmap_take, dedup_loop_unseen.
  eapply sublist_NoDup; [apply unseen_NoDup|apply sublist_take].
Qed.

Lemma normalize_from_elements (elements : list element) (t : trail) :
  t ∈ _normalize elements →
  ∃ el, el ∈ elements ∧ normalize_element el = Some t.
Proof.
  unfold _normalize. intros Ht%subseteq_take.
  rewrite dedup_loop_unseen in Ht.
  eapply elem_of_sublist in Ht; [|apply unseen_sublist].
  rewrite normalize_loop_omap in Ht.
  apply list_elem_of_omap in Ht. done.
Qed.

(** ** The monad and the memoisation decorator *)

Lemma bind_inv {A B} (m : M A) (k : A -> M B) (s s' : state) (r : result B) :
  (m ≫= k) s = (r, s') →
  (∃ a s1, m s = (Ok a, s1) ∧ k a s1 = (r, s'))
  ∨ (∃ e, m s = (Raise e, s') ∧ r = Raise e).
Proof.
  unfold mbind, M_bind. destruct (m s) as [[a|e] s1]; intros Heq.
  - left. by exists a, s1.
  - right. exists e. by simplify_eq.
Qed.

Lemma lru_cache_inv {K V} maxsize (eqb : K -> K -> bool) get set (f : K -> M V)
    (k : K) (s s' : state) (r : result V) :
  lru_cache maxsize eqb get set f k s = (r, s') →
  (∃ k' v, table_find eqb k (get s) = Some (k', v) ∧ r = Ok v
           ∧ s' = set ((k', v) :: table_remove eqb k (get s)) s)
  ∨ (table_find eqb k (get s) = None
     ∧ ((∃ v s1, f k s = (Ok v, s1) ∧ r = Ok v
                 ∧ s' = set (take maxsize ((k, v) :: get s1)) s1)
        ∨ (∃ e, f k s = (Raise e, s') ∧ r = Raise e))).
Proof.
  unfold lru_cache. destruct (table_find eqb k (get s)) as [[k' v]|].
  - intros [= <- <-]. left. by exists k', v.
  - destruct (f k s) as [[v|e] s1]; intros [= <- <-]; right; (split; [done|]).
    + left. by exists v, s1.
    + right. by exists e.
Qed.

Lemma table_find_elem {K V} (eqb : K -> K -> bool) (k k' : K) (v : V) t :
  table_find eqb k t = Some (k', v) → (k', v) ∈ t ∧ eqb k' k = true.
Proof.
  induction t as [|[k0 v0] t IH]; simpl; [done|].
  destruct (eqb k0 k) eqn:He.
  - intros [= -> ->]. split; [left|done].
  - intros [Hin Hk]%IH. split; [by right|done].
Qed.

Lemma table_remove_subseteq {K V} (eqb : K -> K -> bool) (k : K) (t : list (K * V)) :
  table_remove eqb k t ⊆ t.
Proof.
  induction t as [|[k0 v0] t IH]; simpl; [done|].
  destruct (eqb k0 k).
  - intros x Hx. by right.
  - intros x [->|Hx]%elem_of_cons; [left|right; by apply IH].
Qed.

(** ** The functions under the decorators *)

Section ToolProperties.
Context `{Upstream}.

#[local] Ltac run_tool :=
  unfold mbind, M_bind, exchange, print, emit, raise_for_status, json_of,
    float_of_str, raise, mret, M_ret;
  intros; repeat (case_match; simplify_eq/=); simplify_eq/=.

#[local] Ltac solve_sent :=
  unfold same_tables, sent_between; simpl;
  repeat split; try done;
  try (eexists; split; [rewrite <- ?app_assoc; reflexivity|done]).

Lemma overpass_fetch_inv ql timeout label s r s' :
  overpass_fetch ql timeout label s = (r, s') →
  same_tables s s'
  ∧ sent_between s s' [overpass_request ql timeout]
  ∧ match r with
    | Ok l => ∃ elements, l = _normalize elements
    | Raise e => upstream_failure e
    end.
Proof.
  unfold overpass_fetch, upstream_failure. run_tool; solve_sent; eauto.
Qed.

Lemma get_weather_body_inv lat lon hours s r s' :
  get_weather_body (lat, lon, hours) s = (r, s') →
  same_tables s s'
  ∧ sent_between s s' [weather_request lat lon (_clamp_hours hours)]
  ∧ match r with
    | Ok v => ∃ data, v = _slim_weather data (_clamp_hours hours)
    | Raise e => upstream_failure e
    end.
Proof.
  unfold get_weather_body, upstream_failure. run_tool; solve_sent; eauto.
Qed.

(** ** The decorated functions keep the tables well formed *)

Lemma tables_ok_same (s s' : state) : tables_ok s → same_tables s s' → tables_ok s'.
Proof.
  intros (Hn & Hb & Hw) (En & Eb & Ew). unfold tables_ok.
  by rewrite En, Eb, Ew.
Qed.

Lemma tables_ok_initial : tables_ok initial_state.
Proof.
  split; [|split]; simpl.
  - by intros k v ?%elem_of_nil.
  - by intros a b c d h n v ?%elem_of_nil.
  - by intros lat lon hours v ?%elem_of_nil.
Qed.

Lemma sent_between_nil (s s' : state) : log s' = log s → sent_between s s' [].
Proof. intros E. exists []. by rewrite E, app_nil_r. Qed.

Lemma sent_between_trans (s1 s2 s3 : state) rqs1 rqs2 :
  sent_between s1 s2 rqs1 → sent_between s2 s3 rqs2 →
  sent_between s1 s3 (rqs1 ++ rqs2).
Proof.
  intros (e1 & E1 & ->) (e2 & E2 & ->). exists (e1 ++ e2). split.
  - by rewrite E2, E1, app_assoc.
  - by rewrite omap_app.
Qed.

Lemma near_key_eqb_parts lat1 lon1 r1 h1 n1 lat2 lon2 r2 h2 n2 :
  near_key_eqb (lat1, lon1, r1, h1, n1) (lat2, lon2, r2, h2, n2) = true →
  (lat1 == lat2)%Q ∧ (lon1 == lon2)%Q ∧ (r1 == r2)%Q ∧ h1 = h2 ∧ n1 = n2.
Proof.
  unfold near_key_eqb. rewrite !andb_true_iff, !Qeq_bool_iff, !eqb_true_iff.
  tauto.
Qed.

Lemma bbox_key_eqb_parts a1 b1 c1 d1 h1 n1 a2 b2 c2 d2 h2 n2 :
  bbox_key_eqb (a1, b1, c1, d1, h1, n1) (a2, b2, c2, d2, h2, n2) = true →
  (a1 == a2)%Q ∧ (b1 == b2)%Q ∧ (c1 == c2)%Q ∧ (d1 == d2)%Q ∧ h1 = h2 ∧ n1 = n2.
Proof.
  unfold bbox_key_eqb. rewrite !andb_true_iff, !Qeq_bool_iff, !eqb_true_iff.
  tauto.
Qed.

Lemma weather_key_eqb_parts lat1 lon1 h1 lat2 lon2 h2 :
  weather_key_eqb (lat1, lon1, h1) (lat2, lon2, h2) = true →
  (lat1 == lat2)%Q ∧ (lon1 == lon2)%Q ∧ h1 = h2.
Proof.
  unfold weather_key_eqb. rewrite !andb_true_iff, !Qeq_bool_iff, Z.eqb_eq.
  tauto.
Qed.

Lemma py_gt_proper (x x' y y' : Q) :
  (x == x')%Q → (y == y')%Q → Py.gt x y = Py.gt x' y'.
Proof.
  intros Ex Ey. unfold Py.gt, Py.lt. f_equal.
  apply eq_true_iff_eq. rewrite !Qle_bool_iff. by rewrite Ex, Ey.
Qed.

Lemma bbox_inverted_proper a b c d a' b' c' d' :
  (a == a')%Q → (b == b')%Q → (c == c')%Q → (d == d')%Q →
  bbox_inverted a b c d = bbox_inverted a' b' c' d'.
Proof.
  intros Ea Eb Ec Ed. unfold bbox_inverted.
  by rewrite (py_gt_proper a a' c c'), (py_gt_proper b b' d d').
Qed.

Lemma tables_ok_set_near (s : state) t :
  tables_ok s →
  (∀ k v, (k, v) ∈ t → ∃ elements, v = _normalize elements) →
  tables_ok (set_near_table t s).
Proof. intros (Hn & Hb & Hw) Ht. by split. Qed.

Lemma tables_ok_set_bbox (s : state) t :
  tables_ok s →
  (∀ a b c d h n v, ((a, b, c, d, h, n), v) ∈ t →
     bbox_inverted a b c d = false ∧ ∃ elements, v = _normalize elements) →
  tables_ok (set_bbox_table t s).
Proof. intros (Hn & Hb & Hw) Ht. by split. Qed.

Lemma tables_ok_set_weather (s : state) t :
  tables_ok s →
  (∀ lat lon hours v, ((lat, lon, hours), v) ∈ t →
     ∃ data, v = _slim_weather data (_clamp_hours hours)) →
  tables_ok (set_weather_table t s).
Proof. intros (Hn & Hb & Hw) Ht. by split. Qed.

Lemma get_trails_near_inv lat lon radius_km hard_only natural_only s r s' :
  tables_ok s →
  get_trails_near lat lon radius_km hard_only natural_only s = (r, s') →
  tables_ok s'
  ∧ (sent_between s s' []
     ∨ sent_between s s'
         [overpass_request
            (_overpass_query_near lat lon
               (Py.int (_clamp_radius_km radius_km * 1000)) hard_only natural_only)
            30])
  ∧ match r with
    | Ok l => ∃ elements, l = _normalize elements
    | Raise e => upstream_failure e
    end.
Proof.
  intros Hok Hrun. pose proof Hok as (Hn & Hb & Hw).
  apply lru_cache_inv in Hrun
    as [(k' & v & Hfind & -> & ->)|[Hmiss [(v & s1 & Hbody & -> & ->)|(e & Hbody & ->)]]].
  - apply table_find_elem in Hfind as [Hin _]. split; [|split].
    + apply tables_ok_set_near; [done|].
      intros k0 v0 [[= -> ->]|Hin0%table_remove_subseteq]%elem_of_cons; eauto.
    + left. by apply sent_between_nil.
    + eauto.
  - apply overpass_fetch_inv in Hbody as (Hsame & Hsent & Hv).
    pose proof (tables_ok_same _ _ Hok Hsame) as Hok1.
    pose proof Hok1 as (Hn1 & Hb1 & Hw1).
    split; [|split].
    + apply tables_ok_set_near; [done|].
      intros k0 v0 Hin%subseteq_take.
      apply elem_of_cons in Hin as [[= -> ->]|Hin]; eauto.
    + right. destruct Hsent as (evs & E & Hrq). by exists evs.
    + done.
  - apply overpass_fetch_inv in Hbody as (Hsame & Hsent & He).
    split; [by eapply tables_ok_same|]. split; [by right|done].
Qed.

Lemma get_trails_in_bbox_inv min_lat min_lon max_lat max_lon hard_only natural_only
    s r s' :
  tables_ok s →
  get_trails_in_bbox min_lat min_lon max_lat max_lon hard_only natural_only s = (r, s') →
  tables_ok s'
  ∧ (if bbox_inverted min_lat min_lon max_lat max_lon
     then r = Raise (ValueError "Invalid bbox.") ∧ s' = s
     else (sent_between s s' []
           ∨ sent_between s s'
               [overpass_request
                  (_overpass_query_bbox min_lat min_lon max_lat max_lon
                     hard_only natural_only) 60])
          ∧ match r with
            | Ok l => ∃ elements, l = _normalize elements
            | Raise e => upstream_failure e
            end).
Proof.
  intros Hok Hrun. pose proof Hok as (Hn & Hb & Hw).
  apply lru_cache_inv in Hrun
    as [(k' & v & Hfind & -> & ->)|[Hmiss [(v & s1 & Hbody & -> & ->)|(e & Hbody & ->)]]].
  - apply table_find_elem in Hfind as [Hin Hk].
    destruct k' as [[[[[a b] c] d] h] n].
    apply bbox_key_eqb_parts in Hk as (Ea & Eb & Ec & Ed & -> & ->).
    destruct (Hb _ _ _ _ _ _ _ Hin) as [Hvalid Hv].
    rewrite <- (bbox_inverted_proper _ _ _ _ _ _ _ _ Ea Eb Ec Ed), Hvalid.
    split; [|split].
    + apply tables_ok_set_bbox; [done|].
      intros a0 b0 c0 d0 h0 n0 v0 [Heq|Hin0%table_remove_subseteq]%elem_of_cons;
        [simplify_eq; by split|by eapply Hb].
    + left. by apply sent_between_nil.
    + done.
  - unfold get_trails_in_bbox_body in Hbody.
    fold (bbox_inverted min_lat min_lon max_lat max_lon) in Hbody.
    destruct (bbox_inverted min_lat min_lon max_lat max_lon) eqn:Hinv; [done|].
    apply overpass_fetch_inv in Hbody as (Hsame & Hsent & Hv).
    pose proof (tables_ok_same _ _ Hok Hsame) as Hok1.
    pose proof Hok1 as (Hn1 & Hb1 & Hw1).
    split; [|split].
    + apply tables_ok_set_bbox; [done|].
      intros a0 b0 c0 d0 h0 n0 v0 Hin%subseteq_take.
      apply elem_of_cons in Hin as [Heq|Hin]; [simplify_eq; by split|by eapply Hb1].
    + right. destruct Hsent as (evs & E & Hrq). by exists evs.
    + done.
  - unfold get_trails_in_bbox_body in Hbody.
    fold (bbox_inverted min_lat min_lon max_lat max_lon) in Hbody.
    destruct (bbox_inverted min_lat min_lon max_lat max_lon) eqn:Hinv.
    + unfold raise in Hbody. by simplify_eq.
    + apply overpass_fetch_inv in Hbody as (Hsame & Hsent & He).
      split; [by eapply tables_ok_same|]. split; [by right|done].
Qed.

Lemma get_weather_inv lat lon hours s r s' :
  tables_ok s →
  get_weather lat lon hours s = (r, s') →
  tables_ok s'
  ∧ (sent_between s s' []
     ∨ sent_between s s' [weather_request lat lon (_clamp_hours hours)])
  ∧ match r with
    | Ok v => ∃ data, v = _slim_weather data (_clamp_hours hours)
    | Raise e => upstream_failure e
    end.
Proof.
  intros Hok Hrun. pose proof Hok as (Hn & Hb & Hw).
  apply lru_cache_inv in Hrun
    as [(k' & v & Hfind & -> & ->)|[Hmiss [(v & s1 & Hbody & -> & ->)|(e & Hbody & ->)]]].
  - apply table_find_elem in Hfind as [Hin Hk].
    destruct k' as [[lat' lon'] hours'].
    apply weather_key_eqb_parts in Hk as (_ & _ & ->).
    split; [|split].
    + apply tables_ok_set_weather; [done|].
      intros lat0 lon0 h0 v0 [Heq|Hin0%table_remove_subseteq]%elem_of_cons;
        [simplify_eq|]; by eapply Hw.
    + left. by apply sent_between_nil.
    + by eapply Hw.
  - apply get_weather_body_inv in Hbody as (Hsame & Hsent & Hv).
    pose proof (tables_ok_same _ _ Hok Hsame) as Hok1.
    pose proof Hok1 as (Hn1 & Hb1 & Hw1).
    split; [|split].
    + apply tables_ok_set_weather; [done|].
      intros lat0 lon0 h0 v0 Hin%subseteq_take.
      apply elem_of_cons in Hin as [Heq|Hin]; [simplify_eq; done|by eapply Hw1].
    + right. destruct Hsent as (evs & E & Hrq). by exists evs.
    + done.
  - apply get_weather_body_inv in Hbody as (Hsame & Hsent & He).
    split; [by eapply tables_ok_same|]. split; [by right|done].
Qed.

End ToolProperties.

(** ** Trail lists *)

Lemma display_name_nonempty tags etype eid : display_name tags etype eid ≠ "".
Proof.
  assert (Hsyn : synthesized_name etype eid ≠ "").
  { unfold synthesized_name. by destruct (decide _). }
  unfold display_name. destruct (Py.or_ _ _) as [s|]; [|done].
  destruct (String.eqb s "") eqn:E; [done|]. by apply String.eqb_neq.
Qed.


Lemma normalize_element_name el t :
  normalize_element el = Some t →
  tr_name t = Some (display_name (default ∅ (e_tags el)) (e_type el) (e_id el))
  ∧ tr_osm_type t = e_type el ∧ tr_id t = e_id el
  ∧ has_coords t = true.
Proof.
  unfold normalize_element. intros Hel.
  repeat case_match; by simplify_eq/=.
Qed.



Lemma normalize_named_with_coords (elements : list element) (t : trail) :
  t ∈ _normalize elements →
  has_coords t = true
  ∧ ∃ el, el ∈ elements
          ∧ tr_name t = Some (display_name (default ∅ (e_tags el)) (e_type el) (e_id el)).
Proof.
  intros (el & Hel & Hn)%normalize_from_elements.
  apply normalize_element_name in Hn as (Hname & _ & _ & Hc).
  split; [done|]. by exists el.
Qed.



(** ** [_pick_by_name] *)

Lemma find_elem {A} (f : A -> bool) (l : list A) (x : A) :
  List.find f l = Some x → x ∈ l ∧ f x = true.
Proof. intros [Hin Hf]%find_some. by rewrite list_elem_of_In. Qed.

Lemma filter_elem {A} (f : A -> bool) (l : list A) (x : A) :
  x ∈ List.filter f l ↔ x ∈ l ∧ f x = true.
Proof. by rewrite !list_elem_of_In, filter_In. Qed.

Lemma pick_by_name_elem (trails : list trail) (trail_name : string) (t : trail) :
  _pick_by_name trails trail_name = Some t → t ∈ trails.
Proof.
  unfold _pick_by_name. destruct trails as [|t0 rest]; [done|].
  set (trails := t0 :: rest).
  destruct (List.find _ (List.filter is_named trails)) as [t1|] eqn:Hexact.
  { intros [= <-]. apply find_elem in Hexact as [Hin _].
    by apply filter_elem in Hin as [Hin _]. }
  match goal with
  | |- context [match ?f with Some _ => _ | None => head _ end] =>
      destruct f as [t2|] eqn:Hfuzzy
  end.
  { intros [= <-]. destruct (difflib.get_close_matches _ _ _); [done|].
    apply find_elem in Hfuzzy as [Hin _].
    by apply filter_elem in Hin as [Hin _]. }
  intros Hhead%head_Some_elem_of. by apply filter_elem in Hhead as [Hin _].
Qed.

Lemma filter_all {A} (f : A -> bool) (l : list A) :
  (∀ x, x ∈ l → f x = true) → List.filter f l = l.
Proof.
  induction l as [|x l IH]; intros Hall; simpl; [done|].
  rewrite (Hall x) by left. f_equal. apply IH. intros y Hy. apply Hall. by right.
Qed.

Lemma filter_none {A} (f : A -> bool) (l : list A) :
  (∀ x, x ∈ l → f x = false) → List.filter f l = [].
Proof.
  induction l as [|x l IH]; intros Hall; simpl; [done|].
  rewrite (Hall x) by left. apply IH. intros y Hy. apply Hall. by right.
Qed.

Lemma pick_by_name_total_with_coords (trails : list trail) (trail_name : string) :
  trails ≠ [] → (∀ t, t ∈ trails → has_coords t = true) →
  ∃ t, _pick_by_name trails trail_name = Some t.
Proof.
  intros Hne Hall. unfold _pick_by_name.
  destruct trails as [|t0 rest]; [done|].
  set (trails := t0 :: rest) in *.
  destruct (List.find _ (List.filter is_named trails)) as [t1|]; [by eexists|].
  match goal with
  | |- context [match ?f with Some _ => _ | None => head _ end] =>
      destruct f as [t2|]
  end; [by eexists|].
  rewrite (filter_all _ _ Hall). by exists t0.
Qed.

(** ** The composed tools *)

Section Composition.
Context `{Upstream}.

#[local] Ltac run_tool :=
  unfold mbind, M_bind, exchange, print, emit, raise_for_status, json_of,
    float_of_str, raise, mret, M_ret;
  intros; repeat (case_match; simplify_eq/=); simplify_eq/=.

#[local] Ltac solve_sent :=
  unfold same_tables, sent_between; simpl;
  repeat split; try done;
  try (eexists; split; [rewrite <- ?app_assoc; reflexivity|done]).

Lemma geocode_place_inv place s r s' :
  geocode_place place s = (r, s') →
  same_tables s s' ∧ sent_between s s' [geocode_request place].
Proof. unfold geocode_place. run_tool; solve_sent. Qed.

Lemma alberta_bbox_valid : bbox_inverted 49 (-120) 60 (-110) = false.
Proof. reflexivity. Qed.

Lemma candidates_for_inv lat lon radius_km s r s' :
  tables_ok s →
  candidates_for lat lon radius_km s = (r, s') →
  tables_ok s'
  ∧ (sent_between s s' []
     ∨ sent_between s s'
         [match lat, lon with
          | Some lat, Some lon =>
              overpass_request
                (_overpass_query_near lat lon
                   (Py.int (_clamp_radius_km radius_km * 1000)) false true) 30
          | _, _ =>
              overpass_request
                (_overpass_query_bbox 49 (-120) 60 (-110) false true) 60
          end])
  ∧ match r with
    | Ok l => ∃ elements, l = _normalize elements
    | Raise e => upstream_failure e
    end.
Proof.
  intros Hok Hrun. unfold candidates_for in Hrun.
  destruct lat as [lat|], lon as [lon|]; simpl in Hrun;
    try (apply get_trails_in_bbox_inv in Hrun as (Hok' & Hcase); [|done];
         rewrite alberta_bbox_valid in Hcase; by destruct Hcase).
  apply get_trails_near_inv in Hrun as (Hok' & Hsent & Hr); done.
Qed.

Lemma weather_for_candidates_inv candidates trail_name hours s r s' :
  tables_ok s →
  weather_for_candidates candidates trail_name hours s = (r, s') →
  tables_ok s'
  ∧ match r with
    | Ok tw =>
        _pick_by_name candidates trail_name = Some (tw_trail tw)
        ∧ ∃ tlat tlon, tr_lat (tw_trail tw) = Some tlat
                       ∧ tr_lon (tw_trail tw) = Some tlon
                       ∧ get_weather tlat tlon hours s = (Ok (tw_forecast tw), s')
    | Raise e =>
        (candidates = [] ∧ e = ValueError "No trails found in the search area."
         ∧ s' = s)
        ∨ (candidates ≠ [] ∧ _pick_by_name candidates trail_name = None
           ∧ e = ValueError ("Trail '" +:+ trail_name
                             +:+ "' not found in Alberta (or lacks coordinates).")
           ∧ s' = s)
        ∨ (∃ chosen, _pick_by_name candidates trail_name = Some chosen
                     ∧ has_coords chosen = false
                     ∧ e = ValueError ("Trail '" +:+ default "Unnamed" (tr_name chosen)
                                       +:+ "' has no coordinates in OSM center data.")
                     ∧ s' = s)
        ∨ (∃ chosen tlat tlon,
              _pick_by_name candidates trail_name = Some chosen
              ∧ tr_lat chosen = Some tlat ∧ tr_lon chosen = Some tlon
              ∧ get_weather tlat tlon hours s = (Raise e, s')
              ∧ upstream_failure e)
    end.
Proof.
  intros Hok. unfold weather_for_candidates.
  destruct candidates as [|c0 rest].
  { intros [= <- <-]. split; [done|]. by left. }
  set (candidates := c0 :: rest).
  destruct (_pick_by_name candidates trail_name) as [chosen|] eqn:Hpick.
  2:{ intros [= <- <-]. split; [done|]. right. by left. }
  destruct (tr_lat chosen) as [tlat|] eqn:Hlat.
  2:{ intros [= <- <-]. split; [done|]. right. right. left.
      exists chosen. unfold has_coords. by rewrite Hlat. }
  destruct (tr_lon chosen) as [tlon|] eqn:Hlon.
  2:{ intros [= <- <-]. split; [done|]. right. right. left.
      exists chosen. unfold has_coords. by rewrite Hlat, Hlon. }
  intros [(fc & s1 & Hw & Hret)|(e & Hw & ->)]%bind_inv.
  - unfold mret, M_ret in Hret. simplify_eq.
    pose proof (get_weather_inv _ _ _ _ _ _ Hok Hw) as (Hok' & _ & _).
    split; [done|]. simpl. split; [done|]. by exists tlat, tlon.
  - pose proof (get_weather_inv _ _ _ _ _ _ Hok Hw) as (Hok' & _ & He).
    split; [done|]. do 3 right. by exists chosen, tlat, tlon.
Qed.

Lemma weather_for_candidates_sent candidates trail_name hours s r s' :
  tables_ok s →
  weather_for_candidates candidates trail_name hours s = (r, s') →
  ∃ rqs, sent_between s s' rqs ∧ ∀ rq, rq ∈ rqs → rq_url rq = OPEN_METEO_URL.
Proof.
  intros Hok Hrun.
  pose proof (weather_for_candidates_inv _ _ _ _ _ _ Hok Hrun) as [_ Hr].
  assert (Hw : ∀ tlat tlon rw, get_weather tlat tlon hours s = (rw, s') →
            ∃ rqs, sent_between s s' rqs ∧ ∀ rq, rq ∈ rqs → rq_url rq = OPEN_METEO_URL).
  { intros tlat tlon rw (_ & [Hs|Hs] & _)%get_weather_inv; [| |done];
      eexists; (split; [exact Hs|]).
    - by intros rq ?%elem_of_nil.
    - by intros rq ->%list_elem_of_singleton. }
  assert (Hnone : s' = s →
            ∃ rqs, sent_between s s' rqs ∧ ∀ rq, rq ∈ rqs → rq_url rq = OPEN_METEO_URL).
  { intros ->. exists []. split; [by apply sent_between_nil|].
    by intros rq ?%elem_of_nil. }
  destruct r as [tw|e].
  - destruct Hr as (_ & tlat & tlon & _ & _ & Hrun'). by eapply Hw.
  - destruct Hr as [(_ & _ & ->)|[(_ & _ & _ & ->)|[(c & _ & _ & _ & ->)|
      (c & tlat & tlon & _ & _ & _ & Hrun' & _)]]]; eauto.
Qed.

End Composition.

(** C9.  On a non-empty list built by [_normalize], [_pick_by_name] always
    returns a trail of the list, and that trail has coordinates: elements
    without centre coordinates never reach the list.  So the only
    [ValueError] that [weather_for_trail] can raise is the one for an
    empty candidate list. *)
Theorem finder_output_always_resolves `{Upstream} :
  (∀ elements trail_name,
     _normalize elements ≠ [] →
     ∃ t, _pick_by_name (_normalize elements) trail_name = Some t
          ∧ t ∈ _normalize elements ∧ has_coords t = true)
  ∧ (∀ trail_name hours lat lon radius_km s msg s',
       tables_ok s →
       weather_for_trail trail_name hours lat lon radius_km s
         = (Raise (ValueError msg), s') →
       msg = "No trails found in the search area.").
Proof.
  assert (Hpure : ∀ elements trail_name,
     _normalize elements ≠ [] →
     ∃ t, _pick_by_name (_normalize elements) trail_name = Some t
          ∧ t ∈ _normalize elements ∧ has_coords t = true).
  { intros elements trail_name Hne.
    destruct (pick_by_name_total_with_coords (_normalize elements) trail_name Hne)
      as [t Ht].
    { by intros t [Hc _]%normalize_named_with_coords. }
    exists t. split; [done|]. apply pick_by_name_elem in Ht as Hin.
    split; [done|]. by apply normalize_named_with_coords in Hin as [Hc _]. }
  split; [done|].
  intros trail_name hours lat lon radius_km s msg s' Hok Hrun.
  apply bind_inv in Hrun as [(l & s1 & Hcand & Hrest)|(e & Hcand & [= <-])].
  - apply candidates_for_inv in Hcand as (Hok1 & _ & elements & ->); [|done].
    apply weather_for_candidates_inv in Hrest as (_ & Hr); [|done].
    destruct Hr as [(_ & [= ->] & _)|[(Hne & Hnone & _)|[(c & Hc & Hno & _)|
      (c & tlat & tlon & _ & _ & _ & _ & Hup)]]].
    + done.
    + destruct (Hpure elements trail_name Hne) as (t & Ht & _). congruence.
    + apply pick_by_name_elem in Hc.
      apply normalize_named_with_coords in Hc as [Hc _]. congruence.
    + by destruct Hup as [[? ?]|[[? ?]|?]].
  - apply candidates_for_inv in Hcand as (_ & _ & Hup); [|done].
    by destruct Hup as [[? ?]|[[? ?]|?]].
Qed.

Lemma finder_output_always_resolves_witness :
  (∃ t, _pick_by_name (_normalize sample_elements) "Grotto" = Some t
        ∧ t ∈ _normalize sample_elements ∧ has_coords t = true)
  ∧ "No trails found in the search area." = "No trails found in the search area.".
Proof.
  split.
  - apply (proj1 (@finder_output_always_resolves sample_upstream)).
    vm_compute. discriminate.
  - apply (proj2 (@finder_output_always_resolves empty_upstream)
             "Grotto" 6%Z None None 15%Q initial_state _
             (@weather_for_trail empty_upstream "Grotto" 6 None None 15 initial_state).2
             tables_ok_initial).
    vm_compute. reflexivity.
Defined.

(** C4.  When the candidate list is empty, or no candidate has
    coordinates, matching fails: [_pick_by_name] returns [None] on the
    empty list and never a trail with coordinates, and
    [weather_for_trail], once it holds such candidates, raises a
    [ValueError] without requesting a forecast. *)
Theorem matcher_fails_without_usable_candidate `{Upstream}
    (candidates : list trail) (trail_name : string) (hours : Z) (s : state) :
  candidates = [] ∨ (∀ t, t ∈ candidates → has_coords t = false) →
  (candidates = [] → _pick_by_name candidates trail_name = None)
  ∧ (∀ t, _pick_by_name candidates trail_name = Some t → has_coords t = false)
  ∧ ∃ msg, weather_for_candidates candidates trail_name hours s
           = (Raise (ValueError msg), s).
Proof.
  intros Hcase.
  assert (Hnocoord : ∀ t, _pick_by_name candidates trail_name = Some t →
            has_coords t = false).
  { intros t Ht. destruct Hcase as [->|Hall]; [done|].
    apply Hall. by eapply pick_by_name_elem. }
  split; [by intros ->|]. split; [done|].
  unfold weather_for_candidates. destruct candidates as [|c0 rest]; [by eexists|].
  set (candidates := c0 :: rest) in *.
  destruct (_pick_by_name candidates trail_name) as [chosen|]; [|by eexists].
  specialize (Hnocoord chosen eq_refl). unfold has_coords in Hnocoord.
  destruct (tr_lat chosen), (tr_lon chosen); try done; by eexists.
Qed.

Lemma matcher_fails_without_usable_candidate_witness :
  (_pick_by_name [] "anything" = None)
  ∧ (∃ msg, @weather_for_candidates sample_upstream [] "anything" 24 initial_state
            = (Raise (ValueError msg), initial_state))
  ∧ (∃ msg, @weather_for_candidates sample_upstream [ghost_trail] "ghost lake" 24
              initial_state
            = (Raise (ValueError msg), initial_state)).
Proof.
  split; [|split].
  - apply (@matcher_fails_without_usable_candidate sample_upstream
             [] "anything" 24%Z initial_state); [by left|reflexivity].
  - apply (@matcher_fails_without_usable_candidate sample_upstream
             [] "anything" 24%Z initial_state). by left.
  - apply (@matcher_fails_without_usable_candidate sample_upstream
             [ghost_trail] "ghost lake" 24%Z initial_state).
    right. intros t ->%list_elem_of_singleton. reflexivity.
Defined.

(** C5.  [get_trails_in_bbox] raises [ValueError("Invalid bbox.")] exactly
    when [min_lat > max_lat] or [min_lon > max_lon], and it does so with
    the state untouched: nothing was sent, printed or memoised. *)
Theorem inverted_bbox_rejected_locally `{Upstream}
    (min_lat min_lon max_lat max_lon : Q) (hard_only natural_only : bool)
    (s s' : state) (r : result (list trail)) :
  tables_ok s →
  get_trails_in_bbox min_lat min_lon max_lat max_lon hard_only natural_only s
    = (r, s') →
  (r = Raise (ValueError "Invalid bbox.")
   ↔ (max_lat < min_lat)%Q ∨ (max_lon < min_lon)%Q)
  ∧ ((max_lat < min_lat)%Q ∨ (max_lon < min_lon)%Q → s' = s).
Proof.
  intros Hok Hrun.
  apply get_trails_in_bbox_inv in Hrun as (_ & Hcase); [|done].
  assert (Hinv : bbox_inverted min_lat min_lon max_lat max_lon = true
                 ↔ (max_lat < min_lat)%Q ∨ (max_lon < min_lon)%Q).
  { unfold bbox_inverted, Py.gt, Py.lt.
    rewrite orb_true_iff, !negb_true_iff, <- !not_true_iff_false, !Qle_bool_iff.
    split; (intros [?|?]; [left|right]); by (apply Qnot_le_lt || apply Qlt_not_le). }
  destruct (bbox_inverted min_lat min_lon max_lat max_lon).
  - destruct Hcase as [-> ->]. split; [|done]. split; [intros _|done]. by apply Hinv.
  - destruct Hcase as (_ & Hr). split.
    + split.
      * intros ->. by destruct Hr as [[? ?]|[[? ?]|?]].
      * intros Hlt%Hinv. done.
    + intros Hlt%Hinv. done.
Qed.

Lemma inverted_bbox_rejected_locally_witness :
  let run := @get_trails_in_bbox sample_upstream 55 (-120) 50 (-110) false true
               initial_state in
  run.1 = Raise (ValueError "Invalid bbox.") ∧ run.2 = initial_state.
Proof.
  intros run.
  destruct (@inverted_bbox_rejected_locally sample_upstream
              55%Q (-120)%Q 50%Q (-110)%Q false true initial_state run.2 run.1
              tables_ok_initial (surjective_pairing run)) as [Hiff Hstate].
  split.
  - apply Hiff. left. reflexivity.
  - apply Hstate. left. reflexivity.
Defined.

Lemma sent_between_unique (s s' : state) rqs1 rqs2 :
  sent_between s s' rqs1 → sent_between s s' rqs2 → rqs1 = rqs2.
Proof.
  intros (e1 & E1 & ->) (e2 & E2 & ->). rewrite E1 in E2.
  by apply app_inv_head in E2 as ->.
Qed.

Lemma get_trails_near_miss_sent `{Upstream} lat lon radius_km hard_only natural_only
    s r s' :
  table_find near_key_eqb (lat, lon, radius_km, hard_only, natural_only) (near_table s)
    = None →
  get_trails_near lat lon radius_km hard_only natural_only s = (r, s') →
  sent_between s s'
    [overpass_request
       (_overpass_query_near lat lon
          (Py.int (_clamp_radius_km radius_km * 1000)) hard_only natural_only) 30].
Proof.
  intros Hmiss Hrun.
  apply lru_cache_inv in Hrun
    as [(k' & v & Hfind & _)|[_ [(v & s1 & Hbody & -> & ->)|(e & Hbody & ->)]]].
  - congruence.
  - apply overpass_fetch_inv in Hbody as (_ & (evs & E & Hrq) & _). by exists evs.
  - by apply overpass_fetch_inv in Hbody as (_ & Hsent & _).
Qed.

Lemma get_trails_in_bbox_miss_sent `{Upstream} min_lat min_lon max_lat max_lon
    hard_only natural_only s r s' :
  bbox_inverted min_lat min_lon max_lat max_lon = false →
  table_find bbox_key_eqb (min_lat, min_lon, max_lat, max_lon, hard_only, natural_only)
    (bbox_table s) = None →
  get_trails_in_bbox min_lat min_lon max_lat max_lon hard_only natural_only s = (r, s') →
  sent_between s s'
    [overpass_request
       (_overpass_query_bbox min_lat min_lon max_lat max_lon hard_only natural_only) 60].
Proof.
  intros Hvalid Hmiss Hrun.
  apply lru_cache_inv in Hrun
    as [(k' & v & Hfind & _)|[_ [(v & s1 & Hbody & -> & ->)|(e & Hbody & ->)]]].
  - congruence.
  - unfold get_trails_in_bbox_body in Hbody.
    fold (bbox_inverted min_lat min_lon max_lat max_lon) in Hbody.
    rewrite Hvalid in Hbody.
    apply overpass_fetch_inv in Hbody as (_ & (evs & E & Hrq) & _). by exists evs.
  - unfold get_trails_in_bbox_body in Hbody.
    fold (bbox_inverted min_lat min_lon max_lat max_lon) in Hbody.
    rewrite Hvalid in Hbody.
    by apply overpass_fetch_inv in Hbody as (_ & Hsent & _).
Qed.

Lemma weather_for_trail_sent `{Upstream} trail_name hours lat lon radius_km s r s' :
  tables_ok s →
  weather_for_trail trail_name hours lat lon radius_km s = (r, s') →
  let rq := match lat, lon with
            | Some lat, Some lon =>
                overpass_request
                  (_overpass_query_near lat lon
                     (Py.int (_clamp_radius_km radius_km * 1000)) false true) 30
            | _, _ =>
                overpass_request
                  (_overpass_query_bbox 49 (-120) 60 (-110) false true) 60
            end in
  ∃ pre post, sent_between s s' (pre ++ post)
    ∧ (pre = [] ∨ pre = [rq])
    ∧ (match lat, lon with
       | Some lat, Some lon =>
           table_find near_key_eqb (lat, lon, radius_km, false, true) (near_table s) = None
       | _, _ =>
           table_find bbox_key_eqb (49, -120, 60, -110, false, true)%Q (bbox_table s) = None
       end → pre = [rq])
    ∧ ∀ rq', rq' ∈ post → rq_url rq' = OPEN_METEO_URL.
Proof.
  intros Hok Hrun rq.
  assert (Hmiss : ∀ rc s1,
            candidates_for lat lon radius_km s = (rc, s1) →
            match lat, lon with
            | Some lat, Some lon =>
                table_find near_key_eqb (lat, lon, radius_km, false, true) (near_table s) = None
            | _, _ =>
                table_find bbox_key_eqb (49, -120, 60, -110, false, true)%Q (bbox_table s) = None
            end →
            sent_between s s1 [rq]).
  { intros rc s1 Hc Hnone. unfold candidates_for, ALBERTA_BBOX in Hc. subst rq.
    destruct lat as [la|]; [destruct lon as [lo|]|].
    - exact (get_trails_near_miss_sent _ _ _ _ _ _ _ _ Hnone Hc).
    - exact (get_trails_in_bbox_miss_sent _ _ _ _ _ _ _ _ _
               alberta_bbox_valid Hnone Hc).
    - exact (get_trails_in_bbox_miss_sent _ _ _ _ _ _ _ _ _
               alberta_bbox_valid Hnone Hc). }
  assert (Hpre : ∀ rc s1,
            candidates_for lat lon radius_km s = (rc, s1) →
            ∃ pre, sent_between s s1 pre ∧ (pre = [] ∨ pre = [rq])
                   ∧ (match lat, lon with
                      | Some lat, Some lon =>
                          table_find near_key_eqb (lat, lon, radius_km, false, true)
                            (near_table s) = None
                      | _, _ =>
                          table_find bbox_key_eqb (49, -120, 60, -110, false, true)%Q
                            (bbox_table s) = None
                      end → pre = [rq])).
  { intros rc s1 Hc.
    pose proof (candidates_for_inv _ _ _ _ _ _ Hok Hc) as (_ & [Hs|Hs] & _).
    - exists []. split; [done|]. split; [by left|].
      intros Hnone. by eapply sent_between_unique; [|eapply Hmiss].
    - exists [rq]. split; [exact Hs|]. split; [by right|done]. }
  apply bind_inv in Hrun as [(l & s1 & Hcand & Hrest)|(e & Hcand & ->)].
  - destruct (Hpre _ _ Hcand) as (pre & Hs & Hcase & Hfirst).
    apply candidates_for_inv in Hcand as (Hok1 & _ & _); [|done].
    apply weather_for_candidates_sent in Hrest as (post & Hsent2 & Hurl); [|done].
    exists pre, post. split; [by eapply sent_between_trans|]. done.
  - destruct (Hpre _ _ Hcand) as (pre & Hs & Hcase & Hfirst).
    exists pre, []. rewrite app_nil_r. split; [done|]. split; [done|].
    split; [done|]. by intros rq' ?%elem_of_nil.
Qed.

(** C10.  [weather_for_trail] searches near the given point only when
    both [lat] and [lon] are given: its candidates are then those of
    [get_trails_near] at that point with the given radius.  With one of
    them missing its candidates are those of [get_trails_in_bbox] on
    [ALBERTA_BBOX]: the call runs exactly as with none and with any
    radius, so the given coordinate is ignored.  Either way the trail
    returned is one of the list that search returned; every request to
    the trail service is the query of that search, and it is the first
    request of the call whenever the search is not answered from its
    memoisation table. *)
Theorem joiner_searches_near_only_with_both `{Upstream}
    (trail_name : string) (hours : Z) (lat lon : option Q) (radius_km : Q)
    (s : state) :
  (∀ la lo, lat = Some la → lon = Some lo →
     weather_for_trail trail_name hours lat lon radius_km s
     = (candidates ← get_trails_near la lo radius_km false true;
        weather_for_candidates candidates trail_name hours) s)
  ∧ (lat = None ∨ lon = None →
       weather_for_trail trail_name hours lat lon radius_km s
       = (candidates ← get_trails_in_bbox 49 (-120) 60 (-110) false true;
          weather_for_candidates candidates trail_name hours) s
       ∧ ∀ radius_km',
           weather_for_trail trail_name hours lat lon radius_km s
           = weather_for_trail trail_name hours None None radius_km' s)
  ∧ (∀ tw s',
       weather_for_trail trail_name hours lat lon radius_km s = (Ok tw, s') →
       ∃ candidates s1,
         tw_trail tw ∈ candidates
         ∧ _pick_by_name candidates trail_name = Some (tw_trail tw)
         ∧ (lat = None ∨ lon = None →
              get_trails_in_bbox 49 (-120) 60 (-110) false true s
              = (Ok candidates, s1))
         ∧ (∀ la lo, lat = Some la → lon = Some lo →
              get_trails_near la lo radius_km false true s = (Ok candidates, s1)))
  ∧ (∀ r s', tables_ok s →
       weather_for_trail trail_name hours lat lon radius_km s = (r, s') →
       ∃ rqs, sent_between s s' rqs
         ∧ (∀ rq, rq ∈ rqs → rq_url rq = OVERPASS_URL →
             (lat = None ∨ lon = None →
                rq = overpass_request
                       (_overpass_query_bbox 49 (-120) 60 (-110) false true) 60)
             ∧ (∀ la lo, lat = Some la → lon = Some lo →
                  rq = overpass_request
                         (_overpass_query_near la lo
                            (Py.int (_clamp_radius_km radius_km * 1000)) false true)
                         30))
         ∧ (lat = None ∨ lon = None →
              table_find bbox_key_eqb (49, -120, 60, -110, false, true)%Q
                (bbox_table s) = None →
              ∃ rest,
                rqs = overpass_request
                        (_overpass_query_bbox 49 (-120) 60 (-110) false true) 60
                      :: rest)
         ∧ (∀ la lo, lat = Some la → lon = Some lo →
              table_find near_key_eqb (la, lo, radius_km, false, true)
                (near_table s) = None →
              ∃ rest,
                rqs = overpass_request
                        (_overpass_query_near la lo
                           (Py.int (_clamp_radius_km radius_km * 1000)) false true)
                        30
                      :: rest)).
Proof.
  split; [|split; [|split]].
  - by intros la lo -> ->.
  - intros Hmissing.
    assert (Hbbox : weather_for_trail trail_name hours lat lon radius_km s
                    = (candidates ← get_trails_in_bbox 49 (-120) 60 (-110) false true;
                       weather_for_candidates candidates trail_name hours) s).
    { unfold weather_for_trail, candidates_for.
      destruct Hmissing as [-> | ->]; [done|by destruct lat]. }
    split; [done|]. intros radius_km'. by rewrite Hbbox.
  - intros tw s' Hrun.
    apply bind_inv in Hrun as [(l & s1 & Hcand & Hrest)|(e & _ & [=])].
    exists l, s1.
    assert (Hpick : _pick_by_name l trail_name = Some (tw_trail tw)).
    { unfold weather_for_candidates in Hrest. destruct l as [|c0 rest]; [done|].
      destruct (_pick_by_name (c0 :: rest) trail_name) as [chosen|]; [|done].
      destruct (tr_lat chosen), (tr_lon chosen); try done.
      apply bind_inv in Hrest as [(fc & s2 & _ & Hret)|(e & _ & [=])].
      unfold mret, M_ret in Hret. by simplify_eq. }
    split; [by eapply pick_by_name_elem|]. split; [done|].
    unfold candidates_for in Hcand. split.
    + intros [-> | ->]; [done|by destruct lat].
    + by intros la lo -> ->.
  - intros r s' Hok Hrun.
    apply weather_for_trail_sent in Hrun as (pre & post & Hsent & Hpre & Hfirst & Hpost);
      [|done].
    exists (pre ++ post). split; [done|]. split; [|split].
    + intros rq [Hin|Hin]%elem_of_app Hu.
      2:{ apply Hpost in Hin. by rewrite Hin in Hu. }
      destruct Hpre as [-> | ->]; [by apply elem_of_nil in Hin|].
      apply list_elem_of_singleton in Hin as ->. split.
      * intros [-> | ->]; [done|by destruct lat].
      * by intros la lo -> ->.
    + intros Hmissing Hnone. exists post.
      rewrite Hfirst; [|by destruct Hmissing as [-> | ->]; [|destruct lat]].
      by destruct Hmissing as [-> | ->]; [|destruct lat].
    + intros la lo -> -> Hnone. exists post. by rewrite Hfirst.
Qed.

Lemma joiner_searches_near_only_with_both_witness :
  let bbox_rq := @overpass_request
                   (@_overpass_query_bbox sample_upstream 49 (-120) 60 (-110) false true)
                   60 in
  let near_rq := @overpass_request
                   (@_overpass_query_near sample_upstream 51 (-115) 15000 false true)
                   30 in
  let run := @weather_for_trail sample_upstream "Grotto Canyon" 6 (Some 51%Q) None 15
               initial_state in
  let run' := @weather_for_trail sample_upstream "Grotto Canyon" 6
                (Some 51%Q) (Some (-115)%Q) 15 initial_state in
  (run = (candidates ← @get_trails_in_bbox sample_upstream 49 (-120) 60 (-110) false true;
          @weather_for_candidates sample_upstream candidates "Grotto Canyon" 6)
           initial_state
   ∧ run = @weather_for_trail sample_upstream "Grotto Canyon" 6 None None 99
             initial_state)
  ∧ (∃ rqs rest,
       sent_between initial_state run.2 rqs
       ∧ rqs = bbox_rq :: rest
       ∧ Forall (fun rq => rq_url rq = OVERPASS_URL → rq = bbox_rq) rqs)
  ∧ run' = (candidates ← @get_trails_near sample_upstream 51 (-115) 15 false true;
            @weather_for_candidates sample_upstream candidates "Grotto Canyon" 6)
             initial_state
  ∧ ∃ rqs rest, sent_between initial_state run'.2 rqs ∧ rqs = near_rq :: rest.
Proof.
  intros bbox_rq near_rq run run'.
  destruct (@joiner_searches_near_only_with_both sample_upstream
              "Grotto Canyon" 6%Z (Some 51%Q) None 15%Q initial_state)
    as (_ & Hbbox & _ & Hsent).
  destruct (@joiner_searches_near_only_with_both sample_upstream
              "Grotto Canyon" 6%Z (Some 51%Q) (Some (-115)%Q) 15%Q initial_state)
    as (Hnear & _ & _ & Hsent').
  split; [|split; [|split]].
  - destruct (Hbbox (or_intror eq_refl)) as [Hsame Hany].
    split; [exact Hsame|exact (Hany 99%Q)].
  - destruct (Hsent run.1 run.2 tables_ok_initial (surjective_pairing run))
      as (rqs & Hbetween & Hrq & Hfirst & _).
    destruct (Hfirst (or_intror eq_refl) eq_refl) as [rest Hrest].
    exists rqs, rest. split; [exact Hbetween|]. split; [exact Hrest|].
    apply Forall_forall. intros rq Hin Hu.
    exact (proj1 (Hrq rq Hin Hu) (or_intror eq_refl)).
  - exact (Hnear 51%Q (-115)%Q eq_refl eq_refl).
  - destruct (Hsent' run'.1 run'.2 tables_ok_initial (surjective_pairing run'))
      as (rqs & Hbetween & _ & _ & Hfirst).
    destruct (Hfirst 51%Q (-115)%Q eq_refl eq_refl eq_refl) as [rest Hrest].
    exists rqs, rest. split; [exact Hbetween|exact Hrest].
Defined.

(** C6.  [recommend_near_place] runs [geocode_place], then
    [get_trails_near] at the geocoded point, then [get_weather] at the
    same point, each from the state the previous one left.  When all
    three return, the record holds the place string as given with the
    geocoded point, the trails and the forecast; when one raises, the
    call raises the same exception from the state that component left,
    and the later components are not run.  The requests go out in that
    order: the geocoding request first, then, for those not answered from
    a memoisation table, the trail query and the forecast request. *)
Theorem pipeline_runs_in_sequence `{Upstream}
    (place : string) (radius_km : Q) (hours : Z) (s s' : state)
    (r : result recommendation) :
  tables_ok s →
  recommend_near_place place radius_km hours s = (r, s') →
  match r with
  | Ok rec =>
      ∃ loc s1 s2,
        geocode_place place s = (Ok loc, s1)
        ∧ get_trails_near (loc_lat loc) (loc_lon loc) radius_km false true s1
          = (Ok (rec_trails rec), s2)
        ∧ get_weather (loc_lat loc) (loc_lon loc) hours s2
          = (Ok (rec_weather rec), s')
        ∧ rec_place rec = {| pl_name := place; pl_lat := loc_lat loc;
                             pl_lon := loc_lon loc |}
  | Raise e =>
      geocode_place place s = (Raise e, s')
      ∨ (∃ loc s1,
           geocode_place place s = (Ok loc, s1)
           ∧ get_trails_near (loc_lat loc) (loc_lon loc) radius_km false true s1
             = (Raise e, s'))
      ∨ (∃ loc s1 trails s2,
           geocode_place place s = (Ok loc, s1)
           ∧ get_trails_near (loc_lat loc) (loc_lon loc) radius_km false true s1
             = (Ok trails, s2)
           ∧ get_weather (loc_lat loc) (loc_lon loc) hours s2 = (Raise e, s'))
  end
  ∧ ∃ rqs,
      sent_between s s' (geocode_request place :: rqs)
      ∧ (rqs = []
         ∨ ∃ loc s1,
             geocode_place place s = (Ok loc, s1)
             ∧ rqs `sublist_of`
                 [overpass_request
                    (_overpass_query_near (loc_lat loc) (loc_lon loc)
                       (Py.int (_clamp_radius_km radius_km * 1000)) false true) 30;
                  weather_request (loc_lat loc) (loc_lon loc) (_clamp_hours hours)]).
Proof.
  intros Hok Hrun.
  apply bind_inv in Hrun as [(loc & s1 & Hgeo & Hrun)|(e & Hgeo & ->)].
  2:{ split; [by left|]. exists []. split; [|by left].
      by apply geocode_place_inv in Hgeo as [_ Hsent]. }
  pose proof (geocode_place_inv _ _ _ _ Hgeo) as [Hsame Hsent0].
  pose proof (tables_ok_same _ _ Hok Hsame) as Hok1.
  apply bind_inv in Hrun as [(trails & s2 & Hnear & Hrun)|(e & Hnear & ->)].
  2:{ split; [right; left; by exists loc, s1|].
      apply get_trails_near_inv in Hnear as (_ & [Hsent|Hsent] & _); [| |done];
        (eexists; split;
         [apply (sent_between_trans _ _ _ _ _ Hsent0 Hsent)|]);
        [by left|right; exists loc, s1; split; [done|]].
      apply sublist_skip, sublist_nil_l. }
  pose proof (get_trails_near_inv _ _ _ _ _ _ _ _ Hok1 Hnear) as (Hok2 & Hsent1 & _).
  assert (Hsent01 : ∃ rqs1,
            sent_between s s2 (geocode_request place :: rqs1)
            ∧ rqs1 `sublist_of`
                [overpass_request
                   (_overpass_query_near (loc_lat loc) (loc_lon loc)
                      (Py.int (_clamp_radius_km radius_km * 1000)) false true) 30]).
  { destruct Hsent1 as [Hsent1|Hsent1]; eexists;
      (split; [apply (sent_between_trans _ _ _ _ _ Hsent0 Hsent1)|]).
    - apply sublist_nil_l.
    - done. }
  destruct Hsent01 as (rqs1 & Hsent01 & Hsub1).
  assert (Hsent012 : ∀ rw, get_weather (loc_lat loc) (loc_lon loc) hours s2 = (rw, s') →
            ∃ rqs, sent_between s s' (geocode_request place :: rqs)
              ∧ rqs `sublist_of`
                  [overpass_request
                     (_overpass_query_near (loc_lat loc) (loc_lon loc)
                        (Py.int (_clamp_radius_km radius_km * 1000)) false true) 30;
                   weather_request (loc_lat loc) (loc_lon loc) (_clamp_hours hours)]).
  { intros rw (_ & [Hsent2|Hsent2] & _)%get_weather_inv; [| |done];
      pose proof (sent_between_trans _ _ _ _ _ Hsent01 Hsent2) as Hall;
      simpl in Hall; eexists; (split; [exact Hall|]).
    - rewrite app_nil_r.
      etrans; [exact Hsub1|]. apply sublist_skip, sublist_nil_l.
    - by apply (sublist_app _ [_] _ [_]). }
  apply bind_inv in Hrun as [(weather & s3 & Hweather & Hret)|(e & Hweather & ->)].
  - unfold mret, M_ret in Hret. simplify_eq. split.
    + by exists loc, s1, s2.
    + destruct (Hsent012 _ Hweather) as (rqs & Hall & Hsub).
      exists rqs. split; [done|]. right. by exists loc, s1.
  - split.
    + right. right. by exists loc, s1, trails, s2.
    + destruct (Hsent012 _ Hweather) as (rqs & Hall & Hsub).
      exists rqs. split; [done|]. right. by exists loc, s1.
Qed.

Lemma pipeline_runs_in_sequence_witness :
  ∃ rec, (@recommend_near_place sample_upstream "Canmore" 12 12 initial_state).1
         = Ok rec
         ∧ pl_name (rec_place rec) = "Canmore".
Proof.
  pose proof (@pipeline_runs_in_sequence sample_upstream "Canmore" 12%Q 12%Z
                initial_state _ _ tables_ok_initial (surjective_pairing _))
    as [Hres _].
  destruct (@recommend_near_place sample_upstream "Canmore" 12 12 initial_state).1
    as [rec|e] eqn:Hrun.
  - exists rec. split; [reflexivity|].
    destruct Hres as (loc & s1 & s2 & _ & _ & _ & Hplace).
    rewrite Hplace. reflexivity.
  - exfalso. vm_compute in Hrun. discriminate Hrun.
Defined.

(** ** [_slim_weather] *)

Lemma py_lt_true (x y : Q) : Py.lt x y = true ↔ (x < y)%Q.
Proof.
  unfold Py.lt. rewrite negb_true_iff, <- not_true_iff_false, Qle_bool_iff.
  split; [apply Qnot_le_lt|apply Qlt_not_le].
Qed.

Lemma py_lt_false (x y : Q) : Py.lt x y = false ↔ (y <= x)%Q.
Proof. unfold Py.lt. by rewrite negb_false_iff, Qle_bool_iff. Qed.

(** The extremum loop returns an item of the list that no item beats,
    and it returns only when there is no [None] among the items
    compared. *)
Lemma extremum_loop_ok (better : Q -> Q -> bool) (le : Q -> Q -> Prop)
    (cur : Q) (rest : list (option Q)) (r : option Q) :
  (∀ x, le x x) → (∀ x y z, le x y → le y z → le x z) →
  (∀ x m, better x m = true → le x m) → (∀ x m, better x m = false → le m x) →
  extremum_loop better (Some cur) rest = Ok r →
  ∃ m, r = Some m ∧ Some m ∈ Some cur :: rest
       ∧ ∀ x, x ∈ Some cur :: rest → ∃ q, x = Some q ∧ le m q.
Proof.
  intros Hrefl Htrans Htrue Hfalse. revert cur.
  induction rest as [|item rest IH]; intros cur; simpl.
  - intros [= <-]. exists cur. split; [done|]. split; [left|].
    intros x ->%list_elem_of_singleton. by exists cur.
  - destruct item as [x|]; [|done].
    destruct (better x cur) eqn:Hb; intros (m & -> & Hin & Hall)%IH;
      exists m; (split; [done|]).
    + split.
      * apply elem_of_cons in Hin as [[= ->]|Hin]; [right; left|by do 2 right].
      * destruct (Hall (Some x)) as (q & [= <-] & Hmx); [left|].
        intros y [->|[->|Hy]%elem_of_cons]%elem_of_cons.
        -- exists cur. split; [done|]. eapply Htrans; [exact Hmx|by apply Htrue].
        -- by exists x.
        -- apply Hall. by right.
    + split.
      * apply elem_of_cons in Hin as [[= ->]|Hin]; [left|by do 2 right].
      * destruct (Hall (Some cur)) as (q & [= <-] & Hmc); [left|].
        intros y [->|[->|Hy]%elem_of_cons]%elem_of_cons.
        -- by exists cur.
        -- exists x. split; [done|]. eapply Htrans; [exact Hmc|by apply Hfalse].
        -- apply Hall. by right.
Qed.

Lemma py_min_ok (l : list (option Q)) (q : Q) :
  rbind (py_min l) round1 = Ok q →
  ∃ lo, q = Py.round lo 1 ∧ Some lo ∈ l
        ∧ ∀ x, x ∈ l → ∃ v, x = Some v ∧ (lo <= v)%Q.
Proof.
  unfold py_min, py_extremum. destruct l as [|[c|] rest]; [done| |].
  - destruct (extremum_loop Py.lt (Some c) rest) as [r|e] eqn:Hloop; [|done].
    apply (extremum_loop_ok _ Qle) in Hloop as (m & -> & Hin & Hall).
    + intros [= <-]. by exists m.
    + apply Qle_refl.
    + apply Qle_trans.
    + intros x m Hlt%py_lt_true. by apply Qlt_le_weak.
    + by intros x m Hge%py_lt_false.
  - destruct rest as [|[?|] ?]; simpl; done.
Qed.

Lemma py_max_opt_ok (l : list (option Q)) (p : Q) :
  py_max l = Ok (Some p) →
  Some p ∈ l ∧ ∀ x, x ∈ l → ∃ v, x = Some v ∧ (v <= p)%Q.
Proof.
  unfold py_max, py_extremum. destruct l as [|[c|] rest]; [done| |].
  - intros Hloop.
    apply (extremum_loop_ok _ (fun a b => (b <= a)%Q)) in Hloop
      as (m & [= <-] & Hin & Hall); [done|..].
    + apply Qle_refl.
    + intros x y z Hxy Hyz. by eapply Qle_trans.
    + intros x m Hlt%py_lt_true. by apply Qlt_le_weak.
    + by intros x m Hge%py_lt_false.
  - destruct rest as [|[?|] ?]; simpl; done.
Qed.

Lemma py_max_ok (l : list (option Q)) (q : Q) :
  rbind (py_max l) round1 = Ok q →
  ∃ hi, q = Py.round hi 1 ∧ Some hi ∈ l
        ∧ ∀ x, x ∈ l → ∃ v, x = Some v ∧ (v <= hi)%Q.
Proof.
  destruct (py_max l) as [[hi|]|e] eqn:Hmax; simpl; [|done..].
  intros [= <-]. apply py_max_opt_ok in Hmax as [Hin Hall]. by exists hi.
Qed.

Lemma any_positive (precp : list (option Q)) :
  negb (length (List.filter (fun v => Py.gt (default 0%Q v) 0%Q) precp) =? 0)%nat = true
  ↔ ∃ v, Some v ∈ precp ∧ (0 < v)%Q.
Proof.
  rewrite negb_true_iff, Nat.eqb_neq. split.
  - intros Hlen.
    destruct (List.filter _ precp) as [|x rest] eqn:Hf; [done|].
    assert (Hx : x ∈ List.filter (fun v => Py.gt (default 0%Q v) 0%Q) precp)
      by (rewrite Hf; left).
    apply filter_elem in Hx as [Hin Hpos]. apply py_lt_true in Hpos.
    destruct x as [v|]; [by exists v|]. simpl in Hpos. lra.
  - intros (v & Hin & Hpos).
    assert (Hx : Some v ∈ List.filter (fun v => Py.gt (default 0%Q v) 0%Q) precp).
    { apply filter_elem. split; [done|]. by apply py_lt_true. }
    destruct (List.filter _ precp); [by apply elem_of_nil in Hx|done].
Qed.

Lemma summary_block_some (temps precp pprob : list (option Q)) (sm : summary) :
  summary_block temps precp pprob = Ok (Some sm) →
  temps ≠ []
  ∧ (∃ lo, min_temp sm = Py.round lo 1 ∧ Some lo ∈ temps
           ∧ ∀ x, x ∈ temps → ∃ v, x = Some v ∧ (lo <= v)%Q)
  ∧ (∃ hi, max_temp sm = Py.round hi 1 ∧ Some hi ∈ temps
           ∧ ∀ x, x ∈ temps → ∃ v, x = Some v ∧ (v <= hi)%Q)
  ∧ (any_precip sm = true ↔ ∃ v, Some v ∈ precp ∧ (0 < v)%Q)
  ∧ (pprob = [] → max_precip_prob sm = Some 0%Q)
  ∧ (∀ p, pprob ≠ [] → max_precip_prob sm = Some p →
       Some p ∈ pprob ∧ ∀ x, x ∈ pprob → ∃ v, x = Some v ∧ (v <= p)%Q).
Proof.
  unfold summary_block. destruct temps as [|t0 trest]; [done|].
  set (temps := t0 :: trest).
  destruct (rbind (py_min temps) round1) as [mn|] eqn:Hmin; [|done].
  destruct (rbind (py_max temps) round1) as [mx|] eqn:Hmax; [|done].
  simpl.
  destruct (match pprob with [] => Ok (Some 0%Q) | _ :: _ => py_max pprob end)
    as [mp|] eqn:Hprob; [|done].
  simpl. intros [= <-]. simpl.
  split; [done|].
  split; [by apply py_min_ok in Hmin|].
  split; [by apply py_max_ok in Hmax|].
  split; [apply any_positive|].
  split.
  - intros ->. by simplify_eq.
  - intros p Hne ->. destruct pprob; [done|]. by apply py_max_opt_ok.
Qed.

(** C7.  [_slim_weather] always returns a slice.  Its summary is present
    only when the kept temperature series is not empty, and then holds
    the minimum and the maximum temperature rounded to one decimal,
    whether some precipitation sample is positive, and the maximum
    precipitation probability (0 without samples).  When the summary
    computation raises, the slice has no summary and the same hourly
    series; so [get_weather] returns the slice of any decoded answer
    whose status is not an error, whatever the summary computation
    does. *)
Theorem summary_is_best_effort `{Upstream} :
  (∀ data hours,
     let out := _slim_weather data hours in
     let temps := default [] (h_temperature_2m (fs_hourly out)) in
     let precp := default [] (h_precipitation (fs_hourly out)) in
     let pprob := default [] (h_precipitation_probability (fs_hourly out)) in
     (is_Some (fs_summary out) → temps ≠ [])
     ∧ (∀ sm, fs_summary out = Some sm →
          (∃ lo, min_temp sm = Py.round lo 1 ∧ Some lo ∈ temps
                 ∧ ∀ x, x ∈ temps → ∃ v, x = Some v ∧ (lo <= v)%Q)
          ∧ (∃ hi, max_temp sm = Py.round hi 1 ∧ Some hi ∈ temps
                   ∧ ∀ x, x ∈ temps → ∃ v, x = Some v ∧ (v <= hi)%Q)
          ∧ (any_precip sm = true ↔ ∃ v, Some v ∈ precp ∧ (0 < v)%Q)
          ∧ (pprob = [] → max_precip_prob sm = Some 0%Q)
          ∧ (∀ p, pprob ≠ [] → max_precip_prob sm = Some p →
               Some p ∈ pprob ∧ ∀ x, x ∈ pprob → ∃ v, x = Some v ∧ (v <= p)%Q))
     ∧ (∀ e, summary_block temps precp pprob = Raise e → fs_summary out = None)
     ∧ fs_hourly out
       = (let src := default empty_hourly (fd_hourly data) in
          let n := _clamp_hours hours in
          {| h_time := Py.slice_to n <$> h_time src;
             h_temperature_2m := Py.slice_to n <$> h_temperature_2m src;
             h_precipitation_probability :=
               Py.slice_to n <$> h_precipitation_probability src;
             h_precipitation := Py.slice_to n <$> h_precipitation src |}))
  ∧ (∀ lat lon hours s resp data,
       table_find weather_key_eqb (lat, lon, hours) (weather_table s) = None →
       open_meteo (log s) (weather_request lat lon (_clamp_hours hours)) = inr resp →
       (status_code resp < 400 ∨ 600 <= status_code resp)%Z →
       json resp = Some data →
       (get_weather lat lon hours s).1 = Ok (_slim_weather data (_clamp_hours hours))).
Proof.
  split.
  - intros data hours out temps precp pprob.
    assert (Hsum : fs_summary out
                   = match summary_block temps precp pprob with
                     | Ok sm => sm
                     | Raise _ => None
                     end) by reflexivity.
    split; [|split; [|split]].
    + intros [sm Hsm]. rewrite Hsum in Hsm. clear Hsum.
      destruct (summary_block temps precp pprob) as [osm|e] eqn:Hblock; [|done].
      subst osm. by apply summary_block_some in Hblock as [Hne _].
    + intros sm Hsm. rewrite Hsum in Hsm. clear Hsum.
      destruct (summary_block temps precp pprob) as [osm|e] eqn:Hblock; [|done].
      subst osm. by apply summary_block_some in Hblock as [_ Hrest].
    + intros e Hraise. by rewrite Hsum, Hraise.
    + reflexivity.
  - intros lat lon hours s resp data Hmiss Hanswer Hstatus Hjson.
    unfold get_weather, lru_cache. rewrite Hmiss.
    unfold get_weather_body, mbind, M_bind, exchange. rewrite Hanswer.
    unfold raise_for_status.
    replace ((400 <=? status_code resp)%Z && (status_code resp <? 600)%Z)
      with false by (symmetry; apply andb_false_iff; lia).
    unfold mret, M_ret, json_of. by rewrite Hjson.
Qed.

Lemma summary_is_best_effort_witness :
  (fs_summary (_slim_weather gappy_forecast 24) = None
   ∧ hourly_lengths (fs_hourly (_slim_weather gappy_forecast 24)) = [2; 2; 2; 2]%nat)
  ∧ (@get_weather sample_upstream 51 (-115) 12 initial_state).1
    = Ok (_slim_weather sample_forecast 12).
Proof.
  split.
  - split; [|reflexivity].
    destruct (proj1 (@summary_is_best_effort sample_upstream) gappy_forecast 24%Z)
      as (_ & _ & Hswallow & _).
    apply (Hswallow (TypeError "comparison not supported with NoneType")).
    reflexivity.
  - apply (proj2 (@summary_is_best_effort sample_upstream) 51%Q (-115)%Q 12%Z
             initial_state (mk_response 200 "{...}" (Some sample_forecast))
             sample_forecast).
    + reflexivity.
    + reflexivity.
    + left. reflexivity.
    + reflexivity.
Defined.

Lemma clamp_hours_range (hours : Z) :
  (1 <= _clamp_hours hours <= 24)%Z
  ∧ (hours <= 1 → _clamp_hours hours = 1)%Z
  ∧ (24 <= hours → _clamp_hours hours = 24)%Z
  ∧ (1 <= hours <= 24 → _clamp_hours hours = hours)%Z.
Proof. unfold _clamp_hours. lia. Qed.

Lemma clamp_hours_idemp (hours : Z) :
  _clamp_hours (_clamp_hours hours) = _clamp_hours hours.
Proof. unfold _clamp_hours. lia. Qed.

Lemma slim_lengths (data : forecast_data) (hours : Z) :
  hourly_lengths (fs_hourly (_slim_weather data hours))
  = (fun n => n `min` Z.to_nat (_clamp_hours hours))%nat
      <$> hourly_lengths (default empty_hourly (fd_hourly data)).
Proof.
  unfold _slim_weather, hourly_lengths, Py.slice_to. simpl.
  destruct (default empty_hourly (fd_hourly data)) as [[t|] [p|] [q|] [r|]]; simpl;
    rewrite ?length_take, ?(Nat.min_comm (Z.to_nat (_clamp_hours hours))); done.
Qed.




(** ** The order on scored names *)

Lemma str_lt_trans (a b c : string) :
  Py.str_lt a b = true → Py.str_lt b c = true → Py.str_lt a c = true.
Proof.
  revert b c. induction a as [|x a IH]; intros [|y b] [|z c]; simpl; try done.
  destruct (nat_of_ascii x <? nat_of_ascii y)%nat eqn:Hxy,
           (nat_of_ascii y <? nat_of_ascii x)%nat eqn:Hyx,
           (nat_of_ascii y <? nat_of_ascii z)%nat eqn:Hyz,
           (nat_of_ascii z <? nat_of_ascii y)%nat eqn:Hzy,
           (nat_of_ascii x <? nat_of_ascii z)%nat eqn:Hxz,
           (nat_of_ascii z <? nat_of_ascii x)%nat eqn:Hzx;
    try done;
    rewrite ?Nat.ltb_lt, ?Nat.ltb_ge in *; try lia.
  apply IH.
Qed.

Lemma tuple_gt_true (x y : Q * string) :
  difflib.tuple_gt x y = true
  ↔ (y.1 < x.1)%Q ∨ ((x.1 == y.1)%Q ∧ Py.str_lt y.2 x.2 = true).
Proof.
  unfold difflib.tuple_gt, Py.gt.
  by rewrite orb_true_iff, andb_true_iff, py_lt_true, Qeq_bool_iff.
Qed.

Lemma str_lt_irrefl (s : string) : Py.str_lt s s = false.
Proof. induction s as [|c s IH]; simpl; [done|]. by rewrite Nat.ltb_irrefl. Qed.

Lemma str_lt_total (a b : string) :
  Py.str_lt a b = false → Py.str_lt b a = false → a = b.
Proof.
  revert b. induction a as [|x a IH]; intros [|y b]; simpl; try done.
  destruct (nat_of_ascii x <? nat_of_ascii y)%nat eqn:Hxy,
           (nat_of_ascii y <? nat_of_ascii x)%nat eqn:Hyx; try done.
  rewrite Nat.ltb_ge in Hxy, Hyx. intros Hab Hba.
  assert (Hc : x = y).
  { rewrite <- (ascii_nat_embedding x), <- (ascii_nat_embedding y).
    f_equal. lia. }
  rewrite Hc. f_equal. by apply IH.
Qed.

Lemma tuple_gt_false_trans (a b c : Q * string) :
  difflib.tuple_gt a b = false → difflib.tuple_gt b c = false →
  difflib.tuple_gt a c = false.
Proof.
  rewrite <- !not_true_iff_false, !tuple_gt_true.
  intros Hab Hbc [Hlt|[Heq Hs]].
  - destruct (Qlt_le_dec b.1 a.1) as [?|?]; [apply Hab; by left|].
    destruct (Qlt_le_dec c.1 b.1) as [?|?]; [apply Hbc; by left|]. lra.
  - destruct (Qlt_le_dec b.1 a.1) as [?|?]; [apply Hab; by left|].
    destruct (Qlt_le_dec c.1 b.1) as [?|?]; [apply Hbc; by left|].
    assert (Eab : (a.1 == b.1)%Q) by lra.
    assert (Ebc : (b.1 == c.1)%Q) by lra.
    destruct (Py.str_lt b.2 a.2) eqn:Hba; [apply Hab; by right|].
    destruct (Py.str_lt c.2 b.2) eqn:Hcb; [apply Hbc; by right|].
    destruct (Py.str_lt a.2 b.2) eqn:Hab'.
    + by rewrite (str_lt_trans _ _ _ Hs Hab') in Hcb.
    + rewrite (str_lt_total _ _ Hab' Hba) in Hs. by rewrite Hs in Hcb.
Qed.

Lemma max_loop_max (cur : Q * string) (rest : list (Q * string)) :
  difflib.max_loop cur rest ∈ cur :: rest
  ∧ ∀ y, y ∈ cur :: rest → difflib.tuple_gt y (difflib.max_loop cur rest) = false.
Proof.
  revert cur. induction rest as [|item rest IH]; intros cur; simpl.
  - split; [left|]. intros y ->%list_elem_of_singleton.
    apply not_true_iff_false. rewrite tuple_gt_true.
    intros [Hlt|[_ Hs]]; [lra|]. by rewrite str_lt_irrefl in Hs.
  - destruct (difflib.tuple_gt item cur) eqn:Hgt;
      destruct (IH (if difflib.tuple_gt item cur then item else cur))
        as [Hin Hmax]; rewrite Hgt in Hin, Hmax.
    + split.
      * apply elem_of_cons in Hin as [->|Hin]; [right; left|by do 2 right].
      * intros y [->|Hy]%elem_of_cons; [|by apply Hmax].
        destruct (difflib.tuple_gt cur (difflib.max_loop item rest)) eqn:Hc; [|done].
        exfalso.
        pose proof (Hmax item (list_elem_of_here _ _)) as Hitem.
        apply not_true_iff_false in Hitem. apply Hitem.
        apply tuple_gt_true in Hgt, Hc. apply tuple_gt_true.
        destruct Hgt as [?|[? ?]], Hc as [?|[? ?]].
        -- left. lra.
        -- left. lra.
        -- left. lra.
        -- right. split; [lra|]. by apply (str_lt_trans _ cur.2).
    + split.
      * apply elem_of_cons in Hin as [->|Hin]; [left|by do 2 right].
      * intros y [->|[->|Hy]%elem_of_cons]%elem_of_cons.
        -- apply Hmax. left.
        -- apply (tuple_gt_false_trans _ cur); [done|]. apply Hmax. left.
        -- apply Hmax. by right.
Qed.

(** ** [get_close_matches] *)

Lemma close_matches_fold (word : string) (cutoff : Q) (possibilities : list string)
    (acc : list (Q * string)) :
  fold_left (fun (result : list (Q * string)) x =>
               if difflib.close_enough cutoff word x
               then result ++ [(difflib.ratio x word, x)] else result)
    possibilities acc
  = acc ++ ((fun x => (difflib.ratio x word, x))
              <$> List.filter (difflib.close_enough cutoff word) possibilities).
Proof.
  revert acc. induction possibilities as [|x ps IH]; intros acc; simpl.
  - by rewrite app_nil_r.
  - rewrite IH. destruct (difflib.close_enough cutoff word x); [|done].
    by rewrite <- app_assoc.
Qed.

Lemma close_matches_none (word : string) (cutoff : Q) (possibilities : list string) :
  (∀ x, x ∈ possibilities → difflib.close_enough cutoff word x = false) →
  difflib.get_close_matches word possibilities cutoff = [].
Proof.
  intros Hnone. unfold difflib.get_close_matches.
  rewrite close_matches_fold. by rewrite (filter_none _ _ Hnone).
Qed.

Lemma close_matches_best (word : string) (cutoff : Q) (possibilities : list string)
    (x0 : string) :
  x0 ∈ possibilities → difflib.close_enough cutoff word x0 = true →
  ∃ m, difflib.get_close_matches word possibilities cutoff = [m]
       ∧ m ∈ possibilities ∧ difflib.close_enough cutoff word m = true
       ∧ ∀ y, y ∈ possibilities → difflib.close_enough cutoff word y = true →
           difflib.tuple_gt (difflib.ratio y word, y) (difflib.ratio m word, m) = false.
Proof.
  intros Hin Hclose. unfold difflib.get_close_matches.
  rewrite close_matches_fold, app_nil_l.
  assert (Hx0 : x0 ∈ List.filter (difflib.close_enough cutoff word) possibilities)
    by by apply filter_elem.
  assert (Hkept : ∀ y, y ∈ List.filter (difflib.close_enough cutoff word) possibilities
            ↔ y ∈ possibilities ∧ difflib.close_enough cutoff word y = true)
    by (intros y; apply filter_elem).
  destruct (List.filter (difflib.close_enough cutoff word) possibilities)
    as [|x kept]; [by apply elem_of_nil in Hx0|].
  set (score := fun x : string => (difflib.ratio x word, x)) in *.
  rewrite fmap_cons. unfold difflib.nlargest1.
  destruct (max_loop_max (score x) (score <$> kept)) as [Hmem Hmax].
  rewrite <- fmap_cons in Hmem, Hmax.
  apply list_elem_of_fmap in Hmem as (m & Hm & Hmin).
  exists m. rewrite Hm. split; [done|].
  apply Hkept in Hmin as [Hmin Hmclose]. split; [done|]. split; [done|].
  intros y Hy Hyc. fold (score y) (score m). rewrite <- Hm. apply Hmax.
  apply list_elem_of_fmap. exists y. split; [done|]. by apply Hkept.
Qed.

(** ** [find] and first matches *)

Lemma find_first_such {A} (f : A -> bool) (l : list A) (x : A) :
  List.find f l = Some x ↔ first_such (fun y => f y = true) l x.
Proof.
  induction l as [|a l IH]; simpl.
  - split; [done|]. by intros (i & Hi & _).
  - destruct (f a) eqn:Hfa.
    + split.
      * intros [= ->]. exists 0%nat. split; [done|]. split; [done|]. intros; lia.
      * intros ([|i] & Hi & Hx & Hfirst); [by simplify_eq/=|].
        exfalso. apply (Hfirst 0%nat a); [lia|done|done].
    + rewrite IH. split.
      * intros (i & Hi & Hx & Hfirst). exists (S i). split; [done|]. split; [done|].
        intros [|j] y Hj Hy; simpl in Hy; [simplify_eq; congruence|].
        apply (Hfirst j); [lia|done].
      * intros ([|i] & Hi & Hx & Hfirst); [simplify_eq/=; congruence|].
        exists i. split; [done|]. split; [done|].
        intros j y Hj Hy. apply (Hfirst (S j)); [lia|done].
Qed.

Lemma find_filter {A} (f g : A -> bool) (l : list A) :
  List.find f (List.filter g l) = List.find (fun y => g y && f y) l.
Proof.
  induction l as [|a l IH]; simpl; [done|].
  destruct (g a); simpl; [|done]. by rewrite IH.
Qed.

Lemma first_such_ext {A} (P Q : A -> Prop) (l : list A) (x : A) :
  (∀ y, P y ↔ Q y) → first_such P l x → first_such Q l x.
Proof.
  intros Hext (i & Hi & Hx & Hfirst). exists i. split; [done|].
  split; [by apply Hext|]. intros j y Hj Hy HQ. apply (Hfirst j y Hj Hy).
  by apply Hext.
Qed.

Lemma head_first_such {A} (f : A -> bool) (l : list A) (x : A) :
  first_such (fun y => f y = true) l x → head (List.filter f l) = Some x.
Proof.
  intros Hfirst%find_first_such. induction l as [|a l IH]; simpl in *; [done|].
  destruct (f a); [done|]. by apply IH.
Qed.

Lemma is_named_true (t : trail) :
  is_named t = true ↔ _normalize_name (tr_name t) ≠ "".
Proof.
  unfold is_named. rewrite negb_true_iff. apply String.eqb_neq.
Qed.

Lemma candidate_names (trails : list trail) (name : string) :
  name ∈ omap tr_name (List.filter is_named trails) ↔ candidate_name trails name.
Proof.
  rewrite list_elem_of_omap. unfold candidate_name. split.
  - intros (t & [Hin Hn]%filter_elem & Hname). by exists t.
  - intros (t & Hin & Hn & Hname). exists t. split; [by apply filter_elem|done].
Qed.

Lemma find_none_all {A} (f : A -> bool) (l : list A) :
  (∀ x, x ∈ l → f x = false) → List.find f l = None.
Proof.
  induction l as [|a l IH]; intros Hall; simpl; [done|].
  rewrite (Hall a) by left. apply IH. intros x Hx. apply Hall. by right.
Qed.

Lemma exact_match_bool (trail_name : string) (t : trail) :
  exact_match trail_name t
  ↔ is_named t
    && String.eqb (_normalize_name (tr_name t)) (_normalize_name (Some trail_name))
    = true.
Proof.
  unfold exact_match. by rewrite andb_true_iff, is_named_true, String.eqb_eq.
Qed.

Lemma pick_by_name_no_exact (trails : list trail) (trail_name : string) :
  (∀ t, t ∈ trails → ¬ exact_match trail_name t) →
  List.find (fun t => String.eqb (_normalize_name (tr_name t))
                        (_normalize_name (Some trail_name)))
    (List.filter is_named trails) = None.
Proof.
  intros Hno. rewrite find_filter. apply find_none_all. intros t Ht.
  apply not_true_iff_false. rewrite <- exact_match_bool. by apply Hno.
Qed.

(** C3, the claim as stated fails: neither of two candidates named
    ["abcx"] and ["abcy"] matches ["abcd"] exactly, both are kept with the
    same, greatest ratio 3/4, the first is first seen, and the second is
    returned. *)
Lemma fuzzy_tie_not_first_seen :
  ¬ (∀ trails trail_name t,
       (∀ t', t' ∈ trails → ¬ exact_match trail_name t') →
       best_ratio_first_seen trails trail_name t →
       _pick_by_name trails trail_name = Some t).
Proof.
  intros Hclaim.
  assert (Hpick : _pick_by_name [trail_abcx; trail_abcy] "abcd" = Some trail_abcy)
    by (vm_compute; reflexivity).
  rewrite (Hclaim [trail_abcx; trail_abcy] "abcd" trail_abcx) in Hpick; [done| |].
  - intros t' [->|[->|[]%elem_of_nil]%elem_of_cons]%elem_of_cons [_ Heq];
      vm_compute in Heq; discriminate Heq.
  - exists 0%nat. split; [done|]. split; [|intros; lia].
    split; [done|]. exists "abcx". split; [done|]. split; [by vm_compute|].
    intros name' (t' & Hin & _ & Hname) _.
    apply elem_of_cons in Hin as [->|[->|[]%elem_of_nil]%elem_of_cons];
      simpl in Hname; injection Hname as <-; by vm_compute.
Qed.

(** C3, amended.  [_pick_by_name] resolves in this order, first match
    winning: (1) the first candidate whose name, trimmed and lower-cased,
    is not empty and equals the requested name, trimmed and lower-cased;
    (2) among the names of the named candidates that [get_close_matches]
    keeps at cutoff 0.6 (each has ratio at least 0.6 to the requested
    name as written), the one with the greatest ratio, a tie on the ratio
    going to the greatest name in code-point order, and then the first
    candidate bearing that name; (3) the first candidate with both
    coordinates, whatever its name, and nothing when there is none. *)
Theorem pick_by_name_resolution (trails : list trail) (trail_name : string) :
  (∀ t, first_such (exact_match trail_name) trails t →
        _pick_by_name trails trail_name = Some t)
  ∧ ((∀ t, t ∈ trails → ¬ exact_match trail_name t) →
     (∀ name t,
        fuzzy_best trails trail_name name →
        first_such (fun t => is_named t = true ∧ tr_name t = Some name) trails t →
        _pick_by_name trails trail_name = Some t)
     ∧ ((∀ name, candidate_name trails name → ¬ close_to trail_name name) →
        (∀ t, first_such (fun t => has_coords t = true) trails t →
              _pick_by_name trails trail_name = Some t)
        ∧ ((∀ t, t ∈ trails → has_coords t = false) →
           _pick_by_name trails trail_name = None)))
  ∧ (∀ name, close_to trail_name name →
       (6 # 10 <= difflib.ratio name trail_name)%Q).
Proof.
  split; [|split].
  - intros t Hfirst. unfold _pick_by_name.
    destruct trails as [|t0 rest]; [by destruct Hfirst as ([|?] & ? & _)|].
    set (trails := t0 :: rest) in *.
    rewrite find_filter.
    eapply first_such_ext in Hfirst; [|apply exact_match_bool].
    apply find_first_such in Hfirst. by rewrite Hfirst.
  - intros Hno. pose proof (pick_by_name_no_exact _ _ Hno) as Hexact. split.
    + intros name t (Hcand & Hclose & Hbest) Hfirst. unfold _pick_by_name.
      destruct trails as [|t0 rest]; [by destruct Hfirst as ([|?] & ? & _)|].
      set (trails := t0 :: rest) in *. rewrite Hexact.
      apply candidate_names in Hcand as Hin.
      destruct (close_matches_best trail_name (6 # 10) _ name Hin Hclose)
        as (m & -> & Hm & Hmclose & Hmax).
      assert (Hmn : m = name).
      { specialize (Hmax name Hin Hclose).
        apply not_true_iff_false in Hmax. rewrite tuple_gt_true in Hmax. simpl in Hmax.
        destruct (Hbest m) as [Hlt|[Heq [Hsame|Hlt]]];
          [by apply candidate_names|done| | |].
        - exfalso. apply Hmax. by left.
        - done.
        - exfalso. apply Hmax. right. split; [lra|done]. }
      subst m. rewrite find_filter.
      eapply first_such_ext in Hfirst.
      * apply find_first_such in Hfirst. by rewrite Hfirst.
      * intros y. simpl. by rewrite andb_true_iff, bool_decide_eq_true.
    + intros Hnoclose.
      assert (Hnone : trails ≠ [] →
                difflib.get_close_matches trail_name
                  (omap tr_name (List.filter is_named trails)) (6 # 10) = []).
      { intros _. apply close_matches_none. intros x Hx%candidate_names.
        apply not_true_iff_false. by apply Hnoclose. }
      split.
      * intros t Hfirst. unfold _pick_by_name.
        destruct trails as [|t0 rest]; [by destruct Hfirst as ([|?] & ? & _)|].
        set (trails := t0 :: rest) in *. rewrite Hexact, Hnone by done.
        by apply head_first_such.
      * intros Hnocoords. unfold _pick_by_name.
        destruct trails as [|t0 rest]; [done|].
        set (trails := t0 :: rest) in *. rewrite Hexact, Hnone by done.
        by rewrite (filter_none _ _ Hnocoords).
  - intros name Hclose. unfold close_to, difflib.close_enough in Hclose.
    apply andb_true_iff in Hclose as [_ Hratio]. by apply Qle_bool_iff.
Qed.

Lemma pick_by_name_resolution_witness :
  _pick_by_name [trail_grotto; trail_elbow] "  elbow lake LOOP " = Some trail_elbow
  ∧ _pick_by_name [trail_abcx; trail_abcy] "abcd" = Some trail_abcy
  ∧ _pick_by_name [ghost_trail; trail_abcx; trail_abcy] "zzzz" = Some trail_abcx
  ∧ _pick_by_name [ghost_trail] "zzzz" = None
  ∧ (6 # 10 <= difflib.ratio "abcx" "abcd")%Q.
Proof.
  assert (Hcases2 : ∀ (P : trail → Prop) a b,
            P a → P b → ∀ t, t ∈ [a; b] → P t).
  { intros P a b Ha Hb t [->|[->|[]%elem_of_nil]%elem_of_cons]%elem_of_cons; done. }
  assert (Hcases3 : ∀ (P : trail → Prop) a b c,
            P a → P b → P c → ∀ t, t ∈ [a; b; c] → P t).
  { intros P a b c Ha Hb Hc t
      [->|[->|[->|[]%elem_of_nil]%elem_of_cons]%elem_of_cons]%elem_of_cons; done. }
  assert (Hnot : ∀ trail_name t,
            String.eqb (_normalize_name (tr_name t)) (_normalize_name (Some trail_name))
            = false → ¬ exact_match trail_name t).
  { intros trail_name t Hneq [_ Heq]. apply String.eqb_neq in Hneq. done. }
  split; [|split; [|split; [|split]]].
  - apply (proj1 (pick_by_name_resolution [trail_grotto; trail_elbow]
                    "  elbow lake LOOP ")).
    exists 1%nat. split; [reflexivity|]. split.
    + split; [by vm_compute|by vm_compute].
    + intros [|[|j]] y Hj Hy; [|lia|lia]. injection Hy as <-.
      apply Hnot. by vm_compute.
  - apply (proj1 (proj1 (proj2 (pick_by_name_resolution [trail_abcx; trail_abcy] "abcd"))
                    (Hcases2 _ _ _ (Hnot "abcd" trail_abcx eq_refl)
                       (Hnot "abcd" trail_abcy eq_refl)))
             "abcy").
    + split; [|split].
      * exists trail_abcy. split; [right; left|done].
      * by vm_compute.
      * intros name' (t' & Hin & _ & Hname) _.
        apply elem_of_cons in Hin as [->|[->|[]%elem_of_nil]%elem_of_cons];
          injection Hname as <-; right; (split; [by vm_compute|]).
        -- by right.
        -- by left.
    + exists 1%nat. split; [reflexivity|]. split; [by split|].
      intros [|[|j]] y Hj Hy; [|lia|lia]. injection Hy as <-. by intros [_ [= ]].
  - apply (proj1 (proj2 (proj1 (proj2 (pick_by_name_resolution
                                          [ghost_trail; trail_abcx; trail_abcy] "zzzz"))
                           (Hcases3 _ _ _ _ (Hnot "zzzz" ghost_trail eq_refl)
                              (Hnot "zzzz" trail_abcx eq_refl)
                              (Hnot "zzzz" trail_abcy eq_refl)))
                    ltac:(intros name (t' & Hin & _ & Hname);
                          apply elem_of_cons in Hin
                            as [->|[->|[->|[]%elem_of_nil]%elem_of_cons]%elem_of_cons];
                          injection Hname as <-; by vm_compute))).
    exists 1%nat. split; [reflexivity|]. split; [reflexivity|].
    intros [|[|j]] y Hj Hy; [|lia|lia]. injection Hy as <-. by vm_compute.
  - apply (proj2 (proj2 (proj1 (proj2 (pick_by_name_resolution [ghost_trail] "zzzz"))
                           ltac:(intros t ->%list_elem_of_singleton;
                                 apply Hnot; reflexivity))
                    ltac:(intros name (t' & ->%list_elem_of_singleton & _ & [= <-]);
                          by vm_compute))).
    by intros t ->%list_elem_of_singleton.
  - apply (proj2 (proj2 (pick_by_name_resolution [trail_abcx] "abcd"))).
    by vm_compute.
Defined.

(** ** difflib: the block search stays in range and the queue loop ends *)

Lemma scan_js_in (js : list Z) (i alo ahi blo bhi : Z) (j2len newj2len : gmap Z Z)
    (best : difflib.block) :
  (alo <= i < ahi)%Z →
  (∀ j v, j2len !! j = Some v → (0 <= v <= i - alo)%Z) →
  (∀ j v, newj2len !! j = Some v → (0 <= v <= i - alo + 1)%Z) →
  block_in alo ahi best →
  let out := difflib.scan_js js i blo bhi j2len newj2len best in
  (∀ j v, out.1 !! j = Some v → (0 <= v <= i - alo + 1)%Z) ∧ block_in alo ahi out.2.
Proof.
  intros Hi Hold. revert newj2len best.
  induction js as [|j js IH]; intros newj2len best Hnew Hbest; simpl; [done|].
  destruct (j <? blo)%Z; [by apply IH|].
  destruct (bhi <=? j)%Z; [done|].
  assert (Hk : (0 <= default 0 (j2len !! (j - 1)) <= i - alo)%Z).
  { destruct (j2len !! (j - 1)%Z) as [v|] eqn:Hv; simpl; [by eapply Hold|lia]. }
  apply IH.
  - intros j' v. rewrite lookup_insert. case_decide; [|by apply Hnew].
    intros [= <-]. lia.
  - destruct (best.2 <? default 0 (j2len !! (j - 1)) + 1)%Z; [|done].
    unfold block_in. simpl. lia.
Qed.

Lemma scan_range_in (a : list ascii) (b2j : gmap ascii (list Z))
    (alo ahi blo bhi : Z) (n : nat) (start : Z) (st : gmap Z Z * difflib.block) :
  (alo <= start)%Z → (start + Z.of_nat n <= ahi)%Z →
  (∀ j v, st.1 !! j = Some v → (0 <= v <= start - alo)%Z) →
  block_in alo ahi st.2 →
  block_in alo ahi
    (fold_left (difflib.scan_i a b2j blo bhi) (seqZ start (Z.of_nat n)) st).2.
Proof.
  revert start st. induction n as [|n IH]; intros start st Hlo Hhi Hlen Hbest.
  - by rewrite seqZ_nil.
  - rewrite seqZ_cons by lia. simpl.
    replace (Z.pred (Z.of_nat (S n))) with (Z.of_nat n) by lia.
    unfold difflib.scan_i at 2.
    match goal with
    | |- context [difflib.scan_js ?js start blo bhi st.1 ∅ st.2] =>
        pose proof (scan_js_in js start alo ahi blo bhi st.1 ∅ st.2) as Hstep
    end.
    destruct Hstep as [Hlen' Hbest']; [lia|done|by intros j v; rewrite lookup_empty|done|].
    apply IH; [lia|lia| |done].
    intros j v Hv. apply Hlen' in Hv. lia.
Qed.

Lemma extend_left_in (turns : nat) (a b : list ascii) (alo ahi blo : Z)
    (m : difflib.block) :
  block_in alo ahi m → block_in alo ahi (difflib.extend_left turns a b alo blo m).
Proof.
  revert m. induction turns as [|turns IH]; intros [[besti bestj] bestsize] Hm;
    simpl; [done|].
  destruct ((alo <? besti)%Z && (blo <? bestj)%Z
            && difflib.same_at a b (besti - 1) (bestj - 1)) eqn:Hcond; [|done].
  apply IH. apply andb_true_iff in Hcond as [[Hlt _]%andb_true_iff _].
  apply Z.ltb_lt in Hlt. unfold block_in in *. simpl in *. lia.
Qed.

Lemma extend_right_in (turns : nat) (a b : list ascii) (alo ahi bhi : Z)
    (m : difflib.block) :
  block_in alo ahi m → block_in alo ahi (difflib.extend_right turns a b ahi bhi m).
Proof.
  revert m. induction turns as [|turns IH]; intros [[besti bestj] bestsize] Hm;
    simpl; [done|].
  destruct ((besti + bestsize <? ahi)%Z && (bestj + bestsize <? bhi)%Z
            && difflib.same_at a b (besti + bestsize) (bestj + bestsize)) eqn:Hcond;
    [|done].
  apply IH. apply andb_true_iff in Hcond as [[Hlt _]%andb_true_iff _].
  apply Z.ltb_lt in Hlt. unfold block_in in *. simpl in *. lia.
Qed.

Lemma find_longest_match_in (a b : list ascii) (b2j : gmap ascii (list Z))
    (alo ahi blo bhi : Z) :
  (alo <= ahi)%Z →
  block_in alo ahi (difflib.find_longest_match a b b2j alo ahi blo bhi).
Proof.
  intros Hle. unfold difflib.find_longest_match.
  apply extend_right_in, extend_left_in.
  replace (ahi - alo)%Z with (Z.of_nat (Z.to_nat (ahi - alo))) by lia.
  apply scan_range_in; [lia|lia|by intros j v; simpl; rewrite lookup_empty|].
  unfold block_in. simpl. lia.
Qed.

Lemma queue_weight_cons (alo ahi blo bhi : Z) (queue : list (Z * Z * Z * Z)) :
  queue_weight ((alo, ahi, blo, bhi) :: queue)
  = (2 * Z.to_nat (ahi - alo) + 1 + queue_weight queue)%nat.
Proof. reflexivity. Qed.

Lemma blocks_loop_ends (fuel : nat) (a b : list ascii) (b2j : gmap ascii (list Z))
    (queue : list (Z * Z * Z * Z)) (acc : list difflib.block) :
  Forall (fun q : Z * Z * Z * Z => (q.1.1.1 <= q.1.1.2)%Z) queue →
  (queue_weight queue ≤ fuel)%nat →
  is_Some (difflib.blocks_loop fuel a b b2j queue acc).
Proof.
  revert queue acc. induction fuel as [|fuel IH]; intros queue acc Hvalid Hweight.
  - destruct queue as [|[[[alo ahi] blo] bhi] queue]; [by eexists|].
    rewrite queue_weight_cons in Hweight. lia.
  - destruct queue as [|[[[alo ahi] blo] bhi] queue]; [by eexists|].
    apply Forall_cons in Hvalid as [Hle Hvalid]. simpl in Hle.
    rewrite queue_weight_cons in Hweight.
    simpl.
    pose proof (find_longest_match_in a b b2j alo ahi blo bhi Hle) as Hin.
    destruct (difflib.find_longest_match a b b2j alo ahi blo bhi) as [[i j] k].
    unfold block_in in Hin. simpl in Hin.
    destruct (k =? 0)%Z eqn:Hk; [apply IH; [done|lia]|].
    apply Z.eqb_neq in Hk.
    apply IH.
    + destruct ((i + k <? ahi)%Z && (j + k <? bhi)%Z),
               ((alo <? i)%Z && (blo <? j)%Z);
        repeat (apply Forall_cons; split; [simpl; lia|]); done.
    + destruct ((i + k <? ahi)%Z && (j + k <? bhi)%Z),
               ((alo <? i)%Z && (blo <? j)%Z);
        rewrite ?queue_weight_cons; lia.
Qed.

(** The fuel given to the queue loop is always enough. *)
Lemma matching_blocks_total (a b : list ascii) : is_Some (difflib.matching_blocks a b).
Proof.
  unfold difflib.matching_blocks. apply blocks_loop_ends.
  - apply Forall_cons. split; [simpl; lia|done].
  - rewrite queue_weight_cons. unfold queue_weight. simpl. lia.
Qed.

(** ** The tables stay well formed *)

(** X20.  Every tool leaves the memoisation tables well formed, so they
    are well formed in every state reached from [initial_state]: they
    only ever hold lists that [_normalize] built, under boxes that passed
    the inversion check, and slices that [_slim_weather] built for the
    hours of their key. *)
Lemma tools_keep_tables_ok `{Upstream} (s : state) :
  tables_ok s →
  (∀ place, tables_ok (geocode_place place s).2)
  ∧ (∀ lat lon radius_km hard_only natural_only,
       tables_ok (get_trails_near lat lon radius_km hard_only natural_only s).2)
  ∧ (∀ min_lat min_lon max_lat max_lon hard_only natural_only,
       tables_ok (get_trails_in_bbox min_lat min_lon max_lat max_lon
                    hard_only natural_only s).2)
  ∧ (∀ lat lon hours, tables_ok (get_weather lat lon hours s).2)
  ∧ (∀ trail_name hours lat lon radius_km,
       tables_ok (weather_for_trail trail_name hours lat lon radius_km s).2)
  ∧ (∀ place radius_km hours,
       tables_ok (recommend_near_place place radius_km hours s).2).
Proof.
  intros Hok.
  assert (Hgeo : ∀ s0 place, tables_ok s0 → tables_ok (geocode_place place s0).2).
  { intros s0 place Hok0.
    destruct (geocode_place_inv place s0 _ _ (surjective_pairing _)) as [Hsame _].
    by eapply tables_ok_same. }
  assert (Hnear : ∀ s0 lat lon radius_km hard_only natural_only, tables_ok s0 →
            tables_ok (get_trails_near lat lon radius_km hard_only natural_only s0).2).
  { intros s0 lat lon radius_km hard_only natural_only Hok0.
    by destruct (get_trails_near_inv lat lon radius_km hard_only natural_only s0 _ _
                   Hok0 (surjective_pairing _)) as [Hok' _]. }
  assert (Hweather : ∀ s0 lat lon hours, tables_ok s0 →
            tables_ok (get_weather lat lon hours s0).2).
  { intros s0 lat lon hours Hok0.
    by destruct (get_weather_inv lat lon hours s0 _ _ Hok0 (surjective_pairing _))
      as [Hok' _]. }
  split; [by intros; apply Hgeo|]. split; [by intros; apply Hnear|].
  split.
  { intros a b c d hard_only natural_only.
    by destruct (get_trails_in_bbox_inv a b c d hard_only natural_only s _ _
                   Hok (surjective_pairing _)) as [Hok' _]. }
  split; [by intros; apply Hweather|]. split.
  - intros trail_name hours lat lon radius_km. unfold weather_for_trail, mbind, M_bind.
    destruct (candidates_for lat lon radius_km s) as [[l|e] s1] eqn:Hcand;
      apply candidates_for_inv in Hcand as (Hok1 & _); try done.
    by destruct (weather_for_candidates_inv l trail_name hours s1 _ _ Hok1
                   (surjective_pairing _)) as [Hok' _].
  - intros place radius_km hours. unfold recommend_near_place, mbind, M_bind.
    pose proof (Hgeo s place Hok) as Hok1.
    destruct (geocode_place place s) as [[loc|e] s1]; [|done]. simpl in Hok1.
    pose proof (Hnear s1 (loc_lat loc) (loc_lon loc) radius_km false true Hok1) as Hok2.
    destruct (get_trails_near _ _ _ _ _ s1) as [[trails|e] s2]; [|done]. simpl in Hok2.
    pose proof (Hweather s2 (loc_lat loc) (loc_lon loc) hours Hok2) as Hok3.
    by destruct (get_weather _ _ _ s2) as [[weather|e] s3].
Qed.

(** ** Sample ratios *)

Example ratio_abcx : (difflib.ratio "abcx" "abcd" == 3 # 4)%Q.
Proof. by vm_compute. Qed.

Example ratio_abcy : (difflib.ratio "abcy" "abcd" == 3 # 4)%Q.
Proof. by vm_compute. Qed.

(** The comparison is case-sensitive: the blocks are ["ing "], ["a "],
    ["e"] and ["k"]. *)
Example ratio_ha_ling :
  (difflib.ratio "Ha Ling Peak Trail" "ha ling peek" == 16 # 30)%Q.
Proof. by vm_compute. Qed.

Example clamp_hours_0 : _clamp_hours 0 = 1%Z.
Proof. reflexivity. Qed.

Example clamp_hours_48 : _clamp_hours 48 = 24%Z.
Proof. reflexivity. Qed.

(** * Further properties of the tools *)

(** ** [_clamp_radius_km] and the radius of a nearby query *)

Lemma py_gt_true (x y : Q) : Py.gt x y = true ↔ (y < x)%Q.
Proof. unfold Py.gt. apply py_lt_true. Qed.

Lemma py_gt_false (x y : Q) : Py.gt x y = false ↔ (x <= y)%Q.
Proof. unfold Py.gt. apply py_lt_false. Qed.

Lemma clamp_radius_cases (r : Q) :
  ((60 < r)%Q ∧ _clamp_radius_km r = 60%Q)
  ∨ ((r <= 1 # 2)%Q ∧ _clamp_radius_km r = (1 # 2)%Q)
  ∨ ((1 # 2 < r)%Q ∧ (r <= 60)%Q ∧ _clamp_radius_km r = r).
Proof.
  unfold _clamp_radius_km, Py.min2, Py.max2.
  destruct (Py.lt 60 r) eqn:Hhi.
  - left. by apply py_lt_true in Hhi.
  - apply py_lt_false in Hhi. destruct (Py.gt r (1 # 2)) eqn:Hlo.
    + apply py_gt_true in Hlo. by do 2 right.
    + apply py_gt_false in Hlo. right. by left.
Qed.

(** X1.  [_clamp_radius_km] brings every radius into [0.5, 60]: a radius
    in the range is kept, a smaller one becomes 0.5 and a larger one 60;
    the radius of the query, in metres, is between 500 and 60000. *)
Theorem clamp_radius_range (r : Q) :
  (1 # 2 <= _clamp_radius_km r)%Q ∧ (_clamp_radius_km r <= 60)%Q
  ∧ ((1 # 2 <= r)%Q → (r <= 60)%Q → (_clamp_radius_km r == r)%Q)
  ∧ ((r < 1 # 2)%Q → _clamp_radius_km r = (1 # 2)%Q)
  ∧ ((60 < r)%Q → _clamp_radius_km r = 60%Q)
  ∧ (500 <= Py.int (_clamp_radius_km r * 1000) <= 60000)%Z.
Proof.
  assert (Hrange : (1 # 2 <= _clamp_radius_km r)%Q ∧ (_clamp_radius_km r <= 60)%Q).
  { destruct (clamp_radius_cases r) as [[? ->]|[[? ->]|(? & ? & ->)]]; split; lra. }
  split; [apply Hrange|]. split; [apply Hrange|]. split; [|split; [|split]].
  - intros Hlo Hhi.
    destruct (clamp_radius_cases r) as [[? ->]|[[? ->]|(? & ? & ->)]]; lra.
  - intros Hlt.
    destruct (clamp_radius_cases r) as [[? ->]|[[? ->]|(? & ? & ->)]]; [lra|done|lra].
  - intros Hgt.
    destruct (clamp_radius_cases r) as [[? ->]|[[? ->]|(? & ? & ->)]]; [done|lra|lra].
  - destruct Hrange as [Hlo Hhi]. destruct (_clamp_radius_km r) as [n d].
    unfold Qle in Hlo, Hhi. simpl in Hlo, Hhi. unfold Py.int. simpl.
    rewrite Z.quot_div_nonneg by lia. split.
    + apply Z.div_le_lower_bound; lia.
    + apply Z.div_le_upper_bound; lia.
Qed.

Lemma clamp_radius_range_witness :
  (_clamp_radius_km 12 == 12)%Q
  ∧ _clamp_radius_km (1 # 10) = (1 # 2)%Q
  ∧ _clamp_radius_km 1000 = 60%Q.
Proof.
  destruct (clamp_radius_range 12) as (_ & _ & Hin & _).
  destruct (clamp_radius_range (1 # 10)) as (_ & _ & _ & Hlo & _).
  destruct (clamp_radius_range 1000) as (_ & _ & _ & _ & Hhi & _).
  split; [|split].
  - apply Hin; by vm_compute.
  - apply Hlo; by vm_compute.
  - apply Hhi; by vm_compute.
Defined.

(** X2.  The function under [get_trails_near] uses the radius only
    through [_clamp_radius_km]: it does for any radius what it does for
    the clamped one, so a radius above 60 behaves as 60 and a radius
    below 0.5 as 0.5; and whatever the radius, the call raises nothing
    but an upstream failure. *)
Theorem near_radius_is_clamped `{Upstream} (lat lon radius_km : Q)
    (hard_only natural_only : bool) (s : state) :
  get_trails_near_body (lat, lon, radius_km, hard_only, natural_only) s
  = get_trails_near_body (lat, lon, _clamp_radius_km radius_km, hard_only, natural_only) s
  ∧ ((60 < radius_km)%Q →
     get_trails_near_body (lat, lon, radius_km, hard_only, natural_only) s
     = get_trails_near_body (lat, lon, 60%Q, hard_only, natural_only) s)
  ∧ ((radius_km < 1 # 2)%Q →
     get_trails_near_body (lat, lon, radius_km, hard_only, natural_only) s
     = get_trails_near_body (lat, lon, (1 # 2)%Q, hard_only, natural_only) s)
  ∧ (tables_ok s →
     ∀ e s', get_trails_near lat lon radius_km hard_only natural_only s = (Raise e, s') →
             upstream_failure e).
Proof.
  assert (Hidem : _clamp_radius_km (_clamp_radius_km radius_km)
                  = _clamp_radius_km radius_km).
  { destruct (clamp_radius_cases radius_km) as [[? ->]|[[? ->]|(? & ? & Hr)]];
      [done|done|].
    rewrite Hr. done. }
  split; [|split; [|split]].
  - unfold get_trails_near_body. by rewrite Hidem.
  - intros Hgt. unfold get_trails_near_body.
    destruct (clamp_radius_cases radius_km) as [[? ->]|[[? ?]|(? & ? & ?)]];
      [done|lra|lra].
  - intros Hlt. unfold get_trails_near_body.
    destruct (clamp_radius_cases radius_km) as [[? ?]|[[? ->]|(? & ? & ?)]];
      [lra|done|lra].
  - intros Hok e s' Hrun.
    by apply get_trails_near_inv in Hrun as (_ & _ & He).
Qed.

Lemma near_radius_is_clamped_witness :
  @get_trails_near_body sample_upstream (51, -115, 1000, false, true)%Q initial_state
  = @get_trails_near_body sample_upstream (51, -115, 60, false, true)%Q initial_state
  ∧ @get_trails_near_body sample_upstream (51, -115, 1 # 10, false, true)%Q initial_state
    = @get_trails_near_body sample_upstream (51, -115, 1 # 2, false, true)%Q
        initial_state.
Proof.
  destruct (@near_radius_is_clamped sample_upstream 51 (-115) 1000 false true
              initial_state) as (_ & Hhi & _).
  destruct (@near_radius_is_clamped sample_upstream 51 (-115) (1 # 10) false true
              initial_state) as (_ & _ & Hlo & _).
  split; [apply Hhi|apply Hlo]; by vm_compute.
Defined.

(** ** Memoisation *)

Lemma table_find_head {K V} (eqb : K -> K -> bool) (k k' : K) (v : V) t :
  eqb k' k = true → table_find eqb k ((k', v) :: t) = Some (k', v).
Proof. intros Hk. simpl. by rewrite Hk. Qed.

Lemma table_remove_head {K V} (eqb : K -> K -> bool) (k k' : K) (v : V) t :
  eqb k' k = true → table_remove eqb k ((k', v) :: t) = t.
Proof. intros Hk. simpl. by rewrite Hk. Qed.

Lemma table_remove_length {K V} (eqb : K -> K -> bool) (k : K) (t : list (K * V)) kv :
  table_find eqb k t = Some kv → S (length (table_remove eqb k t)) = length t.
Proof.
  induction t as [|[k0 v0] t IH]; simpl; [done|].
  destruct (eqb k0 k); [done|]. intros Hfind. simpl. by rewrite IH.
Qed.

(** A call that returned is answered from the table when repeated at
    once, and the repetition changes nothing. *)
Lemma lru_cache_repeat {K V} (maxsize : nat) (eqb : K -> K -> bool)
    (get : state -> list (K * V)) (set : list (K * V) -> state -> state)
    (f : K -> M V) (k : K) (s s' : state) (v : V) :
  maxsize ≠ 0%nat → eqb k k = true →
  (∀ t s0, get (set t s0) = t) → (∀ t t' s0, set t (set t' s0) = set t s0) →
  lru_cache maxsize eqb get set f k s = (Ok v, s') →
  lru_cache maxsize eqb get set f k s' = (Ok v, s').
Proof.
  intros Hsize Hrefl Hgs Hss Hrun.
  apply lru_cache_inv in Hrun
    as [(k' & v' & Hfind & [= <-] & ->)|[Hmiss [(v' & s1 & Hbody & [= <-] & ->)|(e & _ & [=])]]].
  - apply table_find_elem in Hfind as [_ Hk]. unfold lru_cache.
    by rewrite Hgs, (table_find_head _ _ _ _ _ Hk), (table_remove_head _ _ _ _ _ Hk), Hss.
  - unfold lru_cache. rewrite Hgs. destruct maxsize as [|n]; [done|]. simpl.
    by rewrite Hrefl, Hss.
Qed.

Lemma near_key_eqb_refl (k : near_key) : near_key_eqb k k = true.
Proof.
  destruct k as [[[[lat lon] r] h] n]. unfold near_key_eqb.
  rewrite !andb_true_iff, !Qeq_bool_iff, !eqb_true_iff. done.
Qed.

Lemma bbox_key_eqb_refl (k : bbox_key) : bbox_key_eqb k k = true.
Proof.
  destruct k as [[[[[a b] c] d] h] n]. unfold bbox_key_eqb.
  rewrite !andb_true_iff, !Qeq_bool_iff, !eqb_true_iff. done.
Qed.

Lemma weather_key_eqb_refl (k : weather_key) : weather_key_eqb k k = true.
Proof.
  destruct k as [[lat lon] h]. unfold weather_key_eqb.
  rewrite !andb_true_iff, !Qeq_bool_iff, Z.eqb_eq. done.
Qed.

(** X3.  The three decorated functions memoise what they return: when a
    call has returned, the same call repeated at once returns the same
    value and leaves the state as it is, so it sends and prints
    nothing. *)
Theorem returned_calls_are_memoised `{Upstream} (s s' : state) :
  (∀ lat lon radius_km hard_only natural_only l,
     get_trails_near lat lon radius_km hard_only natural_only s = (Ok l, s') →
     get_trails_near lat lon radius_km hard_only natural_only s' = (Ok l, s'))
  ∧ (∀ min_lat min_lon max_lat max_lon hard_only natural_only l,
       get_trails_in_bbox min_lat min_lon max_lat max_lon hard_only natural_only s
         = (Ok l, s') →
       get_trails_in_bbox min_lat min_lon max_lat max_lon hard_only natural_only s'
         = (Ok l, s'))
  ∧ (∀ lat lon hours v,
       get_weather lat lon hours s = (Ok v, s') →
       get_weather lat lon hours s' = (Ok v, s')).
Proof.
  split; [|split].
  - intros lat lon radius_km hard_only natural_only l.
    apply lru_cache_repeat; [done|apply near_key_eqb_refl|done|done].
  - intros a b c d hard_only natural_only l.
    apply lru_cache_repeat; [done|apply bbox_key_eqb_refl|done|done].
  - intros lat lon hours v.
    apply lru_cache_repeat; [done|apply weather_key_eqb_refl|done|done].
Qed.

Lemma returned_calls_are_memoised_witness :
  let first := @get_trails_near sample_upstream 51 (-115) 12 false true initial_state in
  @get_trails_near sample_upstream 51 (-115) 12 false true first.2
  = (Ok sample_trails, first.2)
  ∧ let w := @get_weather sample_upstream 51 (-115) 12 initial_state in
    @get_weather sample_upstream 51 (-115) 12 w.2
    = (Ok (_slim_weather sample_forecast 12), w.2).
Proof.
  split.
  - apply (proj1 (@returned_calls_are_memoised sample_upstream initial_state _)).
    by vm_compute.
  - apply (proj2 (proj2 (@returned_calls_are_memoised sample_upstream initial_state _))).
    by vm_compute.
Defined.

Lemma get_trails_in_bbox_body_same_tables `{Upstream} k s r s' :
  get_trails_in_bbox_body k s = (r, s') → same_tables s s'.
Proof.
  destruct k as [[[[[a b] c] d] h] n]. unfold get_trails_in_bbox_body.
  destruct (Py.gt a c || Py.gt b d).
  - by intros [= <- <-].
  - by intros (Hsame & _)%overpass_fetch_inv.
Qed.

Lemma get_trails_near_body_same_tables `{Upstream} k s r s' :
  get_trails_near_body k s = (r, s') → same_tables s s'.
Proof.
  destruct k as [[[[lat lon] radius_km] h] n]. unfold get_trails_near_body.
  by intros (Hsame & _)%overpass_fetch_inv.
Qed.

Lemma get_weather_body_same_tables `{Upstream} k s r s' :
  get_weather_body k s = (r, s') → same_tables s s'.
Proof.
  destruct k as [[lat lon] hours]. by intros (Hsame & _)%get_weather_body_inv.
Qed.

(** X4.  A call that raises is not memoised: the three tables are what
    they were and hold no entry for the call, so the same call repeated
    runs the function again. *)
Theorem failed_calls_are_not_memoised `{Upstream} (s s' : state) (e : exn) :
  (∀ lat lon radius_km hard_only natural_only,
     get_trails_near lat lon radius_km hard_only natural_only s = (Raise e, s') →
     same_tables s s'
     ∧ table_find near_key_eqb (lat, lon, radius_km, hard_only, natural_only)
         (near_table s') = None)
  ∧ (∀ min_lat min_lon max_lat max_lon hard_only natural_only,
       get_trails_in_bbox min_lat min_lon max_lat max_lon hard_only natural_only s
         = (Raise e, s') →
       same_tables s s'
       ∧ table_find bbox_key_eqb
           (min_lat, min_lon, max_lat, max_lon, hard_only, natural_only)
           (bbox_table s') = None)
  ∧ (∀ lat lon hours,
       get_weather lat lon hours s = (Raise e, s') →
       same_tables s s'
       ∧ table_find weather_key_eqb (lat, lon, hours) (weather_table s') = None).
Proof.
  split; [|split].
  - intros lat lon radius_km hard_only natural_only Hrun.
    apply lru_cache_inv in Hrun
      as [(k' & v & _ & [=] & _)|[Hmiss [(v & s1 & _ & [=] & _)|(e' & Hbody & _)]]].
    apply get_trails_near_body_same_tables in Hbody as Hsame.
    split; [done|]. destruct Hsame as (-> & _). done.
  - intros a b c d hard_only natural_only Hrun.
    apply lru_cache_inv in Hrun
      as [(k' & v & _ & [=] & _)|[Hmiss [(v & s1 & _ & [=] & _)|(e' & Hbody & _)]]].
    apply get_trails_in_bbox_body_same_tables in Hbody as Hsame.
    split; [done|]. destruct Hsame as (_ & -> & _). done.
  - intros lat lon hours Hrun.
    apply lru_cache_inv in Hrun
      as [(k' & v & _ & [=] & _)|[Hmiss [(v & s1 & _ & [=] & _)|(e' & Hbody & _)]]].
    apply get_weather_body_same_tables in Hbody as Hsame.
    split; [done|]. destruct Hsame as (_ & _ & ->). done.
Qed.

Lemma failed_calls_are_not_memoised_witness :
  let run := @get_trails_near failing_upstream 51 (-115) 12 false true initial_state in
  same_tables initial_state run.2
  ∧ table_find near_key_eqb (51, -115, 12, false, true)%Q (near_table run.2) = None.
Proof.
  intros run.
  apply (proj1 (@failed_calls_are_not_memoised failing_upstream initial_state
                  run.2 (HTTPError 503))).
  by vm_compute.
Defined.

(** ** The tables stay within their sizes *)

Lemma lru_cache_bounded {K V} (maxsize : nat) (eqb : K -> K -> bool)
    (get : state -> list (K * V)) (set : list (K * V) -> state -> state)
    (f : K -> M V) (k : K) (s s' : state) (r : result V) :
  (∀ t s0, get (set t s0) = t) →
  (∀ s0 r0 s1, f k s0 = (r0, s1) → get s1 = get s0) →
  (length (get s) ≤ maxsize)%nat →
  lru_cache maxsize eqb get set f k s = (r, s') →
  (length (get s') ≤ maxsize)%nat.
Proof.
  intros Hgs Hkeep Hlen Hrun.
  apply lru_cache_inv in Hrun
    as [(k' & v & Hfind & -> & ->)|[Hmiss [(v & s1 & Hbody & -> & ->)|(e & Hbody & ->)]]].
  - rewrite Hgs. simpl. by rewrite (table_remove_length _ _ _ _ Hfind).
  - rewrite Hgs, length_take. lia.
  - by rewrite (Hkeep _ _ _ Hbody).
Qed.

Lemma decorated_keep_bounds `{Upstream} (s : state) :
  tables_bounded s →
  (∀ lat lon radius_km hard_only natural_only,
     tables_bounded (get_trails_near lat lon radius_km hard_only natural_only s).2)
  ∧ (∀ a b c d hard_only natural_only,
       tables_bounded (get_trails_in_bbox a b c d hard_only natural_only s).2)
  ∧ (∀ lat lon hours, tables_bounded (get_weather lat lon hours s).2).
Proof.
  intros (Hn & Hb & Hw).
  assert (Hother : ∀ {K V} maxsize (eqb : K → K → bool) get set (f : K → M V) k
                     (proj : state → nat) r s',
            (∀ t s0, proj (set t s0) = proj s0) →
            (∀ s0 r0 s1, f k s0 = (r0, s1) → proj s1 = proj s0) →
            lru_cache maxsize eqb get set f k s = (r, s') → proj s' = proj s).
  { intros K V maxsize eqb get set f k proj r s' Hps Hpf Hrun.
    apply lru_cache_inv in Hrun
      as [(k' & v & _ & _ & ->)|[_ [(v & s1 & Hbody & _ & ->)|(e & Hbody & _)]]].
    - apply Hps.
    - rewrite Hps. by eapply Hpf.
    - by eapply Hpf. }
  split; [|split].
  - intros lat lon radius_km hard_only natural_only.
    destruct (get_trails_near _ _ _ _ _ s) as [r s'] eqn:Hrun. simpl.
    assert (Hbody : ∀ s0 r0 s1,
              get_trails_near_body (lat, lon, radius_km, hard_only, natural_only) s0
              = (r0, s1) → same_tables s0 s1)
      by (intros; by eapply get_trails_near_body_same_tables).
    split; [|split].
    + eapply lru_cache_bounded; [| |exact Hn|exact Hrun]; [done|].
      intros s0 r0 s1 Hb0. by apply Hbody in Hb0 as (-> & _).
    + erewrite (Hother _ _ _ _ _ _ _ _ (fun s => length (bbox_table s)));
        [exact Hb| | |exact Hrun]; [done|].
      intros s0 r0 s1 Hb0. by apply Hbody in Hb0 as (_ & -> & _).
    + erewrite (Hother _ _ _ _ _ _ _ _ (fun s => length (weather_table s)));
        [exact Hw| | |exact Hrun]; [done|].
      intros s0 r0 s1 Hb0. by apply Hbody in Hb0 as (_ & _ & ->).
  - intros a b c d hard_only natural_only.
    destruct (get_trails_in_bbox _ _ _ _ _ _ s) as [r s'] eqn:Hrun. simpl.
    assert (Hbody : ∀ s0 r0 s1,
              get_trails_in_bbox_body (a, b, c, d, hard_only, natural_only) s0
              = (r0, s1) → same_tables s0 s1)
      by (intros; by eapply get_trails_in_bbox_body_same_tables).
    split; [|split].
    + erewrite (Hother _ _ _ _ _ _ _ _ (fun s => length (near_table s)));
        [exact Hn| | |exact Hrun]; [done|].
      intros s0 r0 s1 Hb0. by apply Hbody in Hb0 as (-> & _).
    + eapply lru_cache_bounded; [| |exact Hb|exact Hrun]; [done|].
      intros s0 r0 s1 Hb0. by apply Hbody in Hb0 as (_ & -> & _).
    + erewrite (Hother _ _ _ _ _ _ _ _ (fun s => length (weather_table s)));
        [exact Hw| | |exact Hrun]; [done|].
      intros s0 r0 s1 Hb0. by apply Hbody in Hb0 as (_ & _ & ->).
  - intros lat lon hours.
    destruct (get_weather _ _ _ s) as [r s'] eqn:Hrun. simpl.
    assert (Hbody : ∀ s0 r0 s1,
              get_weather_body (lat, lon, hours) s0 = (r0, s1) → same_tables s0 s1)
      by (intros; by eapply get_weather_body_same_tables).
    split; [|split].
    + erewrite (Hother _ _ _ _ _ _ _ _ (fun s => length (near_table s)));
        [exact Hn| | |exact Hrun]; [done|].
      intros s0 r0 s1 Hb0. by apply Hbody in Hb0 as (-> & _).
    + erewrite (Hother _ _ _ _ _ _ _ _ (fun s => length (bbox_table s)));
        [exact Hb| | |exact Hrun]; [done|].
      intros s0 r0 s1 Hb0. by apply Hbody in Hb0 as (_ & -> & _).
    + eapply lru_cache_bounded; [| |exact Hw|exact Hrun]; [done|].
      intros s0 r0 s1 Hb0. by apply Hbody in Hb0 as (_ & _ & ->).
Qed.

(** X5.  The memoisation tables never grow beyond the sizes given to the
    decorators (256 nearby queries, 64 bounding-box queries, 256
    forecasts): within them at the start, they are within them after any
    tool has run. *)
Theorem tables_stay_bounded `{Upstream} (s : state) :
  tables_bounded s →
  (∀ place, tables_bounded (geocode_place place s).2)
  ∧ (∀ lat lon radius_km hard_only natural_only,
       tables_bounded (get_trails_near lat lon radius_km hard_only natural_only s).2)
  ∧ (∀ min_lat min_lon max_lat max_lon hard_only natural_only,
       tables_bounded (get_trails_in_bbox min_lat min_lon max_lat max_lon
                         hard_only natural_only s).2)
  ∧ (∀ lat lon hours, tables_bounded (get_weather lat lon hours s).2)
  ∧ (∀ trail_name hours lat lon radius_km,
       tables_bounded (weather_for_trail trail_name hours lat lon radius_km s).2)
  ∧ (∀ place radius_km hours,
       tables_bounded (recommend_near_place place radius_km hours s).2).
Proof.
  intros Hb.
  assert (Hgeo : ∀ s0 place, tables_bounded s0 → tables_bounded (geocode_place place s0).2).
  { intros s0 place Hb0.
    destruct (geocode_place_inv place s0 _ _ (surjective_pairing _))
      as [(En & Eb & Ew) _].
    unfold tables_bounded. by rewrite En, Eb, Ew. }
  pose proof (fun s0 Hb0 => proj1 (decorated_keep_bounds s0 Hb0)) as Hnear.
  pose proof (fun s0 Hb0 => proj1 (proj2 (decorated_keep_bounds s0 Hb0))) as Hbbox.
  pose proof (fun s0 Hb0 => proj2 (proj2 (decorated_keep_bounds s0 Hb0))) as Hweather.
  split; [by intros; apply Hgeo|]. split; [by apply Hnear|].
  split; [by apply Hbbox|]. split; [by apply Hweather|]. split.
  - intros trail_name hours lat lon radius_km. unfold weather_for_trail, mbind, M_bind.
    assert (Hcand : tables_bounded (candidates_for lat lon radius_km s).2).
    { unfold candidates_for. destruct lat, lon; simpl;
        (by apply Hnear) || (by apply Hbbox). }
    destruct (candidates_for lat lon radius_km s) as [[l|e] s1]; [|done].
    simpl in Hcand. unfold weather_for_candidates.
    destruct l as [|c0 rest]; [done|].
    destruct (_pick_by_name (c0 :: rest) trail_name) as [chosen|]; [|done].
    destruct (tr_lat chosen) as [tlat|]; [|done].
    destruct (tr_lon chosen) as [tlon|]; [|done].
    unfold mbind, M_bind.
    pose proof (Hweather s1 Hcand tlat tlon hours) as Hw.
    by destruct (get_weather tlat tlon hours s1) as [[fc|e] s2].
  - intros place radius_km hours. unfold recommend_near_place, mbind, M_bind.
    pose proof (Hgeo s place Hb) as Hb1.
    destruct (geocode_place place s) as [[loc|e] s1]; [|done]. simpl in Hb1.
    pose proof (Hnear s1 Hb1 (loc_lat loc) (loc_lon loc) radius_km false true) as Hb2.
    destruct (get_trails_near _ _ _ _ _ s1) as [[trails|e] s2]; [|done]. simpl in Hb2.
    pose proof (Hweather s2 Hb2 (loc_lat loc) (loc_lon loc) hours) as Hb3.
    by destruct (get_weather _ _ _ s2) as [[weather|e] s3].
Qed.

Lemma tables_stay_bounded_witness :
  tables_bounded
    (@recommend_near_place sample_upstream "Canmore" 12 12 initial_state).2.
Proof.
  refine (proj2 (proj2 (proj2 (proj2 (proj2
            (@tables_stay_bounded sample_upstream initial_state _)))))
            "Canmore" 12%Q 12%Z).
  repeat split; simpl; lia.
Defined.

(** ** What the tools make of an answer *)

Lemma error_status_bool (status : Z) :
  (400 <=? status)%Z && (status <? 600)%Z = true ↔ error_status status.
Proof. unfold error_status. rewrite andb_true_iff, Z.leb_le, Z.ltb_lt. done. Qed.

Lemma overpass_fetch_cases `{Upstream} (ql : string) (timeout : Z) (label : string)
    (s : state) :
  let rq := overpass_request ql timeout in
  match overpass (log s) rq with
  | inl f =>
      overpass_fetch ql timeout label s = (Raise (RequestException f), logged s [Sent rq])
  | inr resp =>
      let diag := if bool_decide (status_code resp ≠ 200%Z)
                  then [Printed (label +:+ " " +:+ substring 0 2000 (text resp))]
                  else [] in
      overpass_fetch ql timeout label s
      = (if (400 <=? status_code resp)%Z && (status_code resp <? 600)%Z
         then Raise (HTTPError (status_code resp))
         else match json resp with
              | None => Raise JSONDecodeError
              | Some body => Ok (_normalize (default [] (ob_elements body)))
              end,
         logged s (Sent rq :: diag))
  end.
Proof.
  intros rq. unfold overpass_fetch, mbind, M_bind, exchange. fold rq.
  destruct (overpass (log s) rq) as [f|resp]; [done|].
  unfold print, emit, raise_for_status, json_of, raise, mret, M_ret, logged.
  destruct (bool_decide (status_code resp ≠ 200%Z)); simpl;
    destruct ((400 <=? status_code resp)%Z && (status_code resp <? 600)%Z); simpl;
    destruct (json resp); simpl; rewrite <- ?app_assoc; done.
Qed.

(** X6.  How [get_trails_near] treats the trail service when the call is
    not in its table.  It sends one request.  A failed exchange raises
    [RequestException].  An answer whose status is not 200 is printed
    (label and the first 2000 characters of the body) before anything
    else; a status from 400 to 599 then raises [HTTPError] and nothing is
    memoised; any other status is decoded, so an undecodable body raises
    [JSONDecodeError], and a decoded one returns [_normalize] of its
    elements (of no element when the key is missing), which is stored in
    the table. *)
Theorem near_answer_handling `{Upstream} (lat lon radius_km : Q)
    (hard_only natural_only : bool) (s : state) :
  let key := (lat, lon, radius_km, hard_only, natural_only) in
  let rq := overpass_request
              (_overpass_query_near lat lon
                 (Py.int (_clamp_radius_km radius_km * 1000)) hard_only natural_only)
              30 in
  let run := get_trails_near lat lon radius_km hard_only natural_only s in
  table_find near_key_eqb key (near_table s) = None →
  (∀ f, overpass (log s) rq = inl f →
        run = (Raise (RequestException f), logged s [Sent rq]))
  ∧ (∀ resp, overpass (log s) rq = inr resp →
       let diag := if bool_decide (status_code resp ≠ 200%Z)
                   then [Printed ("Overpass error body (near): "
                                  +:+ substring 0 2000 (text resp))]
                   else [] in
       (error_status (status_code resp) →
        run = (Raise (HTTPError (status_code resp)), logged s (Sent rq :: diag)))
       ∧ (¬ error_status (status_code resp) → json resp = None →
          run = (Raise JSONDecodeError, logged s (Sent rq :: diag)))
       ∧ (¬ error_status (status_code resp) →
          ∀ body, json resp = Some body →
            let l := _normalize (default [] (ob_elements body)) in
            run = (Ok l,
                   set_near_table (take 256 ((key, l) :: near_table s))
                     (logged s (Sent rq :: diag))))).
Proof.
  intros key rq run Hmiss.
  assert (Hrun : run = match get_trails_near_body key s with
                       | (Ok v, s') =>
                           (Ok v, set_near_table (take 256 ((key, v) :: near_table s')) s')
                       | (Raise e, s') => (Raise e, s')
                       end).
  { unfold run, get_trails_near, lru_cache. fold key. by rewrite Hmiss. }
  unfold get_trails_near_body, key in Hrun. fold rq in Hrun.
  pose proof (overpass_fetch_cases
                (_overpass_query_near lat lon
                   (Py.int (_clamp_radius_km radius_km * 1000)) hard_only natural_only)
                30 "Overpass error body (near):" s) as Hfetch.
  simpl in Hfetch. fold rq in Hfetch.
  split.
  - intros f Hf. rewrite Hf in Hfetch. by rewrite Hrun, Hfetch.
  - intros resp Hresp diag. rewrite Hresp in Hfetch. rewrite Hfetch in Hrun.
    clear Hfetch. split; [|split].
    + intros Herr%error_status_bool. by rewrite Herr in Hrun.
    + intros Hok Hjson.
      destruct ((400 <=? status_code resp)%Z && (status_code resp <? 600)%Z) eqn:Hst;
        [by apply error_status_bool in Hst|].
      by rewrite Hjson in Hrun.
    + intros Hok body Hjson l.
      destruct ((400 <=? status_code resp)%Z && (status_code resp <? 600)%Z) eqn:Hst;
        [by apply error_status_bool in Hst|].
      by rewrite Hjson in Hrun.
Qed.

Lemma near_answer_handling_witness :
  (@get_trails_near failing_upstream 51 (-115) 12 false true initial_state).1
  = Raise (HTTPError 503)
  ∧ (@get_trails_near sample_upstream 51 (-115) 12 false true initial_state).1
    = Ok sample_trails.
Proof.
  split.
  - destruct (proj2 (@near_answer_handling failing_upstream 51 (-115) 12 false true
                       initial_state eq_refl)
                (mk_response 503 "Service Unavailable" None) eq_refl)
      as (Herr & _).
    rewrite Herr; [reflexivity|]. unfold error_status. simpl. lia.
  - destruct (proj2 (@near_answer_handling sample_upstream 51 (-115) 12 false true
                       initial_state eq_refl)
                (mk_response 200 "{...}" (Some (mk_overpass_body (Some sample_elements))))
                eq_refl)
      as (_ & _ & Hok).
    rewrite (Hok ltac:(unfold error_status; simpl; lia) _ eq_refl). reflexivity.
Defined.

(** X7.  [get_trails_in_bbox] treats the trail service the same way for a
    box that is not inverted and not in its table: one request with a
    60-second timeout, the answer printed when its status is not 200,
    [HTTPError] for a status from 400 to 599, [JSONDecodeError] for an
    undecodable body, and otherwise the normalized elements, stored in
    the table. *)
Theorem bbox_answer_handling `{Upstream} (min_lat min_lon max_lat max_lon : Q)
    (hard_only natural_only : bool) (s : state) :
  let key := (min_lat, min_lon, max_lat, max_lon, hard_only, natural_only) in
  let rq := overpass_request
              (_overpass_query_bbox min_lat min_lon max_lat max_lon
                 hard_only natural_only) 60 in
  let run := get_trails_in_bbox min_lat min_lon max_lat max_lon
               hard_only natural_only s in
  (min_lat <= max_lat)%Q → (min_lon <= max_lon)%Q →
  table_find bbox_key_eqb key (bbox_table s) = None →
  (∀ f, overpass (log s) rq = inl f →
        run = (Raise (RequestException f), logged s [Sent rq]))
  ∧ (∀ resp, overpass (log s) rq = inr resp →
       let diag := if bool_decide (status_code resp ≠ 200%Z)
                   then [Printed ("Overpass error body (bbox): "
                                  +:+ substring 0 2000 (text resp))]
                   else [] in
       (error_status (status_code resp) →
        run = (Raise (HTTPError (status_code resp)), logged s (Sent rq :: diag)))
       ∧ (¬ error_status (status_code resp) → json resp = None →
          run = (Raise JSONDecodeError, logged s (Sent rq :: diag)))
       ∧ (¬ error_status (status_code resp) →
          ∀ body, json resp = Some body →
            let l := _normalize (default [] (ob_elements body)) in
            run = (Ok l,
                   set_bbox_table (take 64 ((key, l) :: bbox_table s))
                     (logged s (Sent rq :: diag))))).
Proof.
  intros key rq run Hlat Hlon Hmiss.
  assert (Hvalid : Py.gt min_lat max_lat || Py.gt min_lon max_lon = false).
  { apply orb_false_iff. by rewrite !py_gt_false. }
  assert (Hrun : run = match get_trails_in_bbox_body key s with
                       | (Ok v, s') =>
                           (Ok v, set_bbox_table (take 64 ((key, v) :: bbox_table s')) s')
                       | (Raise e, s') => (Raise e, s')
                       end).
  { unfold run, get_trails_in_bbox, lru_cache. fold key. by rewrite Hmiss. }
  unfold get_trails_in_bbox_body, key in Hrun. rewrite Hvalid in Hrun. fold rq in Hrun.
  pose proof (overpass_fetch_cases
                (_overpass_query_bbox min_lat min_lon max_lat max_lon
                   hard_only natural_only)
                60 "Overpass error body (bbox):" s) as Hfetch.
  simpl in Hfetch. fold rq in Hfetch.
  split.
  - intros f Hf. rewrite Hf in Hfetch. by rewrite Hrun, Hfetch.
  - intros resp Hresp diag. rewrite Hresp in Hfetch. rewrite Hfetch in Hrun.
    clear Hfetch. split; [|split].
    + intros Herr%error_status_bool. by rewrite Herr in Hrun.
    + intros Hok Hjson.
      destruct ((400 <=? status_code resp)%Z && (status_code resp <? 600)%Z) eqn:Hst;
        [by apply error_status_bool in Hst|].
      by rewrite Hjson in Hrun.
    + intros Hok body Hjson l.
      destruct ((400 <=? status_code resp)%Z && (status_code resp <? 600)%Z) eqn:Hst;
        [by apply error_status_bool in Hst|].
      by rewrite Hjson in Hrun.
Qed.

Lemma bbox_answer_handling_witness :
  (@get_trails_in_bbox failing_upstream 49 (-120) 60 (-110) false true initial_state).1
  = Raise (HTTPError 503)
  ∧ (@get_trails_in_bbox empty_upstream 49 (-120) 60 (-110) false true initial_state).1
    = Ok [].
Proof.
  split.
  - destruct (proj2 (@bbox_answer_handling failing_upstream 49 (-120) 60 (-110)
                       false true initial_state
                       ltac:(by vm_compute) ltac:(by vm_compute) eq_refl)
                (mk_response 503 "Service Unavailable" None) eq_refl)
      as (Herr & _).
    rewrite Herr; [reflexivity|]. unfold error_status. simpl. lia.
  - destruct (proj2 (@bbox_answer_handling empty_upstream 49 (-120) 60 (-110)
                       false true initial_state
                       ltac:(by vm_compute) ltac:(by vm_compute) eq_refl)
                (mk_response 200 "{...}" (Some (mk_overpass_body (Some [])))) eq_refl)
      as (_ & _ & Hok).
    rewrite (Hok ltac:(unfold error_status; simpl; lia) _ eq_refl). reflexivity.
Defined.

(** X8.  [geocode_place] sends exactly one request per call, for the
    place followed by [", Alberta, Canada"] with a limit of 1, prints
    nothing and keeps no table.  A failed exchange raises
    [RequestException], a status from 400 to 599 [HTTPError], an
    undecodable body [JSONDecodeError], an empty list of hits the
    [ValueError] "Could not geocode"; otherwise only the first hit is
    read: its [lat] and then its [lon] are parsed, and the first one that
    is not a number raises [ValueError]. *)
Theorem geocode_answer_handling `{Upstream} (place : string) (s : state) :
  let rq := geocode_request place in
  let run := geocode_place place s in
  run.2 = logged s [Sent rq]
  ∧ rq_params rq !! 0%nat = Some ("q", VStr (place +:+ ", Alberta, Canada"))
  ∧ (∀ f, nominatim (log s) rq = inl f → run.1 = Raise (RequestException f))
  ∧ (∀ resp, nominatim (log s) rq = inr resp →
       (error_status (status_code resp) →
        run.1 = Raise (HTTPError (status_code resp)))
       ∧ (¬ error_status (status_code resp) →
          (json resp = None → run.1 = Raise JSONDecodeError)
          ∧ (json resp = Some [] →
             run.1 = Raise (ValueError ("Could not geocode '" +:+ place
                                        +:+ "' in Alberta.")))
          ∧ (∀ first rest, json resp = Some (first :: rest) →
               (parse_float (g_lat first) = None →
                run.1 = Raise (ValueError ("could not convert string to float: '"
                                           +:+ g_lat first +:+ "'")))
               ∧ (∀ lat, parse_float (g_lat first) = Some lat →
                    parse_float (g_lon first) = None →
                    run.1 = Raise (ValueError ("could not convert string to float: '"
                                               +:+ g_lon first +:+ "'")))
               ∧ (∀ lat lon, parse_float (g_lat first) = Some lat →
                    parse_float (g_lon first) = Some lon →
                    run.1 = Ok {| loc_lat := lat; loc_lon := lon |})))).
Proof.
  intros rq run.
  assert (Hrun : run = match nominatim (log s) rq with
                       | inl f => (Raise (RequestException f), logged s [Sent rq])
                       | inr resp =>
                           (if (400 <=? status_code resp)%Z && (status_code resp <? 600)%Z
                            then Raise (HTTPError (status_code resp))
                            else match json resp with
                                 | None => Raise JSONDecodeError
                                 | Some [] =>
                                     Raise (ValueError ("Could not geocode '" +:+ place
                                                        +:+ "' in Alberta."))
                                 | Some (first :: _) =>
                                     match parse_float (g_lat first) with
                                     | None =>
                                         Raise (ValueError
                                                  ("could not convert string to float: '"
                                                   +:+ g_lat first +:+ "'"))
                                     | Some lat =>
                                         match parse_float (g_lon first) with
                                         | None =>
                                             Raise (ValueError
                                                      ("could not convert string to float: '"
                                                       +:+ g_lon first +:+ "'"))
                                         | Some lon =>
                                             Ok {| loc_lat := lat; loc_lon := lon |}
                                         end
                                     end
                                 end,
                            logged s [Sent rq])
                       end).
  { unfold run, geocode_place, mbind, M_bind, exchange. fold rq.
    destruct (nominatim (log s) rq) as [f|resp]; [done|].
    unfold raise_for_status, json_of, float_of_str, raise, mret, M_ret, logged.
    destruct ((400 <=? status_code resp)%Z && (status_code resp <? 600)%Z); simpl;
      [done|].
    destruct (json resp) as [[|first rest]|]; simpl; [done| |done].
    destruct (parse_float (g_lat first)); simpl; [|done].
    by destruct (parse_float (g_lon first)). }
  split; [rewrite Hrun; by destruct (nominatim (log s) rq)|].
  split; [done|]. split.
  - intros f Hf. by rewrite Hrun, Hf.
  - intros resp Hresp. rewrite Hresp in Hrun. split.
    + intros Herr%error_status_bool. by rewrite Hrun, Herr.
    + intros Hok.
      destruct ((400 <=? status_code resp)%Z && (status_code resp <? 600)%Z) eqn:Hst;
        [by apply error_status_bool in Hst|].
      split; [|split].
      * intros Hjson. by rewrite Hrun, Hjson.
      * intros Hjson. by rewrite Hrun, Hjson.
      * intros first rest Hjson. rewrite Hjson in Hrun. split; [|split].
        -- intros Hlat. by rewrite Hrun, Hlat.
        -- intros lat Hlat Hlon. by rewrite Hrun, Hlat, Hlon.
        -- intros lat lon Hlat Hlon. by rewrite Hrun, Hlat, Hlon.
Qed.

Lemma geocode_answer_handling_witness :
  (@geocode_place sample_upstream "Canmore" initial_state).1
  = Ok {| loc_lat := (5109 # 100)%Q; loc_lon := (-11535 # 100)%Q |}.
Proof.
  destruct (@geocode_answer_handling sample_upstream "Canmore" initial_state)
    as (_ & _ & _ & Hanswer).
  destruct (Hanswer (mk_response 200 "[...]" (Some [mk_geo_hit "51.09" "-115.35"]))
              eq_refl) as [_ Hok].
  destruct (Hok ltac:(unfold error_status; simpl; lia)) as (_ & _ & Hhit).
  destruct (Hhit (mk_geo_hit "51.09" "-115.35") [] eq_refl) as (_ & _ & Hboth).
  apply Hboth; reflexivity.
Defined.

(** X9.  How [get_weather] treats the forecast service when the call is
    not in its table: it sends one request for the clamped hour count and
    prints nothing; a failed exchange raises [RequestException], a status
    from 400 to 599 [HTTPError], an undecodable body [JSONDecodeError],
    and in these cases nothing is memoised; any other answer returns its
    slice, stored in the table under the hours as given. *)
Theorem weather_answer_handling `{Upstream} (lat lon : Q) (hours : Z) (s : state) :
  let key := (lat, lon, hours) in
  let rq := weather_request lat lon (_clamp_hours hours) in
  let run := get_weather lat lon hours s in
  table_find weather_key_eqb key (weather_table s) = None →
  rq_params rq !! 3%nat = Some ("forecast_hours", VInt (_clamp_hours hours))
  ∧ (∀ f, open_meteo (log s) rq = inl f →
        run = (Raise (RequestException f), logged s [Sent rq]))
  ∧ (∀ resp, open_meteo (log s) rq = inr resp →
       (error_status (status_code resp) →
        run = (Raise (HTTPError (status_code resp)), logged s [Sent rq]))
       ∧ (¬ error_status (status_code resp) → json resp = None →
          run = (Raise JSONDecodeError, logged s [Sent rq]))
       ∧ (¬ error_status (status_code resp) →
          ∀ data, json resp = Some data →
            let v := _slim_weather data (_clamp_hours hours) in
            run = (Ok v,
                   set_weather_table (take 256 ((key, v) :: weather_table s))
                     (logged s [Sent rq])))).
Proof.
  intros key rq run Hmiss.
  assert (Hrun : run = match open_meteo (log s) rq with
                       | inl f => (Raise (RequestException f), logged s [Sent rq])
                       | inr resp =>
                           if (400 <=? status_code resp)%Z && (status_code resp <? 600)%Z
                           then (Raise (HTTPError (status_code resp)), logged s [Sent rq])
                           else match json resp with
                                | None => (Raise JSONDecodeError, logged s [Sent rq])
                                | Some data =>
                                    let v := _slim_weather data (_clamp_hours hours) in
                                    (Ok v,
                                     set_weather_table
                                       (take 256 ((key, v) :: weather_table s))
                                       (logged s [Sent rq]))
                                end
                       end).
  { unfold run, get_weather, lru_cache. fold key. rewrite Hmiss.
    unfold get_weather_body, key, mbind, M_bind, exchange. fold rq.
    destruct (open_meteo (log s) rq) as [f|resp]; [done|].
    unfold raise_for_status, json_of, raise, mret, M_ret, logged.
    destruct ((400 <=? status_code resp)%Z && (status_code resp <? 600)%Z); simpl;
      [done|].
    by destruct (json resp). }
  split; [done|]. split.
  - intros f Hf. by rewrite Hrun, Hf.
  - intros resp Hresp. rewrite Hresp in Hrun. split; [|split].
    + intros Herr%error_status_bool. by rewrite Hrun, Herr.
    + intros Hok Hjson.
      destruct ((400 <=? status_code resp)%Z && (status_code resp <? 600)%Z) eqn:Hst;
        [by apply error_status_bool in Hst|].
      by rewrite Hrun, Hjson.
    + intros Hok data Hjson v.
      destruct ((400 <=? status_code resp)%Z && (status_code resp <? 600)%Z) eqn:Hst;
        [by apply error_status_bool in Hst|].
      by rewrite Hrun, Hjson.
Qed.

Lemma weather_answer_handling_witness :
  @get_weather failing_upstream 51 (-115) 48 initial_state
  = (Raise (RequestException Timeout),
     logged initial_state [Sent (@weather_request 51 (-115) 24)]).
Proof.
  destruct (@weather_answer_handling failing_upstream 51 (-115) 48 initial_state
              eq_refl) as (_ & Hfail & _).
  apply Hfail. reflexivity.
Defined.

(** ** [_normalize_name] *)

Lemma lower_char_idemp (c : ascii) : Py.lower_char (Py.lower_char c) = Py.lower_char c.
Proof. destruct c as [[] [] [] [] [] [] [] []]; reflexivity. Qed.

Lemma is_space_lower_char (c : ascii) : Py.is_space (Py.lower_char c) = Py.is_space c.
Proof. destruct c as [[] [] [] [] [] [] [] []]; reflexivity. Qed.

Lemma lower_idemp (s : string) : Py.lower (Py.lower s) = Py.lower s.
Proof. induction s as [|c s IH]; simpl; [done|]. by rewrite lower_char_idemp, IH. Qed.

Lemma lstrip_lower (s : string) : Py.lstrip (Py.lower s) = Py.lower (Py.lstrip s).
Proof.
  induction s as [|c s IH]; simpl; [done|].
  rewrite is_space_lower_char. by destruct (Py.is_space c).
Qed.

Lemma rstrip_lower (s : string) : Py.rstrip (Py.lower s) = Py.lower (Py.rstrip s).
Proof.
  induction s as [|c s IH]; simpl; [done|].
  rewrite IH, is_space_lower_char.
  destruct (Py.rstrip s); simpl; [by destruct (Py.is_space c)|done].
Qed.

Lemma strip_lower (s : string) : Py.strip (Py.lower s) = Py.lower (Py.strip s).
Proof. unfold Py.strip. by rewrite lstrip_lower, rstrip_lower. Qed.

Lemma rstrip_idemp (s : string) : Py.rstrip (Py.rstrip s) = Py.rstrip s.
Proof.
  induction s as [|c s IH]; simpl; [done|].
  destruct (Py.rstrip s) as [|d r] eqn:Hr.
  - destruct (Py.is_space c) eqn:Hc; simpl; [done|]. by rewrite Hc.
  - simpl in *. by rewrite IH.
Qed.

(** A string that does not start with white space is left alone by
    [lstrip], and [rstrip] keeps its first character. *)
Lemma rstrip_keeps_head (c : ascii) (s : string) :
  Py.is_space c = false → ∃ r, Py.rstrip (String c s) = String c r.
Proof.
  intros Hc. simpl. destruct (Py.rstrip s); [rewrite Hc|]; by eexists.
Qed.

Lemma lstrip_head (s : string) :
  Py.lstrip s = "" ∨ ∃ c r, Py.lstrip s = String c r ∧ Py.is_space c = false.
Proof.
  induction s as [|c s IH]; simpl; [by left|].
  destruct (Py.is_space c) eqn:Hc; [done|]. right. by exists c, s.
Qed.

Lemma strip_idemp (s : string) : Py.strip (Py.strip s) = Py.strip s.
Proof.
  unfold Py.strip. destruct (lstrip_head s) as [->|(c & r & -> & Hc)]; [done|].
  destruct (rstrip_keeps_head c r Hc) as [r' Hr]. rewrite Hr.
  assert (Hl : Py.lstrip (String c r') = String c r') by (simpl; by rewrite Hc).
  rewrite Hl, <- Hr. apply rstrip_idemp.
Qed.

Lemma lstrip_pad (ws s : string) :
  all_space ws = true → Py.lstrip (ws +:+ s) = Py.lstrip s.
Proof.
  induction ws as [|c ws IH]; simpl; [done|].
  intros [Hc Hws]%andb_true_iff. rewrite Hc. by apply IH.
Qed.

Lemma rstrip_all_space (ws : string) : all_space ws = true → Py.rstrip ws = "".
Proof.
  induction ws as [|c ws IH]; simpl; [done|].
  intros [Hc Hws]%andb_true_iff. by rewrite IH, Hc.
Qed.

Lemma rstrip_pad (s ws : string) :
  all_space ws = true → Py.rstrip (s +:+ ws) = Py.rstrip s.
Proof.
  intros Hws. induction s as [|c s IH]; simpl; [by apply rstrip_all_space|].
  by rewrite IH.
Qed.

Lemma lstrip_app_pad (s ws : string) :
  all_space ws = true → Py.rstrip (Py.lstrip (s +:+ ws)) = Py.rstrip (Py.lstrip s).
Proof.
  intros Hws. induction s as [|c s IH]; simpl.
  - assert (Hl : Py.lstrip ws = "").
    { clear -Hws. induction ws as [|c ws IH]; simpl; [done|].
      apply andb_true_iff in Hws as [Hc Hws]. rewrite Hc. by apply IH. }
    change (Py.rstrip (Py.lstrip ws) = ""). by rewrite Hl.
  - destruct (Py.is_space c); [done|].
    change (Py.rstrip (String c s +:+ ws) = Py.rstrip (String c s)).
    by apply rstrip_pad.
Qed.

Lemma strip_pad (ws1 s ws2 : string) :
  all_space ws1 = true → all_space ws2 = true →
  Py.strip (ws1 +:+ s +:+ ws2) = Py.strip s.
Proof.
  intros H1 H2. unfold Py.strip. rewrite lstrip_pad by done.
  by apply lstrip_app_pad.
Qed.

(** X10.  [_normalize_name] gives the empty string for a missing name,
    is idempotent, and does not see ASCII case or white space around the
    name; so whether a candidate matches a requested name exactly does
    not depend on the case of the request or on white space around
    it. *)
Theorem normalize_name_insensitive (s : string) (ws1 ws2 : string) :
  _normalize_name None = ""
  ∧ _normalize_name (Some (_normalize_name (Some s))) = _normalize_name (Some s)
  ∧ _normalize_name (Some (Py.lower s)) = _normalize_name (Some s)
  ∧ (all_space ws1 = true → all_space ws2 = true →
     _normalize_name (Some (ws1 +:+ s +:+ ws2)) = _normalize_name (Some s)
     ∧ ∀ t, exact_match (ws1 +:+ s +:+ ws2) t ↔ exact_match s t)
  ∧ (∀ t, exact_match (Py.lower s) t ↔ exact_match s t).
Proof.
  assert (Hlower : _normalize_name (Some (Py.lower s)) = _normalize_name (Some s)).
  { unfold _normalize_name. simpl. by rewrite strip_lower, lower_idemp. }
  split; [done|]. split; [|split; [done|split]].
  - unfold _normalize_name. simpl.
    by rewrite strip_lower, strip_idemp, lower_idemp.
  - intros H1 H2.
    assert (Hpad : _normalize_name (Some (ws1 +:+ s +:+ ws2)) = _normalize_name (Some s)).
    { unfold _normalize_name. simpl. by rewrite strip_pad. }
    split; [done|]. intros t. unfold exact_match. by rewrite Hpad.
  - intros t. unfold exact_match. by rewrite Hlower.
Qed.

Lemma normalize_name_insensitive_witness :
  _normalize_name (Some ("  " +:+ "Elbow Lake Loop" +:+ " ")) = "elbow lake loop"
  ∧ (exact_match ("  " +:+ "Elbow Lake Loop" +:+ " ") trail_elbow
     ↔ exact_match "Elbow Lake Loop" trail_elbow).
Proof.
  destruct (normalize_name_insensitive "Elbow Lake Loop" "  " " ")
    as (_ & _ & _ & Hpad & _).
  destruct (Hpad eq_refl eq_refl) as [Hname Hmatch].
  split; [rewrite Hname; reflexivity|apply Hmatch].
Defined.

(** ** What [_pick_by_name] returns *)

Lemma head_filter_find {A} (f : A -> bool) (l : list A) :
  head (List.filter f l) = List.find f l.
Proof. induction l as [|a l IH]; simpl; [done|]. by destruct (f a). Qed.

Lemma find_none_inv {A} (f : A -> bool) (l : list A) :
  List.find f l = None → ∀ x, x ∈ l → f x = false.
Proof. intros Hnone x Hx%list_elem_of_In. by eapply find_none. Qed.

Lemma close_matches_shape (word : string) (cutoff : Q) (possibilities : list string) :
  (difflib.get_close_matches word possibilities cutoff = []
   ∧ ∀ x, x ∈ possibilities → difflib.close_enough cutoff word x = false)
  ∨ (∃ m, difflib.get_close_matches word possibilities cutoff = [m]
          ∧ m ∈ possibilities ∧ difflib.close_enough cutoff word m = true).
Proof.
  destruct (List.find (difflib.close_enough cutoff word) possibilities) as [x0|] eqn:Hf.
  - right. apply find_elem in Hf as [Hin Hclose].
    destruct (close_matches_best word cutoff possibilities x0 Hin Hclose)
      as (m & Hm & Hmin & Hmc & _).
    by exists m.
  - left. pose proof (find_none_inv _ _ Hf) as Hnone.
    split; [by apply close_matches_none|done].
Qed.

(** X11.  [_pick_by_name] only ever returns a trail of the list.  It
    returns nothing exactly when no candidate matches the name exactly,
    no named candidate is close enough, and no candidate has both
    coordinates; so it finds a trail whenever one has coordinates.  A
    trail without a usable name is returned only as the fallback, that
    is as the first trail with coordinates. *)
Theorem pick_by_name_outcomes (trails : list trail) (trail_name : string) :
  (∀ t, _pick_by_name trails trail_name = Some t → t ∈ trails)
  ∧ (_pick_by_name trails trail_name = None
     ↔ (∀ t, t ∈ trails → ¬ exact_match trail_name t)
       ∧ (∀ name, candidate_name trails name → ¬ close_to trail_name name)
       ∧ (∀ t, t ∈ trails → has_coords t = false))
  ∧ (∀ t, _pick_by_name trails trail_name = Some t → is_named t = false →
          first_such (fun t => has_coords t = true) trails t).
Proof.
  split; [apply pick_by_name_elem|]. split.
  - split.
    + unfold _pick_by_name. destruct trails as [|t0 rest].
      { intros _. split; [|split].
        - by intros t ?%elem_of_nil.
        - by intros name (t & ?%elem_of_nil & _).
        - by intros t ?%elem_of_nil. }
      set (trails := t0 :: rest).
      destruct (List.find _ (List.filter is_named trails)) as [t1|] eqn:Hexact; [done|].
      rewrite find_filter in Hexact. pose proof (find_none_inv _ _ Hexact) as Hno.
      destruct (close_matches_shape trail_name (6 # 10)
                  (omap tr_name (List.filter is_named trails)))
        as [[-> Hnone]|(m & -> & Hm & _)].
      * intros Hhead. split; [|split].
        -- intros t Ht Hm. apply exact_match_bool in Hm. by rewrite (Hno t Ht) in Hm.
        -- intros name Hc%candidate_names Hclose. unfold close_to in Hclose.
           by rewrite (Hnone name Hc) in Hclose.
        -- rewrite head_filter_find in Hhead. by apply find_none_inv.
      * apply list_elem_of_omap in Hm as (t & Ht & Hname).
        destruct (List.find (fun t => bool_decide (tr_name t = Some m))
                    (List.filter is_named trails)) as [t2|] eqn:Hfind; [done|].
        exfalso. pose proof (find_none_inv _ _ Hfind t Ht) as Hf.
        by apply bool_decide_eq_false in Hf.
    + intros (Hno & Hnoclose & Hnocoords).
      by apply (proj2 (proj2 (proj1 (proj2 (pick_by_name_resolution trails trail_name))
                                 Hno) Hnoclose)).
  - intros t Hpick Hunnamed. unfold _pick_by_name in Hpick.
    destruct trails as [|t0 rest]; [done|]. set (trails := t0 :: rest) in *.
    destruct (List.find _ (List.filter is_named trails)) as [t1|] eqn:Hexact.
    { injection Hpick as ->. apply find_elem in Hexact as [Hin _].
      apply filter_elem in Hin as [_ Hn]. congruence. }
    match type of Hpick with
    | match ?f with Some _ => _ | None => _ end = _ => destruct f as [t2|] eqn:Hfuzzy
    end.
    { injection Hpick as ->.
      destruct (difflib.get_close_matches _ _ _); [done|].
      apply find_elem in Hfuzzy as [Hin _].
      apply filter_elem in Hin as [_ Hn]. congruence. }
    rewrite head_filter_find in Hpick. by apply find_first_such.
Qed.

Lemma pick_by_name_outcomes_witness :
  _pick_by_name [ghost_trail] "zzzz" = None
  ∧ first_such (fun t => has_coords t = true)
      [mk_trail (Some 9%Z) (Some "way") None None (Some 50%Q) (Some (-114)%Q) None None]
      (mk_trail (Some 9%Z) (Some "way") None None (Some 50%Q) (Some (-114)%Q) None None).
Proof.
  split.
  - apply (proj1 (proj2 (pick_by_name_outcomes [ghost_trail] "zzzz"))).
    split; [|split].
    + intros t ->%list_elem_of_singleton [_ Heq]. by vm_compute in Heq.
    + intros name (t & ->%list_elem_of_singleton & _ & [= <-]). by vm_compute.
    + by intros t ->%list_elem_of_singleton.
  - apply (proj2 (proj2 (pick_by_name_outcomes
                           [mk_trail (Some 9%Z) (Some "way") None None (Some 50%Q)
                              (Some (-114)%Q) None None] "anything")));
      reflexivity.
Defined.

(** ** What the composed tools return *)

(** X12.  When [weather_for_trail] returns, the trail is the one
    [_pick_by_name] chose among the candidates the trail service gave, it
    has both coordinates, and the forecast is the slice of an answer for
    the clamped hour count.  The forecast is asked at the coordinates of
    the chosen trail: every request to the forecast service is the one
    for that point, whatever [lat] and [lon] the caller gave. *)
Theorem joiner_forecast_at_chosen_trail `{Upstream}
    (trail_name : string) (hours : Z) (lat lon : option Q) (radius_km : Q)
    (s s' : state) (tw : trail_weather) :
  tables_ok s →
  weather_for_trail trail_name hours lat lon radius_km s = (Ok tw, s') →
  ∃ elements tlat tlon data,
    tw_trail tw ∈ _normalize elements
    ∧ _pick_by_name (_normalize elements) trail_name = Some (tw_trail tw)
    ∧ tr_lat (tw_trail tw) = Some tlat ∧ tr_lon (tw_trail tw) = Some tlon
    ∧ tw_forecast tw = _slim_weather data (_clamp_hours hours)
    ∧ ∃ rqs, sent_between s s' rqs
        ∧ ∀ rq, rq ∈ rqs → rq_url rq = OPEN_METEO_URL →
            rq = weather_request tlat tlon (_clamp_hours hours).
Proof.
  intros Hok Hrun.
  apply bind_inv in Hrun as [(l & s1 & Hcand & Hrest)|(e & _ & [=])].
  apply candidates_for_inv in Hcand as (Hok1 & Hsent1 & elements & ->); [|done].
  apply weather_for_candidates_inv in Hrest
    as (_ & Hpick & tlat & tlon & Hlat & Hlon & Hweather); [|done].
  apply get_weather_inv in Hweather as (_ & Hsent2 & data & Hdata); [|done].
  exists elements, tlat, tlon, data.
  split; [by eapply pick_by_name_elem|]. do 4 (split; [done|]).
  assert (Hover : ∀ rqs1, (rqs1 = [] ∨ ∃ ql t, rqs1 = [overpass_request ql t]) →
            ∀ rqs2, (rqs2 = [] ∨ rqs2 = [weather_request tlat tlon (_clamp_hours hours)]) →
            ∀ rq, rq ∈ rqs1 ++ rqs2 → rq_url rq = OPEN_METEO_URL →
                  rq = weather_request tlat tlon (_clamp_hours hours)).
  { intros rqs1 H1 rqs2 H2 rq [Hin|Hin]%elem_of_app Hu.
    - destruct H1 as [->|(ql & t & ->)]; [by apply elem_of_nil in Hin|].
      apply list_elem_of_singleton in Hin as ->. done.
    - destruct H2 as [->| ->]; [by apply elem_of_nil in Hin|].
      by apply list_elem_of_singleton in Hin. }
  destruct Hsent1 as [Hs1|Hs1], Hsent2 as [Hs2|Hs2];
    (eexists; split; [exact (sent_between_trans _ _ _ _ _ Hs1 Hs2)|]);
    apply Hover; eauto.
  - right. destruct lat, lon; eauto.
  - right. destruct lat, lon; eauto.
Qed.

Lemma joiner_forecast_at_chosen_trail_witness :
  ∃ elements tlat tlon data,
    trail_grotto_found ∈ _normalize elements
    ∧ _pick_by_name (_normalize elements) "grotto canyon" = Some trail_grotto_found
    ∧ tr_lat trail_grotto_found = Some tlat ∧ tr_lon trail_grotto_found = Some tlon
    ∧ _slim_weather sample_forecast 6 = _slim_weather data (_clamp_hours 6)
    ∧ ∃ rqs,
        sent_between initial_state
          (@weather_for_trail sample_upstream "grotto canyon" 6 (Some 40%Q) (Some 10%Q)
             15 initial_state).2 rqs
        ∧ ∀ rq, rq ∈ rqs → rq_url rq = OPEN_METEO_URL →
            rq = @weather_request tlat tlon (_clamp_hours 6).
Proof.
  apply (@joiner_forecast_at_chosen_trail sample_upstream "grotto canyon" 6%Z
           (Some 40%Q) (Some 10%Q) 15%Q initial_state _
           {| tw_trail := trail_grotto_found;
              tw_forecast := _slim_weather sample_forecast 6 |}
           tables_ok_initial).
  by vm_compute.
Defined.

Lemma geocode_place_errors `{Upstream} (place : string) (s s' : state) (e : exn) :
  geocode_place place s = (Raise e, s') →
  upstream_failure e
  ∨ e = ValueError ("Could not geocode '" +:+ place +:+ "' in Alberta.")
  ∨ ∃ text, e = ValueError ("could not convert string to float: '" +:+ text +:+ "'").
Proof.
  unfold geocode_place, mbind, M_bind, exchange, upstream_failure.
  destruct (nominatim (log s) (geocode_request place)) as [f|resp].
  { intros [= <- _]. left. left. by exists f. }
  unfold raise_for_status, json_of, float_of_str, raise, mret, M_ret.
  destruct ((400 <=? status_code resp)%Z && (status_code resp <? 600)%Z); simpl.
  { intros [= <- _]. left. right. left. by eexists. }
  destruct (json resp) as [[|first rest]|]; simpl.
  - intros [= <- _]. right. by left.
  - destruct (parse_float (g_lat first)); simpl.
    + destruct (parse_float (g_lon first)); simpl; [done|].
      intros [= <- _]. right. right. by eexists.
    + intros [= <- _]. right. right. by eexists.
  - intros [= <- _]. left. by do 2 right.
Qed.

(** X13.  What [recommend_near_place] can return.  A record has the
    place name as given, at most 20 trails with distinct keys, each with
    both coordinates and a non-empty name, and hourly series of at most
    the clamped hour count.  An exception is an upstream failure of one
    of the three services, the [ValueError] for a place without hit, or
    the [ValueError] for a hit whose coordinate is not a number. *)
Theorem pipeline_result_shape `{Upstream}
    (place : string) (radius_km : Q) (hours : Z) (s s' : state)
    (r : result recommendation) :
  tables_ok s →
  recommend_near_place place radius_km hours s = (r, s') →
  match r with
  | Ok rec =>
      pl_name (rec_place rec) = place
      ∧ (length (rec_trails rec) ≤ 20)%nat
      ∧ NoDup (trail_key <$> rec_trails rec)
      ∧ (∀ t, t ∈ rec_trails rec →
           has_coords t = true ∧ ∃ name, tr_name t = Some name ∧ name ≠ "")
      ∧ (∀ n, n ∈ hourly_lengths (fs_hourly (rec_weather rec)) →
           (Z.of_nat n <= _clamp_hours hours)%Z)
  | Raise e =>
      upstream_failure e
      ∨ e = ValueError ("Could not geocode '" +:+ place +:+ "' in Alberta.")
      ∨ ∃ text, e = ValueError ("could not convert string to float: '"
                                +:+ text +:+ "'")
  end.
Proof.
  intros Hok Hrun.
  apply bind_inv in Hrun as [(loc & s1 & Hgeo & Hrun)|(e & Hgeo & ->)];
    [|by eapply geocode_place_errors].
  pose proof (geocode_place_inv _ _ _ _ Hgeo) as [Hsame _].
  pose proof (tables_ok_same _ _ Hok Hsame) as Hok1.
  apply bind_inv in Hrun as [(trails & s2 & Hnear & Hrun)|(e & Hnear & ->)].
  2:{ apply get_trails_near_inv in Hnear as (_ & _ & He); [|done]. by left. }
  apply get_trails_near_inv in Hnear as (Hok2 & _ & elements & ->); [|done].
  apply bind_inv in Hrun as [(weather & s3 & Hweather & Hret)|(e & Hweather & ->)].
  2:{ apply get_weather_inv in Hweather as (_ & _ & He); [|done]. by left. }
  apply get_weather_inv in Hweather as (_ & _ & data & ->); [|done].
  unfold mret, M_ret in Hret. injection Hret as <- <-.
  cbn [rec_place rec_trails rec_weather pl_name].
  split; [done|]. split; [apply normalize_length|]. split; [apply normalize_NoDup|].
  split.
  - intros t (Hc & el & _ & Hname)%normalize_named_with_coords.
    split; [done|]. eexists. split; [done|]. apply display_name_nonempty.
  - intros n. rewrite slim_lengths. intros (m & -> & _)%list_elem_of_fmap.
    rewrite clamp_hours_idemp. pose proof (clamp_hours_range hours). lia.
Qed.

Lemma pipeline_result_shape_witness :
  match (@recommend_near_place sample_upstream "Canmore" 12 48 initial_state).1 with
  | Ok rec =>
      pl_name (rec_place rec) = "Canmore"
      ∧ (length (rec_trails rec) ≤ 20)%nat
      ∧ NoDup (trail_key <$> rec_trails rec)
      ∧ (∀ t, t ∈ rec_trails rec →
           has_coords t = true ∧ ∃ name, tr_name t = Some name ∧ name ≠ "")
      ∧ (∀ n, n ∈ hourly_lengths (fs_hourly (rec_weather rec)) →
           (Z.of_nat n <= _clamp_hours 48)%Z)
  | Raise e =>
      upstream_failure e
      ∨ e = ValueError ("Could not geocode '" +:+ "Canmore" +:+ "' in Alberta.")
      ∨ ∃ text, e = ValueError ("could not convert string to float: '"
                                +:+ text +:+ "'")
  end.
Proof.
  exact (@pipeline_result_shape sample_upstream "Canmore" 12%Q 48%Z initial_state _ _
           tables_ok_initial (surjective_pairing _)).
Defined.

(** ** Slimming again *)

Lemma slice_slice {A} (n m : Z) (l : list A) :
  (0 <= n <= m)%Z → Py.slice_to n (Py.slice_to m l) = Py.slice_to n l.
Proof.
  intros Hnm. unfold Py.slice_to. rewrite take_take. f_equal. lia.
Qed.

Lemma slice_slice_opt {A} (n m : Z) (o : option (list A)) :
  (0 <= n <= m)%Z →
  Py.slice_to n <$> (Py.slice_to m <$> o) = Py.slice_to n <$> o.
Proof. intros Hnm. destruct o as [l|]; simpl; [|done]. by rewrite slice_slice. Qed.

(** X14.  [_slim_weather] uses the hour count only through
    [_clamp_hours], so 0 and any smaller count slim like 1 and 48 and any
    larger count like 24; and slimming composes: the slice for a count,
    taken from the hourly series of the slice for a greater count, is the
    slice for that count taken from the answer itself, summary included.
    In particular slimming a slice again with the same count changes
    nothing. *)
Theorem slim_weather_composes (data : forecast_data) (hours hours' : Z) :
  _slim_weather data hours = _slim_weather data (_clamp_hours hours)
  ∧ ((hours <= 1)%Z → _slim_weather data hours = _slim_weather data 1)
  ∧ ((24 <= hours)%Z → _slim_weather data hours = _slim_weather data 24)
  ∧ ((_clamp_hours hours <= _clamp_hours hours')%Z →
     _slim_weather (mk_forecast_data (Some (fs_hourly (_slim_weather data hours'))))
       hours
     = _slim_weather data hours).
Proof.
  assert (Hclamp : ∀ h h', _clamp_hours h = _clamp_hours h' →
            _slim_weather data h = _slim_weather data h').
  { intros h h' Heq. unfold _slim_weather. by rewrite Heq. }
  split; [apply Hclamp; by rewrite clamp_hours_idemp|].
  split; [intros Hle; apply Hclamp; unfold _clamp_hours; lia|].
  split; [intros Hge; apply Hclamp; unfold _clamp_hours; lia|].
  intros Hle. pose proof (clamp_hours_range hours) as (Hrange & _).
  unfold _slim_weather.
  cbn [fd_hourly default from_option id fs_hourly h_time h_temperature_2m
       h_precipitation_probability h_precipitation].
  rewrite !slice_slice_opt by lia. done.
Qed.

Lemma slim_weather_composes_witness :
  _slim_weather sample_forecast 0 = _slim_weather sample_forecast 1
  ∧ _slim_weather sample_forecast 48 = _slim_weather sample_forecast 24
  ∧ _slim_weather
      (mk_forecast_data (Some (fs_hourly (_slim_weather sample_forecast 3)))) 2
    = _slim_weather sample_forecast 2.
Proof.
  destruct (slim_weather_composes sample_forecast 0 0) as (_ & Hlow & _).
  destruct (slim_weather_composes sample_forecast 48 0) as (_ & _ & Hhigh & _).
  destruct (slim_weather_composes sample_forecast 2 3) as (_ & _ & _ & Hcomp).
  split; [|split].
  - apply Hlow. lia.
  - apply Hhigh. lia.
  - apply Hcomp. by vm_compute.
Defined.

(** ** More on [_normalize] *)

(** X16.  Every trail of a list built by [_normalize] comes from an
    element that has both centre coordinates: it has the identifier and
    the type of the element, the centre coordinates as [round(_, 5)]
    gives them, the [sac_scale] and [surface] tags as difficulty and
    surface, and a route type only when the element is a relation (its
    [route] tag). *)
Theorem normalized_trail_fields (elements : list element) (t : trail) :
  t ∈ _normalize elements →
  ∃ el clat clon,
    el ∈ elements
    ∧ (∃ c, e_center el = Some c ∧ c_lat c = Some clat ∧ c_lon c = Some clon)
    ∧ tr_id t = e_id el ∧ tr_osm_type t = e_type el
    ∧ tr_lat t = Some (Py.round clat 5) ∧ tr_lon t = Some (Py.round clon 5)
    ∧ tr_difficulty t = default ∅ (e_tags el) !! "sac_scale"
    ∧ tr_surface t = default ∅ (e_tags el) !! "surface"
    ∧ (e_type el = Some "relation" →
       tr_route_type t = default ∅ (e_tags el) !! "route")
    ∧ (e_type el ≠ Some "relation" → tr_route_type t = None).
Proof.
  intros (el & Hel & Hn)%normalize_from_elements.
  unfold normalize_element in Hn.
  destruct (e_center el) as [c|] eqn:Hc; simpl in Hn; [|done].
  destruct (c_lat c) as [clat|] eqn:Hlat; [|done].
  destruct (c_lon c) as [clon|] eqn:Hlon; [|done].
  injection Hn as <-.
  exists el, clat, clon.
  split; [done|]. split; [by exists c|]. cbn [tr_id tr_osm_type tr_lat tr_lon
    tr_difficulty tr_surface tr_route_type].
  do 4 (split; [done|]). do 2 (split; [done|]).
  split; intros Htype; by destruct (decide (e_type el = Some "relation")).
Qed.

Lemma normalized_trail_fields_witness :
  ∃ el clat clon,
    el ∈ sample_elements
    ∧ (∃ c, e_center el = Some c ∧ c_lat c = Some clat ∧ c_lon c = Some clon)
    ∧ tr_id trail_grotto_found = e_id el ∧ tr_osm_type trail_grotto_found = e_type el
    ∧ tr_lat trail_grotto_found = Some (Py.round clat 5)
    ∧ tr_lon trail_grotto_found = Some (Py.round clon 5)
    ∧ tr_difficulty trail_grotto_found = default ∅ (e_tags el) !! "sac_scale"
    ∧ tr_surface trail_grotto_found = default ∅ (e_tags el) !! "surface"
    ∧ (e_type el = Some "relation" →
       tr_route_type trail_grotto_found = default ∅ (e_tags el) !! "route")
    ∧ (e_type el ≠ Some "relation" → tr_route_type trail_grotto_found = None).
Proof.
  apply (normalized_trail_fields sample_elements trail_grotto_found).
  change (_normalize sample_elements) with sample_trails.
  unfold sample_trails. left.
Defined.

Lemma unseen_app seen (out1 out2 : list trail) :
  unseen seen (out1 ++ out2)
  = unseen seen out1
      ++ unseen (seen ∪ list_to_set (trail_key <$> out1)) out2.
Proof.
  revert seen. induction out1 as [|item rest IH]; intros seen; simpl.
  - f_equal. set_solver.
  - destruct (decide (trail_key item ∈ seen)) as [Hin|Hout].
    + rewrite IH. do 2 f_equal. set_solver.
    + rewrite IH. simpl. do 3 f_equal. set_solver.
Qed.

Lemma unseen_all_seen seen (out : list trail) :
  (∀ t, t ∈ out → trail_key t ∈ seen) → unseen seen out = [].
Proof.
  induction out as [|item rest IH]; intros Hall; simpl; [done|].
  destruct (decide (trail_key item ∈ seen)) as [Hin|Hout].
  - apply IH. intros t Ht. apply Hall. by right.
  - exfalso. apply Hout, Hall. left.
Qed.

(** X17.  Elements that bring nothing new are ignored: appending
    elements that lack a centre coordinate or repeat the [(type, id)] of
    an earlier element with coordinates does not change the list, so
    [_normalize] of a list repeated is [_normalize] of the list; and once
    the list has its 20 trails, nothing appended changes it. *)
Theorem normalize_ignores_repeats (elements more : list element) :
  ((∀ el t, el ∈ more → normalize_element el = Some t →
      ∃ el0 t0, el0 ∈ elements ∧ normalize_element el0 = Some t0
                ∧ trail_key t0 = trail_key t) →
   _normalize (elements ++ more) = _normalize elements)
  ∧ _normalize (elements ++ elements) = _normalize elements
  ∧ (length (_normalize elements) = 20%nat →
     _normalize (elements ++ more) = _normalize elements).
Proof.
  assert (Hsplit : _normalize (elements ++ more)
                   = take 20 (unseen ∅ (omap normalize_element elements)
                              ++ unseen (∅ ∪ list_to_set
                                           (trail_key <$> omap normalize_element elements))
                                   (omap normalize_element more))).
  { unfold _normalize. by rewrite dedup_loop_unseen, normalize_loop_omap, omap_app,
      unseen_app. }
  assert (Hone : _normalize elements
                 = take 20 (unseen ∅ (omap normalize_element elements))).
  { unfold _normalize. by rewrite dedup_loop_unseen, normalize_loop_omap. }
  assert (Hrepeats : (∀ el t, el ∈ more → normalize_element el = Some t →
            ∃ el0 t0, el0 ∈ elements ∧ normalize_element el0 = Some t0
                      ∧ trail_key t0 = trail_key t) →
          _normalize (elements ++ more) = _normalize elements).
  { intros Hold.
    rewrite Hsplit, Hone,
      (unseen_all_seen (∅ ∪ list_to_set (trail_key <$> omap normalize_element elements))
         (omap normalize_element more)); [by rewrite app_nil_r|].
    intros t (el & Hel & Ht)%list_elem_of_omap.
    destruct (Hold el t Hel Ht) as (el0 & t0 & Hel0 & Ht0 & <-).
    apply elem_of_union_r, elem_of_list_to_set, list_elem_of_fmap.
    exists t0. split; [done|]. apply list_elem_of_omap. by exists el0. }
  split; [done|]. split.
  - clear Hsplit Hone. generalize Hrepeats. clear Hrepeats.
    intros _. unfold _normalize.
    rewrite !dedup_loop_unseen, !normalize_loop_omap, omap_app, unseen_app.
    rewrite (unseen_all_seen
               (∅ ∪ list_to_set (trail_key <$> omap normalize_element elements))
               (omap normalize_element elements)); [by rewrite app_nil_r|].
    intros t Ht. apply elem_of_union_r, elem_of_list_to_set.
    by apply list_elem_of_fmap_2.
  - intros Hfull. rewrite Hsplit, Hone. rewrite Hone, length_take in Hfull.
    rewrite take_app_le by lia. done.
Qed.

Lemma normalize_ignores_repeats_witness :
  _normalize (sample_elements ++ [mk_element (Some "way") (Some 12%Z) None
                                    (Some (mk_center (Some 1%Q) (Some 2%Q)));
                                  mk_element (Some "way") (Some 99%Z) None None])
  = _normalize sample_elements.
Proof.
  apply (proj1 (normalize_ignores_repeats sample_elements _)).
  intros el t [->|[->|[]%elem_of_nil]%elem_of_cons]%elem_of_cons Ht;
    [|by vm_compute in Ht].
  exists (mk_element (Some "way") (Some 12%Z) None
            (Some (mk_center (Some (5108 # 100)%Q) (Some (-11522 # 100)%Q)))).
  eexists. split; [do 3 right; left|]. split; [reflexivity|].
  unfold normalize_element in Ht. simpl in Ht. by injection Ht as <-.
Defined.

(** X18.  [weather_for_trail] raises its [ValueError] with the message
    "No trails found in the search area." exactly when the search for
    candidates returned no trail; the state is then the one the search
    left, so no forecast was requested.  Every other exception of the
    call is an upstream failure: a failed exchange, an error status or a
    body that does not decode. *)
Theorem joiner_no_trails_iff_empty_search `{Upstream}
    (trail_name : string) (hours : Z) (lat lon : option Q) (radius_km : Q)
    (s s' : state) :
  tables_ok s →
  (weather_for_trail trail_name hours lat lon radius_km s
   = (Raise (ValueError "No trails found in the search area."), s')
   ↔ match lat, lon with
     | Some lat, Some lon => get_trails_near lat lon radius_km false true s
     | _, _ => get_trails_in_bbox 49 (-120) 60 (-110) false true s
     end = (Ok [], s'))
  ∧ (∀ e, weather_for_trail trail_name hours lat lon radius_km s = (Raise e, s') →
          e = ValueError "No trails found in the search area."
          ∨ upstream_failure e).
Proof.
  intros Hok.
  assert (Hcand : candidates_for lat lon radius_km s
                  = match lat, lon with
                    | Some lat, Some lon => get_trails_near lat lon radius_km false true s
                    | _, _ => get_trails_in_bbox 49 (-120) 60 (-110) false true s
                    end).
  { unfold candidates_for. by destruct lat, lon. }
  rewrite <- Hcand. clear Hcand.
  assert (Hcases : ∀ e,
            weather_for_trail trail_name hours lat lon radius_km s = (Raise e, s') →
            (e = ValueError "No trails found in the search area."
             ∧ candidates_for lat lon radius_km s = (Ok [], s'))
            ∨ upstream_failure e).
  { intros e Hrun.
    apply bind_inv in Hrun as [(l & s1 & Hc & Hrest)|(e' & Hc & [= <-])].
    - pose proof (candidates_for_inv _ _ _ _ _ _ Hok Hc) as (Hok1 & _ & elements & ->).
      apply weather_for_candidates_inv in Hrest as (_ & Hr); [|done].
      destruct Hr as [(Hnil & -> & ->)|[(Hne & Hnone & _)|[(c & Hpick & Hno & _)|
        (c & tlat & tlon & _ & _ & _ & _ & Hup)]]].
      + left. by rewrite Hnil in Hc.
      + destruct (pick_by_name_total_with_coords (_normalize elements) trail_name Hne)
          as [t Ht]; [|congruence].
        by intros t [Hco _]%normalize_named_with_coords.
      + apply pick_by_name_elem in Hpick.
        apply normalize_named_with_coords in Hpick as [Hco _]. congruence.
      + by right.
    - apply candidates_for_inv in Hc as (_ & _ & Hup); [|done]. by right. }
  split; [split|].
  - intros Hrun. destruct (Hcases _ Hrun) as [[_ Hc]|Hup]; [done|].
    by destruct Hup as [[? ?]|[[? ?]|?]].
  - intros Hc. unfold weather_for_trail, mbind, M_bind. by rewrite Hc.
  - intros e Hrun. destruct (Hcases _ Hrun) as [[-> _]|Hup]; [by left|by right].
Qed.

Lemma joiner_no_trails_iff_empty_search_witness :
  @weather_for_trail empty_upstream "Grotto" 6 None None 15 initial_state
  = (Raise (ValueError "No trails found in the search area."),
     (@get_trails_in_bbox empty_upstream 49 (-120) 60 (-110) false true
        initial_state).2).
Proof.
  apply (proj1 (@joiner_no_trails_iff_empty_search empty_upstream "Grotto" 6%Z
                  None None 15%Q initial_state _ tables_ok_initial)).
  by vm_compute.
Defined.

(** ** The query texts *)

Lemma append_inj_l (a x y : string) : a +:+ x = a +:+ y → x = y.
Proof.
  induction a as [|c a IH]; [done|]. intros Heq. apply IH.
  by injection Heq.
Qed.

#[local] Ltac cancel_prefix H :=
  repeat (apply append_inj_l in H).

Lemma filters_inj (hard_only natural_only hard_only' natural_only' : bool)
    (rest rest' : string) :
  sac_filter hard_only +:+ ";" +:+ rest = sac_filter hard_only' +:+ ";" +:+ rest' →
  hard_only = hard_only'.
Proof.
  destruct hard_only, hard_only'; try done; intros Heq; by vm_compute in Heq.
Qed.

Lemma surface_inj (hard_only natural_only natural_only' : bool) (rest rest' : string) :
  surface_filter natural_only +:+ sac_filter hard_only +:+ ";" +:+ rest
  = surface_filter natural_only' +:+ sac_filter hard_only +:+ ";" +:+ rest' →
  natural_only = natural_only'.
Proof.
  destruct natural_only, natural_only', hard_only; try done;
    intros Heq; by vm_compute in Heq.
Qed.

(** X19.  The query text tells the flags: for the same point or box, two
    queries built with different [hard_only] or [natural_only] flags are
    different texts, however the runtime prints the numbers. *)
Theorem query_text_tells_flags `{Upstream} :
  (∀ lat lon radius_m hard_only natural_only hard_only' natural_only',
     _overpass_query_near lat lon radius_m hard_only natural_only
     = _overpass_query_near lat lon radius_m hard_only' natural_only' →
     hard_only = hard_only' ∧ natural_only = natural_only')
  ∧ (∀ min_lat min_lon max_lat max_lon hard_only natural_only hard_only' natural_only',
       _overpass_query_bbox min_lat min_lon max_lat max_lon hard_only natural_only
       = _overpass_query_bbox min_lat min_lon max_lat max_lon hard_only' natural_only' →
       hard_only = hard_only' ∧ natural_only = natural_only').
Proof.
  split.
  - intros lat lon radius_m h n h' n' Heq.
    unfold _overpass_query_near in Heq. cbv zeta in Heq.
    cancel_prefix Heq.
    pose proof (filters_inj h n h' n' _ _ Heq) as <-.
    split; [done|]. cancel_prefix Heq.
    by apply surface_inj in Heq.
  - intros a b c d h n h' n' Heq.
    unfold _overpass_query_bbox in Heq. cbv zeta in Heq.
    cancel_prefix Heq.
    assert (Hh : h = h').
    { destruct h, h'; try done; by vm_compute in Heq. }
    subst h'. split; [done|]. cancel_prefix Heq.
    destruct n, n', h; try done; by vm_compute in Heq.
Qed.

Lemma query_text_tells_flags_witness :
  true = true ∧ false = false.
Proof.
  apply (proj1 (@query_text_tells_flags sample_upstream)
           51%Q (-115)%Q 12000%Z true false true false).
  reflexivity.
Defined.

Lemma tools_keep_tables_ok_witness :
  tables_ok (@recommend_near_place sample_upstream "Canmore" 12 12 initial_state).2
  ∧ tables_ok
      (@weather_for_trail sample_upstream "Grotto Canyon" 6 None None 15
         (@recommend_near_place sample_upstream "Canmore" 12 12 initial_state).2).2.
Proof.
  assert (Hfirst : tables_ok
            (@recommend_near_place sample_upstream "Canmore" 12 12 initial_state).2).
  { exact (proj2 (proj2 (proj2 (proj2 (proj2
             (@tools_keep_tables_ok sample_upstream initial_state tables_ok_initial)))))
             "Canmore" 12%Q 12%Z). }
  split; [exact Hfirst|].
  exact (proj1 (proj2 (proj2 (proj2 (proj2
           (@tools_keep_tables_ok sample_upstream _ Hfirst)))))
           "Grotto Canyon" 6%Z None None 15%Q).
Defined.
